(** * pwa-assets-generator: a shallow embedding of [main.py]

    The program turns one source image into a set of web-app icons, a
    manifest document, a favicon and a logo.  It is a sequence of file-system
    operations and Pillow calls, so it is embedded as a state-and-exception
    monad over an explicit world (file system, working directory, standard
    output, a trace of the file-system mutations, an injected-failure plan
    and the pool of temporary names).

    Strings are byte strings holding UTF-8 text, exactly as the literals of
    the source file are stored. *)

From Stdlib Require Import ZArith String Ascii List Lia.
From stdpp Require Import base decidable option list strings pretty gmap fin_maps sorting.

Set Warnings "-register-all".

Local Open Scope Z_scope.
Local Open Scope string_scope.
Local Open Scope list_scope.

(** ** Python strings *)

Module Str.

(** A byte written by its code. *)
Definition chr (n : nat) : ascii := ascii_of_nat n.

Definition nl : string := String (chr 10) "".

(** ASCII part of [str.lower]: [A]..[Z] go to [a]..[z].  Bytes of code
    points outside ASCII are kept; no such code point has a lower-case form
    made of ASCII letters of the words the program compares with. *)
Definition lower_char (c : ascii) : ascii :=
  let n := nat_of_ascii c in
  if ((65 <=? n) && (n <=? 90))%nat then ascii_of_nat (n + 32) else c.

Fixpoint lower (s : string) : string :=
  match s with
  | EmptyString => EmptyString
  | String c s' => String (lower_char c) (lower s')
  end.

(** White space as [str.strip] sees it ([str.isspace]), each code point
    given by its UTF-8 bytes: the ASCII controls 09-0D and 1C-1F, the
    space, and U+0085, U+00A0, U+1680, U+2000-U+200A, U+2028, U+2029,
    U+202F, U+205F, U+3000. *)
Definition space1 (a : ascii) : bool :=
  let n := nat_of_ascii a in
  ((9 <=? n) && (n <=? 13) || (28 <=? n) && (n <=? 32))%nat.

Definition space2 (a b : ascii) : bool :=
  let m := nat_of_ascii a in
  let n := nat_of_ascii b in
  ((m =? 194) && ((n =? 133) || (n =? 160)))%nat.

Definition space3 (a b c : ascii) : bool :=
  let l := nat_of_ascii a in
  let m := nat_of_ascii b in
  let n := nat_of_ascii c in
  ((l =? 225) && (m =? 154) && (n =? 128)
   || (l =? 226) && (m =? 128)
      && ((128 <=? n) && (n <=? 138) || (n =? 168) || (n =? 169) || (n =? 175))
   || (l =? 226) && (m =? 129) && (n =? 159)
   || (l =? 227) && (m =? 128) && (n =? 128))%nat.

Fixpoint lstrip (s : string) : string :=
  match s with
  | String a s1 =>
      if space1 a then lstrip s1
      else match s1 with
           | String b s2 =>
               if space2 a b then lstrip s2
               else match s2 with
                    | String c s3 => if space3 a b c then lstrip s3 else s
                    | EmptyString => s
                    end
           | EmptyString => s
           end
  | EmptyString => s
  end.

(** The same scan from the right end, on the reversed bytes. *)
Fixpoint rstrip_rev (r : list ascii) : list ascii :=
  match r with
  | c :: r1 =>
      if space1 c then rstrip_rev r1
      else match r1 with
           | b :: r2 =>
               if space2 b c then rstrip_rev r2
               else match r2 with
                    | a :: r3 => if space3 a b c then rstrip_rev r3 else r
                    | [] => r
                    end
           | [] => r
           end
  | [] => r
  end.

Definition rstrip (s : string) : string :=
  string_of_list_ascii (rev (rstrip_rev (rev (list_ascii_of_string s)))).

Definition strip (s : string) : string := rstrip (lstrip s).

(** [sep.join(l)]. *)
Fixpoint join (sep : string) (l : list string) : string :=
  match l with
  | [] => ""
  | [x] => x
  | x :: l' => x +:+ sep +:+ join sep l'
  end.

(** [s.split(sep)] for a one-byte separator. *)
Fixpoint split_go (sep : ascii) (cur : string) (s : string) : list string :=
  match s with
  | EmptyString => [cur]
  | String c s' =>
      if Ascii.eqb c sep then cur :: split_go sep "" s'
      else split_go sep (cur +:+ String c "") s'
  end.

Definition split (sep : ascii) (s : string) : list string := split_go sep "" s.

(** [f"{n}"] for an [int]. *)
Definition of_int (n : Z) : string := pretty n.

(** Continuation byte of a UTF-8 sequence. *)
Definition cont (n : nat) : bool := ((128 <=? n) && (n <=? 191))%nat.

(** Well-formed UTF-8 (RFC 3629: shortest form, no surrogate, at most
    U+10FFFF), on the byte codes.  These are the byte strings that Python
    decodes to a [str] without escapes and can print or encode again. *)
Fixpoint utf8_codes (l : list nat) : bool :=
  match l with
  | [] => true
  | a :: l1 =>
      if (a <? 128)%nat then utf8_codes l1
      else match l1 with
           | b :: l2 =>
               if ((194 <=? a) && (a <=? 223))%nat then cont b && utf8_codes l2
               else match l2 with
                    | c :: l3 =>
                        if ((224 <=? a) && (a <=? 239))%nat then
                          cont b && cont c
                          && negb ((a =? 224) && (b <? 160))%nat
                          && negb ((a =? 237) && (159 <? b))%nat
                          && utf8_codes l3
                        else match l3 with
                             | d :: l4 =>
                                 ((240 <=? a) && (a <=? 244))%nat
                                 && cont b && cont c && cont d
                                 && negb ((a =? 240) && (b <? 144))%nat
                                 && negb ((a =? 244) && (143 <? b))%nat
                                 && utf8_codes l4
                             | [] => false
                             end
                    | [] => false
                    end
           | [] => false
           end
  end.

Definition codes (s : string) : list nat := nat_of_ascii <$> list_ascii_of_string s.

(** Text that can be printed and can stand in a path: well-formed UTF-8
    without the NUL byte. *)
Definition text (s : string) : bool :=
  utf8_codes (codes s) && forallb (λ n, negb (n =? 0)%nat) (codes s).

End Str.

(** ** [pathlib] paths (POSIX flavour) *)

Record Path := mkPath { root : string; parts : list string }.

Module PurePath.

(** Number of leading slashes decides the root: none, ["/"], or ["//"] for
    exactly two. *)
Definition root_of (s : string) : string :=
  match s with
  | String "/" (String "/" (String "/" _)) => "/"
  | String "/" (String "/" _) => "//"
  | String "/" _ => "/"
  | _ => ""
  end.

Definition keep_part (x : string) : bool :=
  negb (String.eqb x "") && negb (String.eqb x ".").

(** [Path(s)]: empty components and single dots are dropped. *)
Definition parse (s : string) : Path :=
  mkPath (root_of s) (List.filter keep_part (Str.split "/" s)).

(** [p / s]. *)
Definition joinpath (p : Path) (s : string) : Path :=
  let q := parse s in
  if String.eqb (root q) "" then mkPath (root p) (parts p ++ parts q) else q.

(** [str(p)]. *)
Definition to_str (p : Path) : string :=
  let s := root p +:+ Str.join "/" (parts p) in
  if String.eqb s "" then "." else s.

End PurePath.

Notation "p // s" := (PurePath.joinpath p s) (at level 40, left associativity).

(** *** Paths the model reads as the operating system does

    The file system below is a map from lists of components to entries: a
    component is a plain name.  The operating system reads [".."] as the
    parent directory and refuses names beyond its limits; the statements
    that say what a run does to particular entries, or that a run succeeds,
    are made for paths without such components, and say so with the
    predicates below. *)

(** Limits of Linux: bytes in one component, bytes in a path given to a
    system call (the terminating NUL included). *)
Definition NAME_MAX : nat := 255.
Definition PATH_MAX : nat := 4096.

(** No component of [p] is [".."]. *)
Definition no_parent (p : Path) : bool :=
  forallb (λ c, negb (String.eqb c "..")) (parts p).

(** Every component of [p], and [p] as a whole, is within the limits. *)
Definition within_limits (p : Path) : bool :=
  forallb (λ c, (String.length c <=? NAME_MAX)%nat) (parts p)
  && (String.length (PurePath.to_str p) <? PATH_MAX)%nat.

(** All the strings of [l] are text. *)
Definition all_text (l : list string) : bool := forallb Str.text l.

(** A project folder for which the run of the model is the run of the
    platform: text, without [".."], and with the longest path a run derives
    from it within the limits. *)
Definition ordinary_folder (project_folder : string) : bool :=
  Str.text project_folder
  && no_parent (PurePath.parse project_folder)
  && within_limits
       (PurePath.parse project_folder // "manifest" // "maskable-icon-512x512.png").

(** A source path without [".."] and within the limits. *)
Definition ordinary_source (p : Path) : bool := no_parent p && within_limits p.

(** ** Images *)

Definition RGBA : Type := Z * Z * Z * Z.

Definition alpha (p : RGBA) : Z := snd p.

(** An RGBA raster: its size [(width, height)] and its pixels row by row. *)
Record Image := mkImage { im_size : Z * Z; pixels : list RGBA }.

Definition getpixel (im : Image) (x y : Z) : option RGBA :=
  let '(w, h) := im_size im in
  if ((0 <=? x) && (x <? w) && (0 <=? y) && (y <? h))%Z
  then pixels im !! Z.to_nat (y * w + x)
  else None.

(** ** JSON values built by the program *)

Inductive json :=
| JStr (s : string)
| JList (l : list json)
| JDict (items : list (string * json)).

(** ** The library collaborators

    Pillow's codecs and resampler and [json.dump] are outside the program;
    they are taken as operations over an abstract type of file contents. *)
Record Library (bytes : Type) := mkLibrary {
  (** content of a freshly created, empty file *)
  no_bytes : bytes;
  (** [Image.open(path)] followed by [.convert("RGBA")], on the file's content;
      [None] when Pillow cannot identify or decode it *)
  decode_rgba : bytes → option Image;
  (** [img.resize(size, Image.Resampling.LANCZOS)] *)
  resize : Image → Z * Z → Image;
  (** one channel of [paste] under a mask value: mask, destination, source *)
  blend : Z → Z → Z → Z;
  (** [img.save(path, format="PNG", optimize=...)] *)
  encode_png : bool → Image → bytes;
  (** a copy of the image after [.thumbnail(size, Image.Resampling.LANCZOS,
      reducing_gap=None)] *)
  thumbnail : Image → Z * Z → Image;
  (** the ICO container holding the given frames *)
  encode_ico : list Image → bytes;
  (** [json.dump(obj, f, ensure_ascii=False, indent=4)] through a UTF-8 file *)
  json_dump : json → bytes;
}.

Arguments mkLibrary {bytes} _ _ _ _ _ _ _ _.
Arguments no_bytes {bytes} _.
Arguments decode_rgba {bytes} _ _.
Arguments resize {bytes} _ _ _.
Arguments blend {bytes} _ _ _ _.
Arguments encode_png {bytes} _ _ _.
Arguments thumbnail {bytes} _ _ _.
Arguments encode_ico {bytes} _ _.
Arguments json_dump {bytes} _ _.

(** ** The world the program runs in *)

Abbreviation key := (list string).

Inductive node (bytes : Type) :=
| File (data : bytes)
| Dir.

Arguments File {bytes} _.
Arguments Dir {bytes}.

(** File-system mutations, in the order they happen. *)
Inductive event (bytes : Type) :=
| EvMkdir (k : key)
| EvCreate (k : key) (data : bytes)
| EvWrite (k : key) (data : bytes)
| EvUnlink (k : key).

Arguments EvMkdir {bytes} _.
Arguments EvCreate {bytes} _ _.
Arguments EvWrite {bytes} _ _.
Arguments EvUnlink {bytes} _.

Record World (bytes : Type) := mkWorld {
  (** entries by absolute path components; the root itself is implicit.
      There are directories and regular files only: no links, no
      permissions, names compared byte by byte *)
  fs : gmap key (node bytes);
  (** components of the current working directory *)
  cwd : key;
  sys_argv : list string;
  (** what was printed so far, one string per call of [print]; the
      standard output is taken to accept any text *)
  stdout : list string;
  trace : list (event bytes);
  (** failure plan: the n-th fallible system call fails when the n-th entry
      is [true]; past the end of the plan nothing fails *)
  faults : list bool;
  (** names the temporary-file generator will try, in order *)
  tmp_names : list key;
}.

Arguments mkWorld {bytes} _ _ _ _ _ _ _.
Arguments fs {bytes} _.
Arguments cwd {bytes} _.
Arguments sys_argv {bytes} _.
Arguments stdout {bytes} _.
Arguments trace {bytes} _.
Arguments faults {bytes} _.
Arguments tmp_names {bytes} _.

(** ** Exceptions and the program monad *)

(** [FileNotFoundError] is kept apart from the other [OSError]s because
    [main] handles it first; [SystemExit] carries the exit code.  The texts
    carried by errors that the operating system or Pillow raise stand for
    whatever text the platform gives; only the text built by
    [resolve_source_path] is the program's own.

    These are the exceptions [main] deals with.  Python raises others that
    [main] does not catch: [ValueError] for a NUL byte in a path,
    [UnicodeEncodeError] when a string that is not text is printed or
    written through the UTF-8 manifest file, Pillow's
    [DecompressionBombError] for an image of excessive size.  They are not
    represented; a statement that says how a run ends is made for names
    that are text ([Str.text]) and for sources that Pillow decodes or that
    are missing. *)
Inductive exn :=
| FileNotFoundError (msg : string)
| OSError (msg : string)
| SystemExit (code : Z).

Inductive result (A : Type) :=
| Ok (a : A)
| Raise (e : exn).

Arguments Ok {A} _.
Arguments Raise {A} _.

Definition M (bytes A : Type) : Type := World bytes → result A * World bytes.

Section Monad.
Context {bytes : Type}.

Definition ret {A} (a : A) : M bytes A := λ w, (Ok a, w).

Definition bind {A B} (m : M bytes A) (k : A → M bytes B) : M bytes B :=
  λ w, match m w with
       | (Ok a, w') => k a w'
       | (Raise e, w') => (Raise e, w')
       end.

Definition raise {A} (e : exn) : M bytes A := λ w, (Raise e, w).

(** [try: body finally: fin]: [fin] runs on every exit of [body]; an
    exception of [fin] replaces the outcome of [body]. *)
Definition try_finally {A} (body : M bytes A) (fin : M bytes unit) : M bytes A :=
  λ w, let '(r, w') := body w in
       match fin w' with
       | (Ok _, w'') => (r, w'')
       | (Raise e, w'') => (Raise e, w'')
       end.

(** [try: body except ...]: [handler e] is the matching clause, if any. *)
Definition try_except {A} (body : M bytes A)
    (handler : exn → option (M bytes A)) : M bytes A :=
  λ w, match body w with
       | (Ok a, w') => (Ok a, w')
       | (Raise e, w') =>
           match handler e with
           | Some h => h w'
           | None => (Raise e, w')
           end
       end.

(** [for x in l: body x]. *)
Fixpoint for_each {A} (l : list A) (body : A → M bytes unit) : M bytes unit :=
  match l with
  | [] => ret tt
  | x :: l' => bind (body x) (λ _, for_each l' body)
  end.

End Monad.

Notation "'do' x <- m ; k" := (bind m (λ x, k))
  (at level 10, x name, m at level 100, k at level 200,
   format "'[v' 'do'  x  <-  m ; '/' k ']'").
Notation "'do_' m ; k" := (bind m (λ _, k))
  (at level 10, m at level 100, k at level 200,
   format "'[v' 'do_'  m ; '/' k ']'").

(** ** System calls *)

Section Sys.
Context {bytes : Type}.

Local Abbreviation W := (World bytes).

Definition set_fs (f : gmap key (node bytes)) (w : W) : W :=
  mkWorld f (cwd w) (sys_argv w) (stdout w) (trace w) (faults w) (tmp_names w).
Definition set_stdout (o : list string) (w : W) : W :=
  mkWorld (fs w) (cwd w) (sys_argv w) o (trace w) (faults w) (tmp_names w).
Definition set_trace (t : list (event bytes)) (w : W) : W :=
  mkWorld (fs w) (cwd w) (sys_argv w) (stdout w) t (faults w) (tmp_names w).
Definition set_faults (fl : list bool) (w : W) : W :=
  mkWorld (fs w) (cwd w) (sys_argv w) (stdout w) (trace w) fl (tmp_names w).
Definition set_tmp_names (ns : list key) (w : W) : W :=
  mkWorld (fs w) (cwd w) (sys_argv w) (stdout w) (trace w) (faults w) ns.

(** Every fallible system call first consumes one entry of the failure
    plan and fails when the entry says so. *)
Definition syscall : M bytes unit :=
  λ w, match faults w with
       | true :: fl => (Raise (OSError "system call failed"), set_faults fl w)
       | _ => (Ok tt, set_faults (tail (faults w)) w)
       end.

Definition print (line : string) : M bytes unit :=
  λ w, (Ok tt, set_stdout (stdout w ++ [line]) w).

Definition sys_exit {A} (code : Z) : M bytes A := raise (SystemExit code).

Definition Path_cwd : M bytes Path := λ w, (Ok (mkPath "/" (cwd w)), w).

(** Where the operating system finds [p]: relative paths start at the
    working directory.  Components are plain names: there are no symbolic
    links, and [".."] is not read as the parent directory, so that for a
    path with such a component ([no_parent] fails) the entry named here is
    not the one the operating system would reach. *)
Definition locate (w : W) (p : Path) : key :=
  if String.eqb (root p) "" then cwd w ++ parts p else parts p.

Definition dir_at (f : gmap key (node bytes)) (k : key) : bool :=
  match k with
  | [] => true
  | _ => match f !! k with Some Dir => true | _ => false end
  end.

(** [p.is_file()].  A regular file or a directory that is there is seen
    as what it is.  When there is no entry, the [stat] behind the call has
    failed: [is_file] answers [False] when the entry is reported missing, and
    lets through any other [OSError] (a directory that may not be searched,
    a name beyond the limits); as for every system call, the failure plan
    says which. *)
Definition is_file (p : Path) : M bytes bool :=
  λ w, match fs w !! locate w p with
       | Some (File _) => (Ok true, w)
       | Some Dir => (Ok false, w)
       | None => (do_ syscall; ret false) w
       end.

(** Walk down the components of a directory path, creating what is
    missing; [None] when a regular file is in the way. *)
Fixpoint mkdir_walk (done todo : key) (f : gmap key (node bytes))
    (made : list key) : option (gmap key (node bytes) * list key) :=
  match todo with
  | [] => Some (f, made)
  | c :: rest =>
      let k := done ++ [c] in
      match f !! k with
      | Some Dir => mkdir_walk k rest f made
      | Some (File _) => None
      | None => mkdir_walk k rest (<[k := Dir]> f) (made ++ [k])
      end
  end.

(** [p.mkdir(parents=True, exist_ok=True)] *)
Definition mkdir_p (p : Path) : M bytes unit :=
  do_ syscall;
  λ w, match mkdir_walk [] (locate w p) (fs w) [] with
       | Some (f, made) =>
           (Ok tt, set_trace (trace w ++ (EvMkdir <$> made)) (set_fs f w))
       | None => (Raise (OSError "File exists"), w)
       end.

(** Reading the whole content of the file at [p]. *)
Definition read_file (p : Path) : M bytes bytes :=
  do_ syscall;
  λ w, match fs w !! locate w p with
       | Some (File data) => (Ok data, w)
       | Some Dir => (Raise (OSError "Is a directory"), w)
       | None => (Raise (FileNotFoundError "No such file or directory"), w)
       end.

(** Creating or replacing the file at [p] with [data]. *)
Definition write_file (p : Path) (data : bytes) : M bytes unit :=
  do_ syscall;
  λ w, let k := locate w p in
       let stored :=
         (Ok tt, set_trace (trace w ++ [EvWrite k data])
                   (set_fs (<[k := File data]> (fs w)) w)) in
       match k, fs w !! k with
       | [], _ => (Raise (OSError "Is a directory"), w)
       | _, Some Dir => (Raise (OSError "Is a directory"), w)
       | _, Some (File _) => stored
       | _, None =>
           if dir_at (fs w) (removelast k) then stored
           else match fs w !! removelast k with
                | Some (File _) => (Raise (OSError "Not a directory"), w)
                | _ => (Raise (FileNotFoundError "No such file or directory"), w)
                end
       end.

(** [p.unlink(missing_ok=True)]; removing a file the process itself
    created is taken to succeed. *)
Definition unlink_missing_ok (p : Path) : M bytes unit :=
  λ w, let k := locate w p in
       match fs w !! k with
       | Some (File _) =>
           (Ok tt, set_trace (trace w ++ [EvUnlink k]) (set_fs (delete k (fs w)) w))
       | Some Dir => (Raise (OSError "Is a directory"), w)
       | None => (Ok tt, w)
       end.

(** The first candidate name that is free, and the candidates after it. *)
Fixpoint first_free (f : gmap key (node bytes)) (names : list key)
    : option (key * list key) :=
  match names with
  | [] => None
  | n :: rest =>
      match f !! n with
      | None => Some (n, rest)
      | Some _ => first_free f rest
      end
  end.

End Sys.

(** ** Configuration constants of [main.py] *)

Definition MANIFEST_SIZES : list Z := [32; 48; 72; 128; 180; 192; 256; 384; 512].
Definition MANIFEST_PREFIXES : list string := ["icon"; "maskable-icon"].

Definition CANVAS_SIZE : Z * Z := (500, 500).
Definition INNER_SIZE : Z * Z := (320, 320).

Definition MANIFEST_ICON_BASE_PATH : string := "/assets/media/img/manifest".

(** ** Pillow operations with a fixed meaning *)

(** [Image.new("RGBA", size, color)] *)
Definition Image_new (size : Z * Z) (color : RGBA) : Image :=
  mkImage size (replicate (Z.to_nat (fst size) * Z.to_nat (snd size)) color).

Section Pillow.
Context {bytes : Type} (lib : Library bytes).

Definition blend_px (mask : Z) (dst src : RGBA) : RGBA :=
  let '(r1, g1, b1, a1) := dst in
  let '(r2, g2, b2, a2) := src in
  (blend lib mask r1 r2, blend lib mask g1 g2,
   blend lib mask b1 b2, blend lib mask a1 a2).

(** [canvas.paste(im, box, mask)] with a two-component [box]: inside the
    rectangle of [im]'s size at [box], each canvas pixel is blended with
    the pixel of [im] under the alpha of the same pixel of [mask]; the rest
    of the canvas is left as it is.  Python updates [canvas] in place; the
    only caller owns the canvas, so the updated image is returned. *)
Definition paste (canvas im : Image) (box : Z * Z) (mask : Image) : Image :=
  let '(W, _) := im_size canvas in
  let '(ox, oy) := box in
  mkImage (im_size canvas)
    (imap (λ i dst,
             let x := Z.of_nat i `mod` W in
             let y := Z.of_nat i `div` W in
             match getpixel im (x - ox) (y - oy), getpixel mask (x - ox) (y - oy) with
             | Some src, Some m => blend_px (alpha m) dst src
             | _, _ => dst
             end)
          (pixels canvas)).

(** Order of [sorted] on pairs of integers. *)
Definition size_le (a b : Z * Z) : Prop :=
  (fst a < fst b ∨ (fst a = fst b ∧ snd a ≤ snd b))%Z.

Global Instance size_le_dec a b : Decision (size_le a b).
Proof. unfold size_le. apply _. Defined.

Definition ico_slot_fits (im : Image) (s : Z * Z) : bool :=
  negb ((fst (im_size im) <? fst s) || (snd (im_size im) <? snd s)
        || (256 <? fst s) || (256 <? snd s))%Z.

(** The slots Pillow's ICO writer keeps: the requested sizes are
    deduplicated and sorted, and, as Pillow documents for the [sizes]
    option, any size bigger than the image being saved or than 256 is
    ignored. *)
Definition ico_slots (im : Image) (sizes : list (Z * Z)) : list (Z * Z) :=
  List.filter (ico_slot_fits im) (merge_sort size_le (remove_dups sizes)).

(** [im.save(dest, format="ICO", sizes=sizes)]: one frame per kept slot,
    the image itself when it has the slot's size and a thumbnail of it
    otherwise. *)
Definition save_ico (im : Image) (sizes : list (Z * Z)) : bytes :=
  encode_ico lib
    ((λ s, if decide (im_size im = s) then im else thumbnail lib im s)
       <$> ico_slots im sizes).

End Pillow.

(** ** The program *)

(** File name of one icon: [f"{prefix}-{size}x{size}.png"]. *)
Definition icon_filename (prefix : string) (size : Z) : string :=
  prefix +:+ "-" +:+ Str.of_int size +:+ "x" +:+ Str.of_int size +:+ ".png".

Section Program.
Context {bytes : Type} (lib : Library bytes).

Local Abbreviation Cmd := (M bytes).

Definition resolve_source_path (filename : string) : Cmd Path :=
  do c <- Path_cwd;
  let path := c // filename in
  do found <- is_file path;
  if negb found then
    do c' <- Path_cwd;
    raise (FileNotFoundError
             ("'" +:+ filename +:+ "' not found in the current directory ("
                  +:+ PurePath.to_str c' +:+ ")."))
  else ret path.

(** A content that Pillow does not decode is reported by an [OSError]
    ([UnidentifiedImageError] is one).  A content that Pillow refuses as a
    decompression bomb raises an exception outside [exn]: what is stated
    about a run whose decoding fails is the file system it leaves, which is
    the same whatever the class of the exception. *)
Definition open_and_convert_img_to_rgb (path : Path) : Cmd Image :=
  do data <- read_file path;
  match decode_rgba lib data with
  | Some img => ret img
  | None => raise (OSError "cannot identify image file")
  end.

Definition centre_on_canvas (img : Image) (canvas_size inner_size : Z * Z) : Image :=
  let resized := resize lib img inner_size in
  let canvas := Image_new canvas_size (0, 0, 0, 0) in
  let offset :=
    ((fst canvas_size - fst inner_size) `div` 2,
     (snd canvas_size - snd inner_size) `div` 2) in
  paste lib canvas resized offset resized.

Definition save_png (img : Image) (path : Path) : Cmd unit :=
  write_file path (encode_png lib true img).

(** [generate_manifest_icons], with the two global tables it loops over
    made explicit. *)
Definition generate_manifest_icons_over (sizes : list Z) (prefixes : list string)
    (base : Image) (manifest_dir : Path) : Cmd unit :=
  do_ mkdir_p manifest_dir;
  for_each sizes (λ size,
    let resized := resize lib base (size, size) in
    for_each prefixes (λ prefix,
      save_png resized (manifest_dir // icon_filename prefix size))).

Definition generate_manifest_icons : Image → Path → Cmd unit :=
  generate_manifest_icons_over MANIFEST_SIZES MANIFEST_PREFIXES.

(** The loop of [generate_manifest_json] that fills [icons]: two appends
    per size. *)
Definition manifest_icons_over (sizes : list Z) : list json :=
  foldl (λ icons size,
           let size_str := Str.of_int size +:+ "x" +:+ Str.of_int size in
           let icons :=
             icons ++ [JDict [
               ("src", JStr (MANIFEST_ICON_BASE_PATH +:+ "/icon-" +:+ size_str +:+ ".png"));
               ("sizes", JStr size_str);
               ("type", JStr "image/png");
               ("purpose", JStr "any")]] in
           icons ++ [JDict [
             ("src", JStr (MANIFEST_ICON_BASE_PATH +:+ "/maskable-icon-" +:+ size_str +:+ ".png"));
             ("sizes", JStr size_str);
             ("type", JStr "image/png");
             ("purpose", JStr "maskable")]])
        [] sizes.

Definition manifest_over (sizes : list Z) (project_folder : string) : json :=
  JDict [
    ("name", JStr "Nom complet de l'application");
    ("short_name", JStr project_folder);
    ("description", JStr "Description de l'application.");
    ("lang", JStr "fr-FR");
    ("dir", JStr "ltr");
    ("start_url", JStr "/");
    ("scope", JStr "/");
    ("display", JStr "standalone");
    ("orientation", JStr "portrait-primary");
    ("theme_color", JStr "#ffffff");
    ("background_color", JStr "#ffffff");
    ("icons", JList (manifest_icons_over sizes));
    ("categories", JList [])].

(** Writing the document fails here as any write does.  For a project
    folder that is not text, [json.dump] raises [UnicodeEncodeError] half-way
    through the file, which is outside [exn]: statements that a run succeeds
    are made for project folders that are text. *)
Definition generate_manifest_json_over (sizes : list Z)
    (out_dir : Path) (project_folder : string) : Cmd unit :=
  let manifest := manifest_over sizes project_folder in
  let manifest_path := out_dir // "manifest.json" in
  write_file manifest_path (json_dump lib manifest).

Definition generate_manifest_json : Path → string → Cmd unit :=
  generate_manifest_json_over MANIFEST_SIZES.

Definition ico_sizes : list (Z * Z) :=
  [(32, 32); (48, 48); (64, 64); (128, 128); (256, 256)].

Definition generate_favicon (src : Image) (dest : Path) : Cmd unit :=
  let thumb := resize lib src (32, 32) in
  write_file dest (save_ico lib thumb ico_sizes).

Definition generate_logo (src : Image) (dest : Path) (size : Z) : Cmd unit :=
  save_png (resize lib src (size, size)) dest.

(** [tempfile.NamedTemporaryFile(suffix=".png", delete=False)] used as a
    context manager that only takes the name: the first free candidate
    name is created as an empty file, closed, and its path returned. *)
Definition NamedTemporaryFile : Cmd Path :=
  do_ syscall;
  λ w, match first_free (fs w) (tmp_names w) with
       | Some (n, rest) =>
           (Ok (mkPath "/" n),
            set_tmp_names rest
              (set_trace (trace w ++ [EvCreate n (no_bytes lib)])
                 (set_fs (<[n := File (no_bytes lib)]> (fs w)) w)))
       | None => (Raise (OSError "No usable temporary file name found"), w)
       end.

(** The [if center:] branch of [generate_assets]. *)
Definition centred_base (original : Image) : Cmd Image :=
  do tmp_path <- NamedTemporaryFile;
  try_finally
    (let base := centre_on_canvas original CANVAS_SIZE INNER_SIZE in
     do_ write_file tmp_path (encode_png lib false base);
     open_and_convert_img_to_rgb tmp_path)
    (unlink_missing_ok tmp_path).

(** What [generate_assets] does once [base] is chosen. *)
Definition emit_assets (out : Path) (project_folder : string)
    (original base : Image) : Cmd unit :=
  do_ generate_manifest_icons base (out // "manifest");
  do_ generate_manifest_json out project_folder;
  do_ generate_logo original (out // "logo.png") 192;
  do_ generate_favicon original (out // "favicon.ico");
  print ("Icônes et manifest.json sauvegardés dans '" +:+ PurePath.to_str out +:+ "/'.").

Definition generate_assets (source_path : Path) (project_folder : string)
    (center : bool) : Cmd unit :=
  let out := PurePath.parse project_folder in
  do_ mkdir_p out;
  do original <- open_and_convert_img_to_rgb source_path;
  do base <- (if center then centred_base original else ret original);
  emit_assets out project_folder original base.

Definition _parse_bool (value flag : string) : Cmd bool :=
  let normalised := Str.lower (Str.strip value) in
  do_ (if negb (bool_decide (normalised ∈ ["true"; "false"])) then
         do_ print ("Error: '" +:+ flag +:+ "' must be 'true' or 'false', got '"
                            +:+ value +:+ "'.");
         sys_exit 1
       else ret tt);
  ret (bool_decide (normalised = "true")).

Definition usage : string :=
  "Utilisation: python main.py <nom_image> <nom_du_projet> [centrer sur le canvas]"
    +:+ Str.nl +:+
  "  - Si vous mettez 'false', l'image sera utilisée telle quelle, sans centrage ni redimensionnement.".

(** [(argv or sys.argv)[1:]] *)
Definition arguments (argv : option (list string)) (w : World bytes) : list string :=
  drop 1 (match argv with
          | Some (a :: l) => a :: l
          | _ => sys_argv w
          end).

Definition main (argv : option (list string)) : Cmd unit :=
  do args <- (λ w, (Ok (arguments argv w), w));
  do_ (if negb ((2 <=? length args)%nat && (length args <=? 3)%nat) then
         do_ print usage;
         sys_exit 1
       else ret tt);
  match args with
  | filename :: project_folder :: rest =>
      do center <- (match rest with
                    | [flag_value] => _parse_bool flag_value "center"
                    | _ => ret true
                    end);
      try_except
        (do source_path <- resolve_source_path filename;
         generate_assets source_path project_folder center)
        (λ exc,
           match exc with
           | FileNotFoundError msg =>
               Some (do_ print ("File error: " +:+ msg); sys_exit 1)
           | OSError msg =>
               Some (do_ print ("I/O error: " +:+ msg); sys_exit 1)
           | SystemExit _ => None
           end)
  | _ => ret tt
  end.

End Program.

(** ** Reading runs

    Vocabulary for the statements below: what a list of events does to a
    file system, the events the icon emitter is expected to leave, and
    accessors for the manifest document. *)

Section Effects.
Context {bytes : Type}.

Definition apply_event (f : gmap key (node bytes)) (e : event bytes)
    : gmap key (node bytes) :=
  match e with
  | EvMkdir k => <[k := Dir]> f
  | EvCreate k data => <[k := File data]> f
  | EvWrite k data => <[k := File data]> f
  | EvUnlink k => delete k f
  end.

Definition replay (evs : list (event bytes)) (f : gmap key (node bytes))
    : gmap key (node bytes) :=
  foldl apply_event f evs.

(** [w'] is [w] after the events [evs] and the printed lines [out]; the
    failure plan has only been consumed. *)
Definition effect (w w' : World bytes) (evs : list (event bytes))
    (out : list string) : Prop :=
  cwd w' = cwd w ∧ trace w' = trace w ++ evs
  ∧ fs w' = replay evs (fs w) ∧ stdout w' = stdout w ++ out
  ∧ faults w' `suffix_of` faults w.

(** The directories [mkdir_walk done todo] visits. *)
Fixpoint walk_keys (done todo : key) : list key :=
  match todo with
  | [] => []
  | c :: rest => (done ++ [c]) :: walk_keys (done ++ [c]) rest
  end.

(** No regular file stands where a directory of the path [k] is needed. *)
Definition dir_free (f : gmap key (node bytes)) (k : key) : Prop :=
  ∀ k', k' ∈ walk_keys [] k → ∀ data, f !! k' ≠ Some (File data).

(** No failure is planned. *)
Definition calm (w : World bytes) : Prop := true ∉ faults w.

(** A file can be stored at [k]: [k] is not a directory, and is an
    existing file or lies directly in an existing directory. *)
Definition writable (f : gmap key (node bytes)) (k : key) : bool :=
  match k, f !! k with
  | [], _ => false
  | _, Some Dir => false
  | _, Some (File _) => true
  | _, None => dir_at f (removelast k)
  end.

(** The source path names no regular file. *)
Definition missing (w : World bytes) (filename : string) : Prop :=
  ∀ data, fs w !! locate w (mkPath "/" (cwd w) // filename) ≠ Some (File data).

(** The text of the [FileNotFoundError] raised by [resolve_source_path]. *)
Definition not_found_message (w : World bytes) (filename : string) : string :=
  "'" +:+ filename +:+ "' not found in the current directory ("
      +:+ PurePath.to_str (mkPath "/" (cwd w)) +:+ ").".

End Effects.

(** The line [_parse_bool] prints for a bad value of the [center] flag. *)
Definition flag_message (value : string) : string :=
  "Error: 'center' must be 'true' or 'false', got '" +:+ value +:+ "'.".

(** The size string of the manifest, [f"{size}x{size}"]. *)
Definition size_str (size : Z) : string :=
  Str.of_int size +:+ "x" +:+ Str.of_int size.

(** The icons of a run: one per size and prefix, in the order of the two
    loops of [generate_manifest_icons]. *)
Definition icon_variants : list (Z * string) :=
  size ← MANIFEST_SIZES; prefix ← MANIFEST_PREFIXES; [(size, prefix)].

(** The purpose the manifest gives to the icons of a prefix. *)
Definition purpose_of (prefix : string) : string :=
  if String.eqb prefix "icon" then "any" else "maskable".

Section Reading.
Context {bytes : Type} (lib : Library bytes).

(** The writes of one size: one PNG per prefix. *)
Definition prefix_writes (prefixes : list string) (resized : Image)
    (manifest_dir : Path) (size : Z) (w : World bytes) : list (event bytes) :=
  prefix ← prefixes;
  [EvWrite (locate w (manifest_dir // icon_filename prefix size))
           (encode_png lib true resized)].

(** One PNG per size and prefix, sizes outermost. *)
Definition icon_writes (sizes : list Z) (prefixes : list string)
    (base : Image) (manifest_dir : Path) (w : World bytes) : list (event bytes) :=
  size ← sizes;
  prefix_writes prefixes (resize lib base (size, size)) manifest_dir size w.

(** How [generate_assets] picks [base] from the decoded [original]. *)
Definition chosen_base (center : bool) (original base : Image) : Prop :=
  if center then
    decode_rgba lib
      (encode_png lib false (centre_on_canvas lib original CANVAS_SIZE INNER_SIZE))
    = Some base
  else base = original.

(** The events of the scratch file with name [n] for [original]. *)
Definition scratch_events (original : Image) (n : key) : list (event bytes) :=
  [EvCreate n (no_bytes lib);
   EvWrite n (encode_png lib false (centre_on_canvas lib original CANVAS_SIZE INNER_SIZE));
   EvUnlink n].

(** The line printed at the end of a successful run. *)
Definition confirmation (project_folder : string) : string :=
  "Icônes et manifest.json sauvegardés dans '"
    +:+ PurePath.to_str (PurePath.parse project_folder) +:+ "/'.".

(** The image stored at [p], as [open_and_convert_img_to_rgb] would
    return it. *)
Definition image_at (w : World bytes) (p : Path) : option Image :=
  match fs w !! locate w p with
  | Some (File data) => decode_rgba lib data
  | _ => None
  end.

(** The files a run produces, relative to the output directory. *)
Definition relative_outputs : list key :=
  (size ← MANIFEST_SIZES;
   prefix ← MANIFEST_PREFIXES;
   [["manifest"; icon_filename prefix size]])
  ++ [["manifest.json"]; ["logo.png"]; ["favicon.ico"]].

Definition output_files (out : key) : list key := (λ r, out ++ r) <$> relative_outputs.

(** The output directory [out] and its [manifest] subdirectory exist and
    no directory sits where a file is to be written. *)
Definition prepared (out : key) (f : gmap key (node bytes)) : Prop :=
  dir_at f out = true ∧ dir_at f (out ++ ["manifest"]) = true
  ∧ ∀ k, k ∈ output_files out → f !! k ≠ Some Dir.

(** A world in which a run of [generate_assets] meets no obstacle: no
    planned failure, a decodable source image, no regular file where a
    directory is needed, no directory where a file is to be written and,
    when centring, a usable temporary name. *)
Definition ready (w : World bytes) (source_path : Path) (project_folder : string)
    (center : bool) : Prop :=
  let out := locate w (PurePath.parse project_folder) in
  calm w
  ∧ is_Some (image_at w source_path)
  ∧ dir_free (fs w) (out ++ ["manifest"])
  ∧ (∀ k, k ∈ output_files out → fs w !! k ≠ Some Dir)
  ∧ (center = true →
     ([] ∉ tmp_names w)
     ∧ ∃ n, n ∈ tmp_names w ∧ fs w !! n = None ∧ n ∉ walk_keys [] out).

(** The three writes that follow the icons. *)
Definition tail_writes (out : Path) (project_folder : string)
    (original : Image) (w : World bytes) : list (event bytes) :=
  [EvWrite (locate w (out // "manifest.json"))
           (json_dump lib (manifest_over MANIFEST_SIZES project_folder));
   EvWrite (locate w (out // "logo.png"))
           (encode_png lib true (resize lib original (192, 192)));
   EvWrite (locate w (out // "favicon.ico"))
           (save_ico lib (resize lib original (32, 32)) ico_sizes)].

End Reading.

(** A string that [pathlib] reads as a single relative component. *)
Definition simple_name (s : string) : Prop := PurePath.parse s = mkPath "" [s].

(** [doc[k]] for a JSON object. *)
Definition jget (k : string) (doc : json) : option json :=
  match doc with
  | JDict items => snd <$> List.find (λ kv, String.eqb (fst kv) k) items
  | _ => None
  end.

(** An icon entry as the manifest schema describes it: the deployment base
    path followed by the icon's file name, the size string, the MIME type and
    the purpose. *)
Definition icon_entry (prefix purpose : string) (size : Z) : json :=
  JDict [
    ("src", JStr ("/assets/media/img/manifest/" +:+ icon_filename prefix size));
    ("sizes", JStr (Str.of_int size +:+ "x" +:+ Str.of_int size));
    ("type", JStr "image/png");
    ("purpose", JStr purpose)].

(** The two entries the manifest is expected to hold for one size. *)
Definition entries_of (size : Z) : list json :=
  [icon_entry "icon" "any" size; icon_entry "maskable-icon" "maskable" size].

(** ** Assumptions on the collaborators, named *)

Section Laws.
Context {bytes : Type} (lib : Library bytes).

(** A resize returns an image of the requested size, with one pixel per
    position. *)
Definition resize_exact : Prop :=
  ∀ im sz,
    im_size (resize lib im sz) = sz
    ∧ length (pixels (resize lib im sz)) = (Z.to_nat (fst sz) * Z.to_nat (snd sz))%nat.

(** Pillow's mask convention: 255 copies the source, 0 keeps the
    destination. *)
Definition blend_extremes : Prop :=
  ∀ d s, blend lib 255 d s = s ∧ blend lib 0 d s = d.

(** [lib'] differs from the library at most in how [paste] blends pixels. *)
Definition same_but_blend (lib' : Library bytes) : Prop :=
  no_bytes lib' = no_bytes lib ∧ decode_rgba lib' = decode_rgba lib
  ∧ resize lib' = resize lib ∧ encode_png lib' = encode_png lib
  ∧ thumbnail lib' = thumbnail lib ∧ encode_ico lib' = encode_ico lib
  ∧ json_dump lib' = json_dump lib.

(** PNG is lossless: decoding what was encoded gives the image back. *)
Definition png_lossless : Prop :=
  ∀ optimize im, decode_rgba lib (encode_png lib optimize im) = Some im.

End Laws.

(** ** A reference library and world

    A small executable instance of the collaborators (nearest-neighbour
    resampling, integer blending, codecs that keep the image as it is),
    used to run the program on concrete inputs. *)

Module Reference.

Inductive blob :=
| Blank
| Png (optimize : bool) (im : Image)
| Ico (frames : list Image)
| Json (doc : json)
| Other (s : string).

Definition sample (im : Image) (sz : Z * Z) (x y : Z) : RGBA :=
  let '(w, h) := sz in
  let '(sw, sh) := im_size im in
  default (0, 0, 0, 0) (getpixel im (x * sw `div` w) (y * sh `div` h)).

Definition nearest (im : Image) (sz : Z * Z) : Image :=
  mkImage sz
    (y ← seqZ 0 (snd sz); (λ x, sample im sz x y) <$> seqZ 0 (fst sz)).

Definition library : Library blob :=
  mkLibrary Blank
    (λ b, match b with Png _ im => Some im | _ => None end)
    nearest
    (λ m d s, (d * (255 - m) + s * m) `div` 255)
    Png
    nearest
    Ico
    Json.

(** A 2x2 source picture: two opaque pixels, one half-transparent, one
    fully transparent. *)
Definition picture : Image :=
  mkImage (2, 2) [(255, 0, 0, 255); (0, 255, 0, 255); (0, 0, 255, 128); (9, 9, 9, 0)].

(** A project directory [/home/dev] holding [logo.png]. *)
Definition world : World blob :=
  mkWorld
    (<[ ["home"; "dev"; "logo.png"] := File (Png false picture) ]>
       (<[ ["home"; "dev"] := Dir ]> (<[ ["home"] := Dir ]> (<[ ["tmp"] := Dir ]> ∅))))
    ["home"; "dev"]
    ["main.py"]
    []
    []
    []
    [["tmp"; "tmpq3x8k2vd.png"]; ["tmp"; "tmpz0a1b2c3.png"]].

(** [logo.png], resolved from the working directory. *)
Definition source : Path := mkPath "/" ["home"; "dev"] // "logo.png".

(** The same library with a [paste] that blanks what it touches. *)
Definition blanking : Library blob :=
  mkLibrary Blank
    (λ b, match b with Png _ im => Some im | _ => None end)
    nearest
    (λ _ _ _, 0)
    Png
    nearest
    Ico
    Json.

End Reference.

(** ** Further scenarios *)

Module Scenario.

(** The reference world with a text file beside the picture. *)
Definition with_notes : World Reference.blob :=
  set_fs (<[ ["home"; "dev"; "notes.txt"] := File (Reference.Other "to do") ]>
            (fs Reference.world))
         Reference.world.



(** The reference world in which the third fallible system call fails. *)
Definition third_call_fails : World Reference.blob :=
  set_faults [false; false; true] Reference.world.

End Scenario.

(** ** Vocabulary for whole runs, whatever their outcome *)

(** The exceptions the system calls and Pillow raise: everything but
    [SystemExit]. *)
Definition os_error (e : exn) : Prop :=
  match e with
  | SystemExit _ => False
  | _ => True
  end.

Section Confinement.
Context {bytes : Type} (lib : Library bytes).

(** A command started in the working directory [c0] is confined to the
    keys [K]: whatever its outcome, it prints nothing, stays in [c0], raises
    only operating-system errors, leaves every entry outside [K] as it was
    and removes no entry. *)
Definition confined (c0 : key) (K : key → Prop) {A : Type} (c : M bytes A) : Prop :=
  ∀ w r w',
    cwd w = c0 → c w = (r, w') →
    cwd w' = c0 ∧ stdout w' = stdout w
    ∧ (∀ e, r = Raise e → os_error e)
    ∧ (∀ k, ¬ K k → fs w' !! k = fs w !! k)
    ∧ (∀ k, is_Some (fs w !! k) → is_Some (fs w' !! k)).

(** A command that raises only operating-system errors. *)
Definition tame {A : Type} (c : M bytes A) : Prop :=
  ∀ w e w', c w = (Raise e, w') → os_error e.

(** Like [confined], but a normal end prints the one line [line]. *)
Definition reporting (c0 : key) (K : key → Prop) (line : string)
    (c : M bytes unit) : Prop :=
  ∀ w r w',
    cwd w = c0 → c w = (r, w') →
    cwd w' = c0
    ∧ ((r = Ok tt ∧ stdout w' = stdout w ++ [line])
       ∨ (∃ e, r = Raise e ∧ os_error e ∧ stdout w' = stdout w))
    ∧ (∀ k, ¬ K k → fs w' !! k = fs w !! k)
    ∧ (∀ k, is_Some (fs w !! k) → is_Some (fs w' !! k)).

(** The keys a run into the output directory [out] may touch: the
    directories down to [out/manifest] and the files it produces. *)
Definition reach (out : key) (k : key) : Prop :=
  k ∈ walk_keys [] (out ++ ["manifest"]) ∨ k ∈ output_files out.

(** What a run stores, relative to the output directory, in the order it
    is written. *)
Definition produced (project_folder : string) (original base : Image)
    : list (key * bytes) :=
  (size ← MANIFEST_SIZES;
   prefix ← MANIFEST_PREFIXES;
   [(["manifest"; icon_filename prefix size],
     encode_png lib true (resize lib base (size, size)))])
  ++ [(["manifest.json"], json_dump lib (manifest_over MANIFEST_SIZES project_folder));
      (["logo.png"], encode_png lib true (resize lib original (192, 192)));
      (["favicon.ico"], save_ico lib (resize lib original (32, 32)) ico_sizes)].

(** Writing the pairs of [l] below [out]. *)
Definition writes_below (out : key) (l : list (key * bytes)) : list (event bytes) :=
  (λ kd, EvWrite (out ++ fst kd) (snd kd)) <$> l.

(** What a command did when it is expected to leave the events [evs]:
    all of them on a normal end, a strictly shorter initial part when it
    raised. *)
Definition partial_run (w : World bytes) (r : result unit) (w' : World bytes)
    (evs : list (event bytes)) : Prop :=
  ∃ done,
    done `prefix_of` evs ∧ effect w w' done []
    ∧ match r with
      | Ok _ => done = evs
      | Raise e => os_error e ∧ (length done < length evs)%nat
      end.

(** A command that never removes or replaces a directory. *)
Definition keeps_dirs {A : Type} (c : M bytes A) : Prop :=
  ∀ w r w', c w = (r, w') → ∀ k, fs w !! k = Some Dir → fs w' !! k = Some Dir.

End Confinement.

(** * Properties *)

(** ** The definitions at work *)

Example icon_filename_32 : icon_filename "maskable-icon" 32 = "maskable-icon-32x32.png".
Proof. reflexivity. Qed.

Example strip_lower_padded : Str.lower (Str.strip "  TrUe ") = "true".
Proof. reflexivity. Qed.

Example strip_keeps_inner_space : Str.strip " tr ue " = "tr ue".
Proof. reflexivity. Qed.

Example text_is_utf8_without_nul :
  Str.text "Icônes" = true
  ∧ Str.text (String (Str.chr 255) "") = false
  ∧ Str.text (String (Str.chr 237) (String (Str.chr 160) (String (Str.chr 128) ""))) = false
  ∧ Str.text (String (Str.chr 0) "") = false.
Proof. by repeat split. Qed.

Example ordinary_names :
  ordinary_folder "myapp" = true
  ∧ ordinary_folder "sub/.." = false
  ∧ ordinary_source (mkPath "/" ["home"; "dev"] // "sub/../logo.png") = false
  ∧ ordinary_source (mkPath "/" ["home"; "dev"] // "logo.png") = true.
Proof. by repeat split. Qed.

Example parse_collapses :
  PurePath.parse "a//b/./c/" = mkPath "" ["a"; "b"; "c"]
  ∧ PurePath.parse "/srv/www" = mkPath "/" ["srv"; "www"]
  ∧ PurePath.to_str (PurePath.parse "") = ".".
Proof. by repeat split. Qed.

Example join_absolute_wins :
  mkPath "/" ["home"; "dev"] // "/etc/x.png" = mkPath "/" ["etc"; "x.png"]
  ∧ mkPath "/" ["home"; "dev"] // "img/x.png" = mkPath "/" ["home"; "dev"; "img"; "x.png"].
Proof. by split. Qed.

Example offset_of_configuration :
  ((fst CANVAS_SIZE - fst INNER_SIZE) `div` 2, (snd CANVAS_SIZE - snd INNER_SIZE) `div` 2)
  = (90, 90).
Proof. reflexivity. Qed.

Example wrong_argument_count :
  main Reference.library (Some ["main.py"; "logo.png"]) Reference.world
  = (Raise (SystemExit 1), set_stdout [usage] Reference.world).
Proof. by vm_compute. Qed.

Example run_without_centring :
  let run := main Reference.library (Some ["main.py"; "logo.png"; "myapp"; "false"])
               Reference.world in
  fst run = Ok tt
  ∧ stdout (snd run) = ["Icônes et manifest.json sauvegardés dans 'myapp/'."]
  ∧ length (trace (snd run)) = 23%nat.
Proof. by vm_compute. Qed.

(** ** Strings *)

Lemma append_assoc (s1 s2 s3 : string) : (s1 +:+ s2) +:+ s3 = s1 +:+ s2 +:+ s3.
Proof.
  induction s1 as [|c s1 IH]; [done|].
  change (String c ((s1 +:+ s2) +:+ s3) = String c (s1 +:+ s2 +:+ s3)).
  by rewrite IH.
Qed.

(** ** The manifest's icon list *)

Section Manifest.

Lemma manifest_icons_over_acc (sizes : list Z) (acc : list json) :
  foldl (λ icons size,
           let size_str := Str.of_int size +:+ "x" +:+ Str.of_int size in
           let icons :=
             icons ++ [JDict [
               ("src", JStr (MANIFEST_ICON_BASE_PATH +:+ "/icon-" +:+ size_str +:+ ".png"));
               ("sizes", JStr size_str);
               ("type", JStr "image/png");
               ("purpose", JStr "any")]] in
           icons ++ [JDict [
             ("src", JStr (MANIFEST_ICON_BASE_PATH +:+ "/maskable-icon-" +:+ size_str +:+ ".png"));
             ("sizes", JStr size_str);
             ("type", JStr "image/png");
             ("purpose", JStr "maskable")]])
        acc sizes
  = acc ++ (sizes ≫= entries_of).
Proof.
  revert acc. induction sizes as [|s sizes IH]; intros acc; simpl.
  - by rewrite app_nil_r.
  - rewrite IH. rewrite <- !app_assoc. simpl.
    unfold icon_entry, icon_filename. rewrite !append_assoc. reflexivity.
Qed.

Lemma manifest_icons_over_flat (sizes : list Z) :
  manifest_icons_over sizes = sizes ≫= entries_of.
Proof. unfold manifest_icons_over. by rewrite manifest_icons_over_acc. Qed.

Lemma manifest_icons_over_length (sizes : list Z) :
  length (manifest_icons_over sizes) = (2 * length sizes)%nat.
Proof.
  rewrite manifest_icons_over_flat.
  induction sizes as [|s sizes IH]; [done|].
  rewrite bind_cons, length_app, IH. simpl. lia.
Qed.

Lemma manifest_icons_over_lookup (sizes : list Z) (i : nat) (s : Z) :
  sizes !! i = Some s →
  manifest_icons_over sizes !! (2 * i)%nat = Some (icon_entry "icon" "any" s)
  ∧ manifest_icons_over sizes !! (2 * i + 1)%nat
    = Some (icon_entry "maskable-icon" "maskable" s).
Proof.
  rewrite manifest_icons_over_flat. revert i.
  induction sizes as [|s' sizes IH]; intros i Hi; [done|].
  rewrite bind_cons. destruct i as [|i]; simpl in Hi.
  - by simplify_eq.
  - replace (2 * S i)%nat with (S (S (2 * i))) by lia.
    replace (S (S (2 * i)) + 1)%nat with (S (S (2 * i + 1))) by lia.
    simpl. by apply IH.
Qed.

Lemma jget_icons (sizes : list Z) (project_folder : string) :
  jget "icons" (manifest_over sizes project_folder)
  = Some (JList (manifest_icons_over sizes)).
Proof. reflexivity. Qed.

Lemma jget_short_name (sizes : list Z) (project_folder : string) :
  jget "short_name" (manifest_over sizes project_folder) = Some (JStr project_folder).
Proof. reflexivity. Qed.

End Manifest.

(** ** Pixels of the centred canvas *)

Section Canvas.
Context {bytes : Type} (lib : Library bytes).

Lemma inside_true (x y w h : Z) :
  0 ≤ x < w → 0 ≤ y < h →
  ((0 <=? x) && (x <? w) && (0 <=? y) && (y <? h))%Z = true.
Proof. intros. repeat (apply andb_true_intro; split); lia. Qed.

Lemma inside_false (x y w h : Z) :
  ¬ (0 ≤ x < w ∧ 0 ≤ y < h) →
  ((0 <=? x) && (x <? w) && (0 <=? y) && (y <? h))%Z = false.
Proof.
  intros Hout. apply not_true_is_false. intros E. apply Hout.
  repeat (apply andb_prop in E as [E ?]). lia.
Qed.

Lemma getpixel_inside (im : Image) (x y W H : Z) :
  im_size im = (W, H) → 0 ≤ x < W → 0 ≤ y < H →
  getpixel im x y = pixels im !! Z.to_nat (y * W + x).
Proof. intros Hsz Hx Hy. unfold getpixel. rewrite Hsz. by rewrite inside_true. Qed.

Lemma paste_size (canvas im mask : Image) (box : Z * Z) :
  im_size (paste lib canvas im box mask) = im_size canvas.
Proof. unfold paste. by destruct (im_size canvas), box. Qed.

Lemma getpixel_Some_lt (im : Image) (x y : Z) :
  length (pixels im)
    = (Z.to_nat (fst (im_size im)) * Z.to_nat (snd (im_size im)))%nat →
  0 ≤ x < fst (im_size im) → 0 ≤ y < snd (im_size im) →
  is_Some (getpixel im x y).
Proof.
  unfold getpixel. destruct (im_size im) as [w h]; simpl. intros Hlen Hx Hy.
  rewrite inside_true by lia.
  apply lookup_lt_is_Some. rewrite Hlen. nia.
Qed.

Lemma getpixel_out_of_range (im : Image) (x y : Z) :
  ¬ (0 ≤ x < fst (im_size im) ∧ 0 ≤ y < snd (im_size im)) →
  getpixel im x y = None.
Proof.
  unfold getpixel. destruct (im_size im) as [w h]; simpl. intros Hout.
  by rewrite inside_false.
Qed.

Lemma getpixel_new (w h : Z) (c : RGBA) (x y : Z) :
  0 ≤ x < w → 0 ≤ y < h → getpixel (Image_new (w, h) c) x y = Some c.
Proof.
  intros Hx Hy. unfold getpixel, Image_new; simpl.
  rewrite inside_true by lia.
  apply lookup_replicate_2. nia.
Qed.

(** Inside the canvas, [paste] changes exactly the pixels that lie under
    the pasted image. *)
Lemma getpixel_paste (canvas im mask : Image) (ox oy x y : Z) :
  0 ≤ x < fst (im_size canvas) → 0 ≤ y < snd (im_size canvas) →
  getpixel (paste lib canvas im (ox, oy) mask) x y
  = (λ dst, match getpixel im (x - ox) (y - oy), getpixel mask (x - ox) (y - oy) with
            | Some src, Some m => blend_px lib (alpha m) dst src
            | _, _ => dst
            end) <$> getpixel canvas x y.
Proof.
  intros Hx Hy. destruct (im_size canvas) as [W H] eqn:EW; simpl in *.
  rewrite (getpixel_inside (paste lib canvas im (ox, oy) mask) x y W H)
    by (by rewrite ?paste_size).
  rewrite (getpixel_inside canvas x y W H) by done.
  unfold paste. rewrite EW. simpl. rewrite list_lookup_imap.
  rewrite Z2Nat.id by nia.
  replace ((y * W + x) `mod` W) with x
    by (rewrite Z.add_comm, Z.mod_add by lia; symmetry; apply Z.mod_small; lia).
  replace ((y * W + x) `div` W) with y
    by (rewrite Z.add_comm, Z.div_add by lia; rewrite Z.div_small by lia; lia).
  done.
Qed.

(** The canvas compositor for any canvas and inner size. *)
Lemma centre_on_canvas_spec (img : Image) (cw ch iw ih : Z) :
  resize_exact lib →
  let out := centre_on_canvas lib img (cw, ch) (iw, ih) in
  let ox := (cw - iw) `div` 2 in
  let oy := (ch - ih) `div` 2 in
  im_size out = (cw, ch)
  ∧ ∀ x y, 0 ≤ x < cw → 0 ≤ y < ch →
      if bool_decide (ox ≤ x < ox + iw ∧ oy ≤ y < oy + ih) then
        ∃ src, getpixel (resize lib img (iw, ih)) (x - ox) (y - oy) = Some src
               ∧ getpixel out x y = Some (blend_px lib (alpha src) (0, 0, 0, 0) src)
      else getpixel out x y = Some (0, 0, 0, 0).
Proof.
  intros Hres out ox oy. destruct (Hres img (iw, ih)) as [Hsz Hlen]. simpl in Hlen.
  split; [done|]. intros x y Hx Hy. subst out. unfold centre_on_canvas. simpl.
  fold ox oy. rewrite getpixel_paste by (simpl; lia).
  rewrite getpixel_new by lia. simpl.
  case_bool_decide as Hin.
  - destruct (getpixel_Some_lt (resize lib img (iw, ih)) (x - ox) (y - oy))
      as [src Hsrc]; [rewrite Hsz; simpl; done | rewrite Hsz; simpl; lia..|].
    exists src. by rewrite Hsrc.
  - rewrite getpixel_out_of_range; [done|]. rewrite Hsz. simpl. lia.
Qed.

Lemma blend_px_opaque (dst src : RGBA) :
  blend_extremes lib → blend_px lib 255 dst src = src.
Proof.
  intros Hb. destruct dst as [[[r1 g1] b1] a1], src as [[[r2 g2] b2] a2]. simpl.
  by rewrite !(proj1 (Hb _ _)).
Qed.

Lemma blend_px_clear (dst src : RGBA) :
  blend_extremes lib → blend_px lib 0 dst src = dst.
Proof.
  intros Hb. destruct dst as [[[r1 g1] b1] a1], src as [[[r2 g2] b2] a2]. simpl.
  by rewrite !(proj2 (Hb _ _)).
Qed.

(** The slots the ICO writer keeps for a 32x32 image. *)
Lemma ico_slots_32 (im : Image) :
  im_size im = (32, 32) → ico_slots im ico_sizes = [(32, 32)].
Proof.
  intros Hsz. unfold ico_slots.
  replace (merge_sort size_le (remove_dups ico_sizes)) with ico_sizes
    by (by vm_compute).
  unfold ico_sizes, ico_slot_fits. rewrite Hsz. reflexivity.
Qed.

Lemma save_ico_32 (im : Image) :
  im_size im = (32, 32) → save_ico lib im ico_sizes = encode_ico lib [im].
Proof.
  intros Hsz. unfold save_ico. rewrite ico_slots_32 by done. simpl.
  by rewrite decide_True.
Qed.

End Canvas.

(** ** Runs of the system calls *)

Section Runs.
Context {bytes : Type} (lib : Library bytes).

Local Abbreviation W := (World bytes).

Lemma bind_Ok {A B} (m : M bytes A) (k : A → M bytes B) (w w' : W) (b : B) :
  bind m k w = (Ok b, w') → ∃ a w1, m w = (Ok a, w1) ∧ k a w1 = (Ok b, w').
Proof.
  unfold bind. destruct (m w) as [[a|e] w1]; intros H; [eauto | discriminate].
Qed.

Lemma bind_run {A B} (m : M bytes A) (k : A → M bytes B) (w w1 : W) (a : A) :
  m w = (Ok a, w1) → bind m k w = k a w1.
Proof. unfold bind. by intros ->. Qed.

Lemma replay_app (e1 e2 : list (event bytes)) (f : gmap key (node bytes)) :
  replay (e1 ++ e2) f = replay e2 (replay e1 f).
Proof. apply foldl_app. Qed.

Lemma effect_refl (w : W) : effect w w [] [].
Proof. unfold effect. by rewrite !app_nil_r. Qed.

Lemma effect_trans (w w1 w2 : W) e1 e2 o1 o2 :
  effect w w1 e1 o1 → effect w1 w2 e2 o2 → effect w w2 (e1 ++ e2) (o1 ++ o2).
Proof.
  intros (Hc1 & Ht1 & Hf1 & Ho1 & Hs1) (Hc2 & Ht2 & Hf2 & Ho2 & Hs2).
  unfold effect. rewrite Hc2, Hc1, Ht2, Ht1, Hf2, Hf1, Ho2, Ho1, replay_app, !app_assoc.
  repeat split; try done. by etrans.
Qed.

Lemma effect_calm (w w' : W) evs out : effect w w' evs out → calm w → calm w'.
Proof.
  intros (_ & _ & _ & _ & [l Hs]) Hc Hin. apply Hc. rewrite Hs.
  apply elem_of_app. by right.
Qed.

Lemma effect_locate (w w' : W) evs out (p : Path) :
  effect w w' evs out → locate w' p = locate w p.
Proof. intros (Hc & _). unfold locate. by rewrite Hc. Qed.

Lemma syscall_Ok (w w' : W) :
  syscall w = (Ok tt, w') → w' = set_faults (tail (faults w)) w.
Proof.
  unfold syscall. destruct (faults w) as [|[] fl]; intros H; by simplify_eq.
Qed.

Lemma syscall_any (w w' : W) r :
  syscall w = (r, w') → ∃ fl, w' = set_faults fl w ∧ fl `suffix_of` faults w.
Proof.
  unfold syscall. destruct (faults w) as [|[] fl] eqn:E; intros [= <- <-].
  - by exists [].
  - exists fl. split; [done|]. by exists [true].
  - exists fl. split; [done|]. by exists [false].
Qed.

Lemma syscall_calm (w : W) :
  calm w → syscall w = (Ok tt, set_faults (tail (faults w)) w).
Proof.
  unfold calm, syscall. destruct (faults w) as [|[] fl]; intros H; try done.
  destruct H. by left.
Qed.

Lemma tail_suffix {A} (l : list A) : tail l `suffix_of` l.
Proof. destruct l as [|x l]; [done | by exists [x]]. Qed.

Lemma effect_set_faults (w : W) fl :
  fl `suffix_of` faults w → effect w (set_faults fl w) [] [].
Proof. intros Hs. unfold effect. simpl. by rewrite !app_nil_r. Qed.

(** *** Writing a file *)

Ltac effect_now :=
  unfold effect; simpl; rewrite ?app_nil_r;
  repeat split; try done; try apply tail_suffix.

Lemma locate_set_faults (w : W) fl (p : Path) :
  locate (set_faults fl w) p = locate w p.
Proof. reflexivity. Qed.

Lemma write_file_Ok (p : Path) (data : bytes) (w w' : W) :
  write_file p data w = (Ok tt, w') →
  effect w w' [EvWrite (locate w p) data] []
  ∧ writable (fs w) (locate w p) = true ∧ tmp_names w' = tmp_names w.
Proof.
  unfold write_file. intros H. apply bind_Ok in H as ([] & w1 & Hs & H).
  apply syscall_Ok in Hs as ->. revert H. cbv zeta.
  rewrite !locate_set_faults. unfold writable. simpl.
  destruct (locate w p) as [|c k]; [done|].
  destruct (fs w !! (c :: k)) as [[d|]|] eqn:Ef; [| done |].
  - intros H. simplify_eq. effect_now.
  - destruct (dir_at (fs w) (removelast (c :: k))) eqn:Ed.
    + intros H. simplify_eq. effect_now.
    + by destruct (fs w !! removelast (c :: k)) as [[|]|].
Qed.

Lemma write_file_calm (p : Path) (data : bytes) (w : W) :
  calm w → writable (fs w) (locate w p) = true →
  ∃ w', write_file p data w = (Ok tt, w').
Proof.
  intros Hc Hw. unfold write_file. rewrite (bind_run _ _ _ _ _ (syscall_calm w Hc)).
  revert Hw. cbv zeta. rewrite !locate_set_faults. unfold writable. simpl.
  destruct (locate w p) as [|c k]; [done|].
  destruct (fs w !! (c :: k)) as [[d|]|] eqn:Ef; [eauto | done |].
  intros ->. eauto.
Qed.

(** *** Creating directories *)

Lemma walk_keys_extend (d t k : key) :
  k ∈ walk_keys d t → ∃ t1, t1 ≠ [] ∧ k = d ++ t1 ∧ t1 `prefix_of` t.
Proof.
  revert d. induction t as [|c t IH]; intros d Hk; simpl in Hk.
  - by apply elem_of_nil in Hk.
  - apply elem_of_cons in Hk as [->|Hk].
    + exists [c]. split; [done|]. split; [done|]. by exists t.
    + apply IH in Hk as (t1 & Hne & -> & Hp). exists (c :: t1).
      split; [done|]. split; [by rewrite <- app_assoc|]. by apply prefix_cons.
Qed.

Lemma walk_keys_not_start (d t : key) : d ∉ walk_keys d t.
Proof.
  intros Hk. apply walk_keys_extend in Hk as (t1 & Hne & Heq & _).
  apply (f_equal length) in Heq. rewrite length_app in Heq.
  destruct t1; [done | simpl in Heq; lia].
Qed.

Lemma walk_keys_app (d t1 t2 : key) :
  walk_keys d (t1 ++ t2) = walk_keys d t1 ++ walk_keys (d ++ t1) t2.
Proof.
  revert d. induction t1 as [|c t1 IH]; intros d; simpl.
  - by rewrite app_nil_r.
  - rewrite IH. by rewrite <- app_assoc.
Qed.

Lemma walk_keys_last (d t : key) : t ≠ [] → d ++ t ∈ walk_keys d t.
Proof.
  revert d. induction t as [|c t IH]; intros d Hne; [done|]. simpl.
  destruct t as [|c' t].
  - apply elem_of_cons. by left.
  - apply elem_of_cons. right.
    replace (d ++ c :: c' :: t) with ((d ++ [c]) ++ c' :: t) by (by rewrite <- app_assoc).
    by apply IH.
Qed.

Lemma mkdir_walk_Some (d t : key) (f f' : gmap key (node bytes)) (made made' : list key) :
  mkdir_walk d t f made = Some (f', made') →
  (∃ new, made' = made ++ new ∧ f' = replay (EvMkdir <$> new) f)
  ∧ ∀ k, f' !! k = if decide (k ∈ walk_keys d t) then Some Dir else f !! k.
Proof.
  revert d f made. induction t as [|c t IH]; intros d f made H; simpl in H.
  - simplify_eq. split; [exists []; by rewrite app_nil_r|].
    intros k. rewrite decide_False; [done|]. apply not_elem_of_nil.
  - destruct (f !! (d ++ [c])) as [[data|]|] eqn:Ef; [done | |].
    + apply IH in H as [Hnew Hlook]. split; [done|]. intros k. rewrite Hlook. simpl.
      destruct (decide (k ∈ walk_keys (d ++ [c]) t)) as [Hin|Hout].
      * rewrite decide_True; [done|]. apply elem_of_cons. by right.
      * destruct (decide (k = d ++ [c])) as [->|Hne].
        -- rewrite decide_True; [done|]. apply elem_of_cons. by left.
        -- rewrite decide_False; [done|]. intros Hk. apply elem_of_cons in Hk as [|]; done.
    + apply IH in H as [(new & -> & ->) Hlook]. split.
      * exists ((d ++ [c]) :: new). by rewrite <- app_assoc.
      * intros k. rewrite Hlook. simpl.
        destruct (decide (k ∈ walk_keys (d ++ [c]) t)) as [Hin|Hout].
        -- rewrite decide_True; [done|]. apply elem_of_cons. by right.
        -- destruct (decide (k = d ++ [c])) as [->|Hne].
           ++ rewrite decide_True by (apply elem_of_cons; by left).
              by rewrite lookup_insert_eq.
           ++ rewrite decide_False by (intros Hk; apply elem_of_cons in Hk as [|]; done).
              by rewrite lookup_insert_ne.
Qed.

Lemma mkdir_walk_free (d t : key) (f : gmap key (node bytes)) (made : list key) :
  (∀ k, k ∈ walk_keys d t → ∀ data, f !! k ≠ Some (File data)) →
  is_Some (mkdir_walk d t f made).
Proof.
  revert d f made. induction t as [|c t IH]; intros d f made Hfree; simpl; [done|].
  destruct (f !! (d ++ [c])) as [[data|]|] eqn:Ef.
  - destruct (Hfree (d ++ [c])) with data; [|done]. simpl. apply elem_of_cons. by left.
  - apply IH. intros k Hk. apply Hfree. simpl. apply elem_of_cons. by right.
  - apply IH. intros k Hk data. rewrite lookup_insert_ne.
    + apply Hfree. simpl. apply elem_of_cons. by right.
    + intros <-. by apply walk_keys_not_start in Hk.
Qed.

Lemma mkdir_p_Ok (p : Path) (w w' : W) :
  mkdir_p p w = (Ok tt, w') →
  ∃ made, effect w w' (EvMkdir <$> made) []
          ∧ tmp_names w' = tmp_names w
          ∧ ∀ k, fs w' !! k
                 = if decide (k ∈ walk_keys [] (locate w p)) then Some Dir
                   else fs w !! k.
Proof.
  unfold mkdir_p. intros H. apply bind_Ok in H as ([] & w1 & Hs & H).
  apply syscall_Ok in Hs as ->. revert H. rewrite locate_set_faults. simpl.
  destruct (mkdir_walk [] (locate w p) (fs w) []) as [[f made]|] eqn:E; [|done].
  intros H. simplify_eq. apply mkdir_walk_Some in E as [(new & -> & ->) Hlook].
  exists new. split; [effect_now|]. done.
Qed.

Lemma mkdir_p_calm (p : Path) (w : W) :
  calm w → dir_free (fs w) (locate w p) → ∃ w', mkdir_p p w = (Ok tt, w').
Proof.
  intros Hc Hfree. unfold mkdir_p. rewrite (bind_run _ _ _ _ _ (syscall_calm w Hc)).
  rewrite locate_set_faults. simpl.
  destruct (mkdir_walk_free [] (locate w p) (fs w) [] Hfree) as [[f made] ->]. eauto.
Qed.

(** *** Reading and decoding *)

Lemma read_file_Ok (p : Path) (data : bytes) (w w' : W) :
  read_file p w = (Ok data, w') →
  effect w w' [] [] ∧ tmp_names w' = tmp_names w
  ∧ fs w !! locate w p = Some (File data).
Proof.
  unfold read_file. intros H. apply bind_Ok in H as ([] & w1 & Hs & H).
  apply syscall_Ok in Hs as ->. revert H. rewrite locate_set_faults. simpl.
  destruct (fs w !! locate w p) as [[d|]|]; intros H; simplify_eq.
  split; [effect_now | done].
Qed.

Lemma read_file_calm (p : Path) (data : bytes) (w : W) :
  calm w → fs w !! locate w p = Some (File data) →
  ∃ w', read_file p w = (Ok data, w').
Proof.
  intros Hc Hf. unfold read_file. rewrite (bind_run _ _ _ _ _ (syscall_calm w Hc)).
  rewrite locate_set_faults. simpl. rewrite Hf. eauto.
Qed.

Lemma open_and_convert_Ok (p : Path) (img : Image) (w w' : W) :
  open_and_convert_img_to_rgb lib p w = (Ok img, w') →
  effect w w' [] [] ∧ tmp_names w' = tmp_names w ∧ image_at lib w p = Some img.
Proof.
  unfold open_and_convert_img_to_rgb. intros H.
  apply bind_Ok in H as (data & w1 & Hr & H).
  apply read_file_Ok in Hr as (He & Ht & Hf).
  unfold image_at. rewrite Hf.
  destruct (decode_rgba lib data) as [im|]; [|done].
  unfold ret in H. by simplify_eq.
Qed.

Lemma open_and_convert_calm (p : Path) (img : Image) (w : W) :
  calm w → image_at lib w p = Some img →
  ∃ w', open_and_convert_img_to_rgb lib p w = (Ok img, w').
Proof.
  intros Hc Him. unfold image_at in Him.
  destruct (fs w !! locate w p) as [[data|]|] eqn:Ef; try done.
  destruct (read_file_calm p data w Hc Ef) as [w' Hr].
  exists w'. unfold open_and_convert_img_to_rgb.
  rewrite (bind_run _ _ _ _ _ Hr). by rewrite Him.
Qed.

End Runs.

(** ** Runs of the program's functions *)

Section ProgramRuns.
Context {bytes : Type} (lib : Library bytes).

Local Abbreviation W := (World bytes).

Lemma locate_join_simple (w : W) (p : Path) (s : string) :
  simple_name s → locate w (p // s) = locate w p ++ [s].
Proof.
  unfold simple_name, PurePath.joinpath, locate. intros ->. simpl.
  destruct (root p =? "")%string; [by rewrite app_assoc | done].
Qed.

Lemma simple_manifest : simple_name "manifest".
Proof. reflexivity. Qed.
Lemma simple_manifest_json : simple_name "manifest.json".
Proof. reflexivity. Qed.
Lemma simple_logo : simple_name "logo.png".
Proof. reflexivity. Qed.
Lemma simple_favicon : simple_name "favicon.ico".
Proof. reflexivity. Qed.

Lemma simple_icon_names :
  Forall (λ s, Forall (λ p, simple_name (icon_filename p s)) MANIFEST_PREFIXES)
         MANIFEST_SIZES.
Proof. repeat constructor. Qed.

(** *** The icon emitter *)

Lemma prefix_writes_cwd (prefixes : list string) (resized : Image)
    (mdir : Path) (size : Z) (w w1 : W) :
  cwd w1 = cwd w →
  prefix_writes lib prefixes resized mdir size w1
  = prefix_writes lib prefixes resized mdir size w.
Proof. intros Hc. unfold prefix_writes, locate. by rewrite Hc. Qed.

Lemma icon_writes_cwd (sizes : list Z) (prefixes : list string) (base : Image)
    (mdir : Path) (w w1 : W) :
  cwd w1 = cwd w →
  icon_writes lib sizes prefixes base mdir w1
  = icon_writes lib sizes prefixes base mdir w.
Proof. intros Hc. unfold icon_writes, prefix_writes, locate. by rewrite Hc. Qed.

Lemma save_prefixes_Ok (prefixes : list string) (resized : Image)
    (mdir : Path) (size : Z) (w w' : W) :
  for_each prefixes
    (λ prefix, save_png lib resized (mdir // icon_filename prefix size)) w
  = (Ok tt, w') →
  effect w w' (prefix_writes lib prefixes resized mdir size w) []
  ∧ tmp_names w' = tmp_names w.
Proof.
  revert w. induction prefixes as [|prefix prefixes IH]; intros w H; simpl in H.
  - unfold ret in H. simplify_eq. split; [apply effect_refl | done].
  - apply bind_Ok in H as ([] & w1 & Hw & H).
    apply write_file_Ok in Hw as (He & _ & Ht).
    apply IH in H as [He' Ht']. split; [|congruence].
    rewrite (prefix_writes_cwd _ _ _ _ w w1) in He' by apply He.
    unfold prefix_writes at 1. rewrite bind_cons.
    by eapply (effect_trans _ _ _ [_] _ [] []).
Qed.

Lemma save_sizes_Ok (sizes : list Z) (prefixes : list string) (base : Image)
    (mdir : Path) (w w' : W) :
  for_each sizes (λ size,
    let resized := resize lib base (size, size) in
    for_each prefixes (λ prefix,
      save_png lib resized (mdir // icon_filename prefix size))) w
  = (Ok tt, w') →
  effect w w' (icon_writes lib sizes prefixes base mdir w) []
  ∧ tmp_names w' = tmp_names w.
Proof.
  revert w. induction sizes as [|size sizes IH]; intros w H; simpl in H.
  - unfold ret in H. simplify_eq. split; [apply effect_refl | done].
  - apply bind_Ok in H as ([] & w1 & Hp & H).
    apply save_prefixes_Ok in Hp as [He Ht].
    apply IH in H as [He' Ht']. split; [|congruence].
    rewrite (icon_writes_cwd _ _ _ _ w w1) in He' by apply He.
    unfold icon_writes at 1. rewrite bind_cons.
    by eapply (effect_trans _ _ _ _ _ [] []).
Qed.

Lemma generate_manifest_icons_over_Ok (sizes : list Z) (prefixes : list string)
    (base : Image) (mdir : Path) (w w' : W) :
  generate_manifest_icons_over lib sizes prefixes base mdir w = (Ok tt, w') →
  ∃ made,
    effect w w' ((EvMkdir <$> made) ++ icon_writes lib sizes prefixes base mdir w) []
    ∧ tmp_names w' = tmp_names w.
Proof.
  unfold generate_manifest_icons_over. intros H.
  apply bind_Ok in H as ([] & w1 & Hm & H).
  apply mkdir_p_Ok in Hm as (made & He & Ht & _).
  apply save_sizes_Ok in H as [He' Ht'].
  rewrite (icon_writes_cwd _ _ _ _ w w1) in He' by apply He.
  exists made. split; [|congruence].
  by eapply (effect_trans _ _ _ _ _ [] []).
Qed.

Lemma icon_writes_length (sizes : list Z) (prefixes : list string)
    (base : Image) (mdir : Path) (w : W) :
  length (icon_writes lib sizes prefixes base mdir w)
  = (length sizes * length prefixes)%nat.
Proof.
  unfold icon_writes.
  induction sizes as [|s sizes IH]; [done|].
  rewrite bind_cons, length_app, IH. simpl. f_equal.
  unfold prefix_writes. clear IH.
  induction prefixes as [|p prefixes IH]; [done|].
  rewrite bind_cons, length_app, IH. done.
Qed.

(** *** The manifest, the logo and the favicon *)

Lemma print_effect (line : string) (w w' : W) r :
  print line w = (r, w') →
  r = Ok tt ∧ effect w w' [] [line] ∧ tmp_names w' = tmp_names w.
Proof.
  unfold print. intros H. simplify_eq. split; [done|]. split; [|done].
  unfold effect. simpl. by rewrite app_nil_r.
Qed.

Lemma tail_writes_Ok (out : Path) (project_folder : string) (original : Image)
    (w w' : W) :
  (do_ generate_manifest_json lib out project_folder;
   do_ generate_logo lib original (out // "logo.png") 192;
   do_ generate_favicon lib original (out // "favicon.ico");
   print (confirmation project_folder)) w = (Ok tt, w') →
  effect w w' (tail_writes lib out project_folder original w)
    [confirmation project_folder]
  ∧ tmp_names w' = tmp_names w.
Proof.
  intros H.
  apply bind_Ok in H as ([] & w1 & H1 & H).
  apply bind_Ok in H as ([] & w2 & H2 & H).
  apply bind_Ok in H as ([] & w3 & H3 & H).
  apply write_file_Ok in H1 as (E1 & _ & T1).
  apply write_file_Ok in H2 as (E2 & _ & T2).
  apply write_file_Ok in H3 as (E3 & _ & T3).
  apply print_effect in H as (_ & E4 & T4).
  split; [|congruence].
  rewrite (effect_locate _ _ _ _ _ (effect_trans _ _ _ _ _ _ _ E1 E2)) in E3.
  rewrite (effect_locate _ _ _ _ _ E1) in E2.
  pose proof (effect_trans _ _ _ _ _ _ _
                (effect_trans _ _ _ _ _ _ _
                   (effect_trans _ _ _ _ _ _ _ E1 E2) E3) E4) as E.
  exact E.
Qed.

Lemma emit_assets_Ok (project_folder : string) (original base : Image) (w w' : W) :
  let out := PurePath.parse project_folder in
  emit_assets lib out project_folder original base w = (Ok tt, w') →
  ∃ made,
    effect w w'
      ((EvMkdir <$> made)
         ++ icon_writes lib MANIFEST_SIZES MANIFEST_PREFIXES base (out // "manifest") w
         ++ tail_writes lib out project_folder original w)
      [confirmation project_folder]
    ∧ tmp_names w' = tmp_names w.
Proof.
  intros out H. unfold emit_assets in H.
  apply bind_Ok in H as ([] & w1 & Hi & H).
  apply generate_manifest_icons_over_Ok in Hi as (made & Ei & Ti).
  apply tail_writes_Ok in H as [Et Tt].
  exists made. split; [|congruence].
  pose proof (effect_trans _ _ _ _ _ _ _ Ei Et) as E.
  rewrite <- app_assoc in E.
  replace (tail_writes lib out project_folder original w1)
    with (tail_writes lib out project_folder original w) in E; [exact E|].
  unfold tail_writes. by rewrite !(effect_locate _ _ _ _ _ Ei).
Qed.

(** *** The scratch file of the centring step *)

Lemma first_free_Some (f : gmap key (node bytes)) (names : list key) (n : key) rest :
  first_free f names = Some (n, rest) → f !! n = None ∧ n ∈ names.
Proof.
  induction names as [|m names IH]; simpl; [done|].
  destruct (f !! m) eqn:E.
  - intros H. apply IH in H as [? ?]. split; [done|]. apply elem_of_cons. by right.
  - intros H. simplify_eq. split; [done|]. apply elem_of_cons. by left.
Qed.

Lemma first_free_exists (f : gmap key (node bytes)) (names : list key) (n : key) :
  n ∈ names → f !! n = None → is_Some (first_free f names).
Proof.
  induction names as [|m names IH]; intros Hin Hn; simpl.
  - by apply elem_of_nil in Hin.
  - destruct (f !! m) eqn:E; [|done].
    apply elem_of_cons in Hin as [->|Hin]; [congruence | by apply IH].
Qed.

Lemma NamedTemporaryFile_Ok (p : Path) (w w' : W) :
  NamedTemporaryFile lib w = (Ok p, w') →
  ∃ n rest, p = mkPath "/" n
            ∧ first_free (fs w) (tmp_names w) = Some (n, rest)
            ∧ effect w w' [EvCreate n (no_bytes lib)] [].
Proof.
  unfold NamedTemporaryFile. intros H. apply bind_Ok in H as ([] & w1 & Hs & H).
  apply syscall_Ok in Hs as ->. simpl in H.
  destruct (first_free (fs w) (tmp_names w)) as [[n rest]|] eqn:E; [|done].
  simplify_eq. exists n, rest. split; [done|]. split; [done|].
  unfold effect. simpl. rewrite app_nil_r. repeat split; try done. apply tail_suffix.
Qed.

Lemma NamedTemporaryFile_any (w w' : W) r :
  NamedTemporaryFile lib w = (r, w') →
  (∃ p, r = Ok p) ∨ (fs w' = fs w ∧ cwd w' = cwd w ∧ stdout w' = stdout w).
Proof.
  unfold NamedTemporaryFile, bind. intros H.
  destruct (syscall w) as [[[]|e] w1] eqn:Hs.
  - apply syscall_Ok in Hs as ->. simpl in H.
    destruct (first_free (fs w) (tmp_names w)) as [[n rest]|]; simplify_eq; eauto.
  - apply syscall_any in Hs as (fl & -> & _). simplify_eq. by right.
Qed.

Lemma unlink_file (n : key) (data : bytes) (w : W) :
  fs w !! n = Some (File data) →
  unlink_missing_ok (mkPath "/" n) w
  = (Ok tt, set_trace (trace w ++ [EvUnlink n]) (set_fs (delete n (fs w)) w)).
Proof.
  intros Hf. unfold unlink_missing_ok.
  change (locate w (mkPath "/" n)) with n. cbv zeta. by rewrite Hf.
Qed.

Lemma NamedTemporaryFile_calm (w : W) (n : key) rest :
  calm w → first_free (fs w) (tmp_names w) = Some (n, rest) →
  ∃ w', NamedTemporaryFile lib w = (Ok (mkPath "/" n), w').
Proof.
  intros Hc Hf. unfold NamedTemporaryFile.
  rewrite (bind_run _ _ _ _ _ (syscall_calm w Hc)). simpl. rewrite Hf. eauto.
Qed.

Lemma write_file_any (p : Path) (data : bytes) (w w' : W) r :
  write_file p data w = (r, w') →
  cwd w' = cwd w ∧ stdout w' = stdout w
  ∧ (fs w' = fs w ∨ fs w' = <[locate w p := File data]> (fs w)).
Proof.
  unfold write_file, bind. destruct (syscall w) as [[[]|e] w1] eqn:Hs.
  - apply syscall_Ok in Hs as ->. cbv zeta. rewrite !locate_set_faults. simpl.
    destruct (locate w p) as [|c k]; [intros H; simplify_eq; auto|].
    destruct (fs w !! (c :: k)) as [[d|]|].
    + intros H; simplify_eq; auto.
    + intros H; simplify_eq; auto.
    + destruct (dir_at (fs w) (removelast (c :: k))).
      * intros H; simplify_eq; auto.
      * destruct (fs w !! removelast (c :: k)) as [[|]|]; intros H; simplify_eq; auto.
  - apply syscall_any in Hs as (fl & -> & _). intros H. simplify_eq. auto.
Qed.

Lemma open_and_convert_any (p : Path) (w w' : W) r :
  open_and_convert_img_to_rgb lib p w = (r, w') →
  fs w' = fs w ∧ cwd w' = cwd w ∧ stdout w' = stdout w.
Proof.
  unfold open_and_convert_img_to_rgb, read_file, bind.
  destruct (syscall w) as [[[]|e] w1] eqn:Hs.
  - apply syscall_Ok in Hs as ->. rewrite locate_set_faults. simpl.
    destruct (fs w !! locate w p) as [[d|]|].
    + unfold ret, raise. destruct (decode_rgba lib d); intros H; by simplify_eq.
    + intros H; by simplify_eq.
    + intros H; by simplify_eq.
  - apply syscall_any in Hs as (fl & -> & _). intros H. by simplify_eq.
Qed.

(** The scratch file is gone after the centring step, whatever happened
    inside it: the file system is the one the step started from. *)
Lemma centred_base_restores (original : Image) (w w' : W) r :
  centred_base lib original w = (r, w') →
  fs w' = fs w ∧ cwd w' = cwd w ∧ stdout w' = stdout w.
Proof.
  unfold centred_base, bind. intros H.
  destruct (NamedTemporaryFile lib w) as [[p|e] w1] eqn:HN.
  - apply NamedTemporaryFile_Ok in HN as (n & rest & -> & Hfree & (Hc & _ & Hf & Ho & _)).
    apply first_free_Some in Hfree as [Hfree _].
    simpl in Hf. rewrite app_nil_r in Ho.
    unfold try_finally in H.
    change (locate w1 (mkPath "/" n)) with n in *.
    destruct (write_file _ _ w1) as [r1 w1'] eqn:Hw.
    apply write_file_any in Hw as (Hc1 & Ho1 & Hfw).
    change (locate w1 (mkPath "/" n)) with n in Hfw.
    assert (∃ d, fs w1' = <[n := File d]> (fs w)) as [d1 Hf1].
    { destruct Hfw as [->| ->]; rewrite Hf; eauto.
      eexists. by rewrite insert_insert_eq. }
    assert (∃ r0 w2, cwd w2 = cwd w ∧ stdout w2 = stdout w
                     ∧ fs w2 = <[n := File d1]> (fs w)
                     ∧ (let (r0', w'') := unlink_missing_ok (mkPath "/" n) w2 in
                        match r0' with
                        | Ok _ => (r0, w'')
                        | Raise e => (Raise e, w'')
                        end) = (r, w')) as (r0 & w2 & Hc2 & Ho2 & Hf2 & Hfin).
    { destruct r1 as [[]|e].
      - destruct (open_and_convert_img_to_rgb lib _ w1') as [r0 w2] eqn:Hopen.
        apply open_and_convert_any in Hopen as (? & ? & ?).
        exists r0, w2. repeat split; [congruence..|done].
      - exists (Raise e), w1'. repeat split; [congruence..|done]. }
    rewrite (unlink_file n d1 w2) in Hfin by (by rewrite Hf2, lookup_insert_eq).
    simplify_eq. simpl. rewrite Hf2, delete_insert_eq. by rewrite delete_id.
  - apply NamedTemporaryFile_any in HN as [[p ?]|Hsame]; [done|]. by simplify_eq.
Qed.

Lemma centred_base_Ok (original base : Image) (w w' : W) :
  centred_base lib original w = (Ok base, w') →
  chosen_base lib true original base
  ∧ ∃ n, n ∈ tmp_names w ∧ fs w !! n = None
         ∧ effect w w' (scratch_events lib original n) [].
Proof.
  unfold centred_base. intros H. apply bind_Ok in H as (p & w1 & HN & H).
  apply NamedTemporaryFile_Ok in HN as (n & rest & -> & Hfree & E1).
  apply first_free_Some in Hfree as [Hfree Hin].
  unfold try_finally in H.
  destruct (bind _ _ w1) as [r0 w3] eqn:Hbody.
  destruct (unlink_missing_ok _ w3) as [[[]|e] w4] eqn:Hu; [|done].
  simplify_eq. apply bind_Ok in Hbody as ([] & w2 & Hw & Ho).
  apply write_file_Ok in Hw as (E2 & _ & _).
  change (locate w1 (mkPath "/" n)) with n in E2.
  apply open_and_convert_Ok in Ho as (E3 & _ & Him).
  assert (fs w2 !! n = Some (File (encode_png lib false
            (centre_on_canvas lib original CANVAS_SIZE INNER_SIZE)))) as Hf2.
  { destruct E2 as (_ & _ & -> & _). simpl. by rewrite lookup_insert_eq. }
  unfold image_at in Him. change (locate w2 (mkPath "/" n)) with n in Him.
  rewrite Hf2 in Him. split; [exact Him|].
  exists n. split; [done|]. split; [done|].
  assert (fs w3 !! n = Some (File (encode_png lib false
            (centre_on_canvas lib original CANVAS_SIZE INNER_SIZE)))) as Hf3.
  { destruct E3 as (_ & _ & -> & _). done. }
  rewrite (unlink_file _ _ _ Hf3) in Hu. simplify_eq.
  assert (effect w3 (set_trace (trace w3 ++ [EvUnlink n])
                       (set_fs (delete n (fs w3)) w3)) [EvUnlink n] []) as E4.
  { unfold effect. simpl. by rewrite app_nil_r. }
  exact (effect_trans _ _ _ _ _ _ _
           (effect_trans _ _ _ _ _ _ _ (effect_trans _ _ _ _ _ _ _ E1 E2) E3) E4).
Qed.

Lemma centred_base_calm (original : Image) (w : W) (n : key) :
  calm w → png_lossless lib →
  n ∈ tmp_names w → fs w !! n = None → [] ∉ tmp_names w →
  ∃ w', centred_base lib original w
        = (Ok (centre_on_canvas lib original CANVAS_SIZE INNER_SIZE), w').
Proof.
  intros Hc Hpng Hin Hn Hnil.
  destruct (first_free_exists (fs w) (tmp_names w) n Hin Hn) as [[m rest] Hfree].
  destruct (NamedTemporaryFile_calm w m rest Hc Hfree) as [w1 HN].
  pose proof (NamedTemporaryFile_Ok _ _ _ HN) as (m' & rest' & Hm & _ & E1).
  injection Hm as <-.
  apply first_free_Some in Hfree as [Hfree Hmin].
  assert (m ≠ []) as Hne by (intros ->; done).
  set (data := encode_png lib false
                 (centre_on_canvas lib original CANVAS_SIZE INNER_SIZE)).
  assert (fs w1 !! m = Some (File (no_bytes lib))) as Hf1.
  { destruct E1 as (_ & _ & -> & _). simpl. by rewrite lookup_insert_eq. }
  destruct (write_file_calm (mkPath "/" m) data w1) as [w2 Hw].
  { by eapply effect_calm. }
  { change (locate w1 (mkPath "/" m)) with m. unfold writable.
    destruct m as [|c m']; [done|]. by rewrite Hf1. }
  pose proof (write_file_Ok _ _ _ _ Hw) as (E2 & _ & _).
  change (locate w1 (mkPath "/" m)) with m in E2.
  assert (fs w2 !! m = Some (File data)) as Hf2.
  { destruct E2 as (_ & _ & -> & _). simpl. by rewrite lookup_insert_eq. }
  destruct (open_and_convert_calm lib (mkPath "/" m)
              (centre_on_canvas lib original CANVAS_SIZE INNER_SIZE) w2) as [w3 Ho].
  { eapply effect_calm; [exact E2|]. by eapply effect_calm. }
  { unfold image_at. change (locate w2 (mkPath "/" m)) with m. rewrite Hf2. apply Hpng. }
  pose proof (open_and_convert_Ok _ _ _ _ _ Ho) as (E3 & _ & _).
  assert (fs w3 !! m = Some (File data)) as Hf3.
  { destruct E3 as (_ & _ & -> & _). done. }
  eexists. unfold centred_base. rewrite (bind_run _ _ _ _ _ HN).
  unfold try_finally. fold data. rewrite (bind_run _ _ _ _ _ Hw), Ho.
  by rewrite (unlink_file _ _ _ Hf3).
Qed.

(** *** The whole pipeline, read back from a successful run *)

Lemma image_at_before_mkdir (w w1 : W) (p src : Path) (img : Image) :
  cwd w1 = cwd w →
  (∀ k, fs w1 !! k
        = if decide (k ∈ walk_keys [] (locate w p)) then Some Dir else fs w !! k) →
  image_at lib w1 src = Some img → image_at lib w src = Some img.
Proof.
  intros Hc Hl. unfold image_at, locate. rewrite Hc, Hl.
  by case_decide.
Qed.

Lemma tail_writes_cwd (out : Path) (project_folder : string) (original : Image)
    (w w1 : W) :
  cwd w1 = cwd w →
  tail_writes lib out project_folder original w1
  = tail_writes lib out project_folder original w.
Proof. intros Hc. unfold tail_writes, locate. by rewrite Hc. Qed.

Lemma generate_assets_Ok (source_path : Path) (project_folder : string)
    (center : bool) (w w' : W) :
  generate_assets lib source_path project_folder center w = (Ok tt, w') →
  let out := PurePath.parse project_folder in
  ∃ original base made1 scratch made2,
    image_at lib w source_path = Some original
    ∧ chosen_base lib center original base
    ∧ (if center then ∃ n, n ∈ tmp_names w ∧ scratch = scratch_events lib original n
       else scratch = [])
    ∧ effect w w'
        ((EvMkdir <$> made1) ++ scratch ++ (EvMkdir <$> made2)
           ++ icon_writes lib MANIFEST_SIZES MANIFEST_PREFIXES base (out // "manifest") w
           ++ tail_writes lib out project_folder original w)
        [confirmation project_folder].
Proof.
  intros H out. unfold generate_assets in H. fold out in H.
  apply bind_Ok in H as ([] & w1 & Hm & H).
  apply bind_Ok in H as (original & w2 & Ho & H).
  apply bind_Ok in H as (base & w3 & Hb & H).
  apply mkdir_p_Ok in Hm as (made1 & E1 & T1 & L1).
  apply open_and_convert_Ok in Ho as (E2 & T2 & Him).
  apply (image_at_before_mkdir w w1 out) in Him; [|apply E1|done].
  apply emit_assets_Ok in H as (made2 & E4 & T4).
  assert (∃ scratch,
            chosen_base lib center original base
            ∧ (if center then ∃ n, n ∈ tmp_names w
                                   ∧ scratch = scratch_events lib original n
               else scratch = [])
            ∧ effect w2 w3 scratch []) as (scratch & Hbase & Hscr & E3).
  { destruct center.
    - apply centred_base_Ok in Hb as (Hbase & n & Hin & _ & E3).
      exists (scratch_events lib original n). split; [done|]. split; [|done].
      exists n. split; [by rewrite <- T1, <- T2 | done].
    - unfold ret in Hb. simplify_eq. exists []. split; [done|]. split; [done|].
      apply effect_refl. }
  exists original, base, made1, scratch, made2.
  split; [done|]. split; [done|]. split; [done|].
  pose proof (effect_trans _ _ _ _ _ _ _ (effect_trans _ _ _ _ _ _ _ E1 E2) E3) as E123.
  assert (cwd w3 = cwd w) as Hc3 by apply E123.
  rewrite (icon_writes_cwd _ _ _ _ w w3 Hc3), (tail_writes_cwd _ _ _ w w3 Hc3) in E4.
  pose proof (effect_trans _ _ _ _ _ _ _ E123 E4) as E.
  rewrite !app_nil_r in E. simpl in E. rewrite <- !app_assoc in E. exact E.
Qed.

(** *** A run that meets no obstacle succeeds *)

Lemma relative_outputs_shape :
  Forall (λ r, r ≠ [] ∧ r ≠ ["manifest"]
               ∧ (removelast r = [] ∨ removelast r = ["manifest"]))
         relative_outputs.
Proof. apply (bool_decide_unpack _). by vm_compute. Qed.

Lemma output_files_shape (out k : key) :
  k ∈ output_files out →
  k ≠ [] ∧ k ≠ out ∧ k ≠ out ++ ["manifest"]
  ∧ (removelast k = out ∨ removelast k = out ++ ["manifest"])
  ∧ k ∉ walk_keys [] (out ++ ["manifest"]).
Proof.
  unfold output_files. intros Hk. apply list_elem_of_fmap in Hk as (r & -> & Hr).
  pose proof relative_outputs_shape as Hall. rewrite Forall_forall in Hall.
  destruct (Hall r Hr) as (Hne & Hnm & Hlast).
  split; [by destruct out, r|]. split.
  { intros Heq. apply Hne. apply (app_inv_head out). by rewrite app_nil_r. }
  split.
  { intros Heq. apply Hnm. by apply (app_inv_head out). }
  split.
  { rewrite removelast_app by done. destruct Hlast as [-> | ->]; [left|by right].
    by rewrite app_nil_r. }
  intros Hw. apply walk_keys_extend in Hw as (t1 & _ & Heq & Hp). simpl in Heq. subst t1.
  apply prefix_app_inv in Hp. destruct Hp as [t Ht].
  destruct r as [|c [|c' r]]; [done | | discriminate].
  destruct t; [|discriminate]. by simplify_eq.
Qed.

Lemma dir_at_lookup (f : gmap key (node bytes)) (k : key) :
  f !! k = Some Dir → dir_at f k = true.
Proof. intros Hf. unfold dir_at. destruct k; [done|]. by rewrite Hf. Qed.

Lemma dir_at_insert_ne (f : gmap key (node bytes)) (k k' : key) (x : node bytes) :
  k ≠ k' → dir_at (<[k := x]> f) k' = dir_at f k'.
Proof. intros Hne. unfold dir_at. destruct k'; [done|]. by rewrite lookup_insert_ne. Qed.

Lemma locate_cwd (w w1 : W) (p : Path) : cwd w1 = cwd w → locate w1 p = locate w p.
Proof. intros Hc. unfold locate. by rewrite Hc. Qed.

Lemma write_target_calm (out : key) (p : Path) (data : bytes) (w : W) :
  calm w → prepared out (fs w) → locate w p ∈ output_files out →
  ∃ w', write_file p data w = (Ok tt, w')
        ∧ calm w' ∧ prepared out (fs w') ∧ cwd w' = cwd w.
Proof.
  intros Hc (HdO & HdM & Hout) Hk.
  pose proof (output_files_shape _ _ Hk) as (Hne & HnO & HnM & Hlast & _).
  destruct (write_file_calm p data w Hc) as [w' Hw].
  { unfold writable. destruct (locate w p) as [|c k] eqn:Ek; [done|].
    destruct (fs w !! (c :: k)) as [[d|]|] eqn:Ef; [done | by destruct (Hout _ Hk) |].
    by destruct Hlast as [-> | ->]. }
  exists w'. split; [done|].
  apply write_file_Ok in Hw as (He & _ & _).
  split; [by eapply effect_calm|]. split; [|apply He].
  destruct He as (_ & _ & -> & _). simpl.
  split; [by rewrite dir_at_insert_ne|]. split; [by rewrite dir_at_insert_ne|].
  intros k' Hk'. destruct (decide (locate w p = k')) as [<-|Hne'].
  - by rewrite lookup_insert_eq.
  - rewrite lookup_insert_ne by done. by apply Hout.
Qed.

Lemma save_prefixes_calm (out : key) (prefixes : list string) (resized : Image)
    (mdir : Path) (size : Z) (w : W) :
  calm w → prepared out (fs w) →
  (∀ prefix, prefix ∈ prefixes →
             locate w (mdir // icon_filename prefix size) ∈ output_files out) →
  ∃ w', for_each prefixes
          (λ prefix, save_png lib resized (mdir // icon_filename prefix size)) w
        = (Ok tt, w')
        ∧ calm w' ∧ prepared out (fs w') ∧ cwd w' = cwd w.
Proof.
  revert w. induction prefixes as [|prefix prefixes IH]; intros w Hc Hp Hin.
  - exists w. split; [reflexivity|]. split; [done|]. by split.
  - destruct (write_target_calm out (mdir // icon_filename prefix size)
                (encode_png lib true resized) w Hc Hp) as (w1 & Hw & Hc1 & Hp1 & Hcwd1).
    { apply Hin. apply elem_of_cons. by left. }
    destruct (IH w1 Hc1 Hp1) as (w' & Hrun & Hc' & Hp' & Hcwd').
    { intros prefix' Hin'. rewrite (locate_cwd w w1) by done.
      apply Hin. apply elem_of_cons. by right. }
    exists w'. split; [|split; [done|split; [done|congruence]]].
    simpl. unfold save_png at 1. by rewrite (bind_run _ _ _ _ _ Hw).
Qed.

Lemma save_sizes_calm (out : key) (sizes : list Z) (prefixes : list string)
    (base : Image) (mdir : Path) (w : W) :
  calm w → prepared out (fs w) →
  (∀ size prefix, size ∈ sizes → prefix ∈ prefixes →
                  locate w (mdir // icon_filename prefix size) ∈ output_files out) →
  ∃ w', for_each sizes (λ size,
          let resized := resize lib base (size, size) in
          for_each prefixes (λ prefix,
            save_png lib resized (mdir // icon_filename prefix size))) w
        = (Ok tt, w')
        ∧ calm w' ∧ prepared out (fs w') ∧ cwd w' = cwd w.
Proof.
  revert w. induction sizes as [|size sizes IH]; intros w Hc Hp Hin.
  - exists w. split; [reflexivity|]. split; [done|]. by split.
  - destruct (save_prefixes_calm out prefixes (resize lib base (size, size)) mdir size
                w Hc Hp) as (w1 & Hw & Hc1 & Hp1 & Hcwd1).
    { intros prefix Hpre. apply Hin; [|done]. apply elem_of_cons. by left. }
    destruct (IH w1 Hc1 Hp1) as (w' & Hrun & Hc' & Hp' & Hcwd').
    { intros size' prefix' Hs' Hpre'. rewrite (locate_cwd w w1) by done.
      apply Hin; [|done]. apply elem_of_cons. by right. }
    exists w'. split; [|split; [done|split; [done|congruence]]].
    simpl. by rewrite (bind_run _ _ _ _ _ Hw).
Qed.

Lemma icon_target (out : key) (size : Z) (prefix : string) :
  size ∈ MANIFEST_SIZES → prefix ∈ MANIFEST_PREFIXES →
  simple_name (icon_filename prefix size)
  ∧ out ++ ["manifest"; icon_filename prefix size] ∈ output_files out.
Proof.
  intros Hs Hp. split.
  - pose proof simple_icon_names as Hall. rewrite Forall_forall in Hall.
    specialize (Hall size Hs). rewrite Forall_forall in Hall. by apply Hall.
  - unfold output_files. apply list_elem_of_fmap.
    exists ["manifest"; icon_filename prefix size]. split; [done|].
    unfold relative_outputs. apply elem_of_app. left.
    apply list_elem_of_bind. exists size. split; [|done].
    apply list_elem_of_bind. exists prefix. split; [|done].
    apply list_elem_of_singleton. done.
Qed.

Lemma tail_target (out : key) (name : string) :
  name ∈ ["manifest.json"; "logo.png"; "favicon.ico"] →
  out ++ [name] ∈ output_files out.
Proof.
  intros Hn. unfold output_files. apply list_elem_of_fmap.
  exists [name]. split; [done|]. unfold relative_outputs. apply elem_of_app. right.
  repeat (apply elem_of_cons in Hn as [->|Hn]; [set_solver|]).
  by apply elem_of_nil in Hn.
Qed.

Lemma generate_manifest_icons_calm (out : Path) (base : Image) (w : W) :
  calm w →
  dir_free (fs w) (locate w out ++ ["manifest"]) →
  (∀ k, k ∈ output_files (locate w out) → fs w !! k ≠ Some Dir) →
  ∃ w', generate_manifest_icons lib base (out // "manifest") w = (Ok tt, w')
        ∧ calm w' ∧ prepared (locate w out) (fs w') ∧ cwd w' = cwd w.
Proof.
  intros Hc Hfree Hout. set (O := locate w out) in *.
  assert (locate w (out // "manifest") = O ++ ["manifest"]) as HlM
    by apply locate_join_simple, simple_manifest.
  destruct (mkdir_p_calm (out // "manifest") w Hc) as [w1 Hm]; [by rewrite HlM|].
  pose proof (mkdir_p_Ok _ _ _ Hm) as (made & E1 & _ & L1). rewrite HlM in L1.
  assert (cwd w1 = cwd w) as Hc1 by apply E1.
  assert (prepared O (fs w1)) as Hp1.
  { split; [|split].
    - destruct (decide (O = [])) as [->|HO]; [done|]. apply dir_at_lookup.
      rewrite L1, decide_True; [done|]. rewrite walk_keys_app. apply elem_of_app. left.
      by apply (walk_keys_last [] O).
    - apply dir_at_lookup. rewrite L1, decide_True; [done|].
      apply (walk_keys_last [] (O ++ ["manifest"])). by destruct O.
    - intros k Hk. rewrite L1, decide_False; [by apply Hout|].
      by apply output_files_shape in Hk as (_ & _ & _ & _ & ?). }
  destruct (save_sizes_calm O MANIFEST_SIZES MANIFEST_PREFIXES base (out // "manifest")
              w1) as (w2 & Hs & Hc2 & Hp2 & Hcwd2); [by eapply effect_calm | done | |].
  { intros size prefix Hsz Hpre.
    destruct (icon_target O size prefix Hsz Hpre) as [Hsimple Hin].
    rewrite (locate_join_simple _ _ _ Hsimple), (locate_cwd w w1), HlM by done.
    by rewrite <- app_assoc. }
  exists w2. split; [|split; [done|split; [done|congruence]]].
  unfold generate_manifest_icons, generate_manifest_icons_over.
  by rewrite (bind_run _ _ _ _ _ Hm).
Qed.

Lemma emit_assets_calm (project_folder : string) (original base : Image) (w : W) :
  let out := PurePath.parse project_folder in
  calm w →
  dir_free (fs w) (locate w out ++ ["manifest"]) →
  (∀ k, k ∈ output_files (locate w out) → fs w !! k ≠ Some Dir) →
  ∃ w', emit_assets lib out project_folder original base w = (Ok tt, w').
Proof.
  intros out Hc Hfree Hout.
  destruct (generate_manifest_icons_calm out base w Hc Hfree Hout)
    as (w2 & Hi & Hc2 & Hp2 & Hcwd2).
  set (O := locate w out) in *.
  destruct (write_target_calm O (out // "manifest.json")
              (json_dump lib (manifest_over MANIFEST_SIZES project_folder)) w2 Hc2 Hp2)
    as (w3 & H3 & Hc3 & Hp3 & Hcwd3).
  { rewrite (locate_join_simple _ _ _ simple_manifest_json), (locate_cwd w w2) by congruence.
    apply tail_target. by left. }
  destruct (write_target_calm O (out // "logo.png")
              (encode_png lib true (resize lib original (192, 192))) w3 Hc3 Hp3)
    as (w4 & H4 & Hc4 & Hp4 & Hcwd4).
  { rewrite (locate_join_simple _ _ _ simple_logo), (locate_cwd w w3) by congruence.
    apply tail_target. by right; left. }
  destruct (write_target_calm O (out // "favicon.ico")
              (save_ico lib (resize lib original (32, 32)) ico_sizes) w4 Hc4 Hp4)
    as (w5 & H5 & Hc5 & Hp5 & Hcwd5).
  { rewrite (locate_join_simple _ _ _ simple_favicon), (locate_cwd w w4) by congruence.
    apply tail_target. by right; right; left. }
  eexists. unfold emit_assets. rewrite (bind_run _ _ _ _ _ Hi).
  unfold generate_manifest_json, generate_manifest_json_over.
  rewrite (bind_run _ _ _ _ _ H3).
  unfold generate_logo, save_png. rewrite (bind_run _ _ _ _ _ H4).
  unfold generate_favicon. rewrite (bind_run _ _ _ _ _ H5).
  reflexivity.
Qed.

(** A ready world takes [generate_assets] to its end. *)
Lemma generate_assets_calm (source_path : Path) (project_folder : string)
    (center : bool) (w : W) :
  png_lossless lib → ready lib w source_path project_folder center →
  ∃ w', generate_assets lib source_path project_folder center w = (Ok tt, w').
Proof.
  intros Hpng (Hc & [original Him] & Hfree & Hout & Htmp).
  set (out := PurePath.parse project_folder) in *. set (O := locate w out) in *.
  destruct (mkdir_p_calm out w Hc) as [w1 Hm].
  { intros k Hk. apply Hfree. rewrite walk_keys_app. apply elem_of_app. by left. }
  pose proof (mkdir_p_Ok _ _ _ Hm) as (made & E1 & T1 & L1). fold O in L1.
  assert (cwd w1 = cwd w) as Hc1 by apply E1.
  assert (calm w1) as Hcalm1 by (by eapply effect_calm).
  assert (image_at lib w1 source_path = Some original) as Him1.
  { revert Him. unfold image_at. rewrite (locate_cwd w w1) by done. rewrite L1.
    destruct (fs w !! locate w source_path) as [[data|]|] eqn:Ef; try done.
    intros Hd. rewrite decide_False; [done|]. intros Hk.
    eapply Hfree; [|exact Ef]. rewrite walk_keys_app. apply elem_of_app. by left. }
  destruct (open_and_convert_calm lib source_path original w1 Hcalm1 Him1) as [w2 Ho].
  pose proof (open_and_convert_Ok _ _ _ _ _ Ho) as (E2 & T2 & _).
  assert (calm w2) as Hcalm2 by (by eapply effect_calm).
  assert (fs w2 = fs w1) as Hf2 by apply E2.
  assert (cwd w2 = cwd w) as Hc2 by (destruct E2 as [-> _]; done).
  assert (∃ base w3, (if center then centred_base lib original else ret original) w2
                     = (Ok base, w3)
                     ∧ calm w3 ∧ fs w3 = fs w1 ∧ cwd w3 = cwd w)
    as (base & w3 & Hb & Hcalm3 & Hf3 & Hc3).
  { destruct center.
    - destruct (Htmp eq_refl) as (Hnil & n & Hin & Hn & Hnw).
      destruct (centred_base_calm original w2 n) as [w3 Hb]; try done.
      + congruence.
      + rewrite Hf2, L1. by rewrite decide_False.
      + congruence.
      + eexists _, w3. split; [exact Hb|].
        pose proof (centred_base_restores _ _ _ _ Hb) as (? & ? & _).
        apply centred_base_Ok in Hb as (_ & m & _ & _ & E3).
        split; [by eapply effect_calm|]. split; congruence.
    - exists original, w2. by repeat split. }
  destruct (emit_assets_calm project_folder original base w3 Hcalm3) as [w' He].
  { fold out. rewrite (locate_cwd w w3) by done. fold O. intros k Hk data.
    rewrite Hf3, L1. case_decide; [done|]. by apply Hfree. }
  { fold out. rewrite (locate_cwd w w3) by done. fold O. intros k Hk.
    rewrite Hf3, L1. rewrite decide_False; [by apply Hout|].
    apply output_files_shape in Hk as (_ & _ & _ & _ & Hk). intros Hin. apply Hk.
    rewrite walk_keys_app. apply elem_of_app. by left. }
  exists w'. unfold generate_assets. fold out.
  rewrite (bind_run _ _ _ _ _ Hm), (bind_run _ _ _ _ _ Ho), (bind_run _ _ _ _ _ Hb).
  exact He.
Qed.

End ProgramRuns.

(** ** Runs of [main] *)

Section MainRuns.
Context {bytes : Type} (lib : Library bytes).

Local Abbreviation W := (World bytes).

(** With no regular file at the source path, [resolve_source_path]
    raises and leaves the file system alone: the program's own
    [FileNotFoundError] or, when the [stat] is planned to fail, the
    [OSError] of the system call. *)
Lemma resolve_source_path_missing (filename : string) (w : W) :
  missing w filename →
  ∃ e w',
    resolve_source_path filename w = (Raise e, w')
    ∧ effect w w' [] []
    ∧ (e = FileNotFoundError (not_found_message w filename)
       ∨ (head (faults w) = Some true ∧ ∃ msg, e = OSError msg)).
Proof.
  intros Hmiss. unfold resolve_source_path, bind at 1, Path_cwd, bind at 1, is_file.
  destruct (fs w !! locate w (mkPath "/" (cwd w) // filename)) as [[data|]|] eqn:Ef.
  - by destruct (Hmiss data).
  - eexists _, w. split; [reflexivity|]. split; [apply effect_refl | by left].
  - unfold bind, syscall, ret. destruct (faults w) as [|[] fl] eqn:Efl; simpl.
    + eexists _, _. split; [reflexivity|]. split; [|by left].
      apply effect_set_faults. by rewrite Efl.
    + eexists _, _. split; [reflexivity|]. split; [|right; split; [done | by eexists]].
      apply effect_set_faults. rewrite Efl. by exists [true].
    + eexists _, _. split; [reflexivity|]. split; [|by left].
      apply effect_set_faults. rewrite Efl. by exists [false].
Qed.

Lemma resolve_source_path_found (filename : string) (w : W) (data : bytes) :
  fs w !! locate w (mkPath "/" (cwd w) // filename) = Some (File data) →
  resolve_source_path filename w = (Ok (mkPath "/" (cwd w) // filename), w).
Proof.
  intros Hf. unfold resolve_source_path, bind, Path_cwd, is_file. by rewrite Hf.
Qed.

Lemma parse_bool_invalid (value : string) (w : W) :
  Str.lower (Str.strip value) ∉ ["true"; "false"] →
  _parse_bool value "center" w
  = (Raise (SystemExit 1), set_stdout (stdout w ++ [flag_message value]) w).
Proof.
  intros Hbad. unfold _parse_bool, bind. by rewrite bool_decide_eq_false_2.
Qed.

Lemma parse_bool_valid (value : string) (w : W) :
  Str.lower (Str.strip value) ∈ ["true"; "false"] →
  _parse_bool value "center" w
  = (Ok (bool_decide (Str.lower (Str.strip value) = "true")), w).
Proof.
  intros Hok. unfold _parse_bool, bind. by rewrite bool_decide_eq_true_2.
Qed.

Lemma main_usage (argv : option (list string)) (w : W) :
  ¬ (2 ≤ length (arguments argv w) ≤ 3)%nat →
  main lib argv w = (Raise (SystemExit 1), set_stdout (stdout w ++ [usage]) w).
Proof.
  intros Hlen. unfold main, bind.
  destruct (2 <=? length (arguments argv w))%nat eqn:E1;
    destruct (length (arguments argv w) <=? 3)%nat eqn:E2; simpl; try done.
  apply Nat.leb_le in E1, E2. lia.
Qed.

Lemma main_invalid_flag (argv : option (list string)) (w : W)
    (filename project_folder value : string) :
  arguments argv w = [filename; project_folder; value] →
  Str.lower (Str.strip value) ∉ ["true"; "false"] →
  main lib argv w
  = (Raise (SystemExit 1), set_stdout (stdout w ++ [flag_message value]) w).
Proof.
  intros Hargs Hbad. unfold main, bind at 1. rewrite Hargs. unfold bind at 1. simpl.
  unfold bind at 1. by rewrite parse_bool_invalid.
Qed.

Lemma main_cases (argv : option (list string)) (w : W) :
  (¬ (2 ≤ length (arguments argv w) ≤ 3)%nat)
  ∨ (∃ filename project_folder value,
       arguments argv w = [filename; project_folder; value]
       ∧ Str.lower (Str.strip value) ∉ ["true"; "false"])
  ∨ (∃ filename project_folder rest,
       arguments argv w = filename :: project_folder :: rest
       ∧ match rest with
         | [] => True
         | [value] => Str.lower (Str.strip value) ∈ ["true"; "false"]
         | _ => False
         end).
Proof.
  destruct (arguments argv w) as [|filename [|project_folder [|value [|extra rest]]]];
    simpl.
  - left. lia.
  - left. lia.
  - right. right. by exists filename, project_folder, [].
  - destruct (decide (Str.lower (Str.strip value) ∈ ["true"; "false"])) as [Hok|Hbad].
    + right. right. by exists filename, project_folder, [value].
    + right. left. by exists filename, project_folder, value.
  - left. lia.
Qed.

(** With a well-formed command line, [main] is the guarded pipeline. *)
Lemma main_well_formed (argv : option (list string)) (w : W)
    (filename project_folder : string) (rest : list string) :
  arguments argv w = filename :: project_folder :: rest →
  match rest with
  | [] => True
  | [value] => Str.lower (Str.strip value) ∈ ["true"; "false"]
  | _ => False
  end →
  let center := match rest with
                | [value] => bool_decide (Str.lower (Str.strip value) = "true")
                | _ => true
                end in
  main lib argv w
  = try_except
      (do source_path <- resolve_source_path filename;
       generate_assets lib source_path project_folder center)
      (λ exc,
         match exc with
         | FileNotFoundError msg =>
             Some (do_ print ("File error: " +:+ msg); sys_exit 1)
         | OSError msg =>
             Some (do_ print ("I/O error: " +:+ msg); sys_exit 1)
         | SystemExit _ => None
         end) w.
Proof.
  intros Hargs Hrest center. unfold main, bind at 1. rewrite Hargs.
  destruct rest as [|value [|? ?]]; [| |done].
  - reflexivity.
  - unfold bind at 1. simpl. unfold bind at 1. by rewrite parse_bool_valid.
Qed.

Lemma main_missing_source (argv : option (list string)) (w : W)
    (filename project_folder : string) (rest : list string) :
  arguments argv w = filename :: project_folder :: rest →
  match rest with
  | [] => True
  | [value] => Str.lower (Str.strip value) ∈ ["true"; "false"]
  | _ => False
  end →
  missing w filename →
  ∃ line w',
    main lib argv w = (Raise (SystemExit 1), w')
    ∧ effect w w' [] [line]
    ∧ (line = "File error: " +:+ not_found_message w filename
       ∨ (head (faults w) = Some true ∧ ∃ msg, line = "I/O error: " +:+ msg)).
Proof.
  intros Hargs Hrest Hmiss.
  destruct (resolve_source_path_missing filename w Hmiss) as (e & w1 & Hres & E & He).
  rewrite (main_well_formed argv w _ _ _ Hargs Hrest).
  unfold try_except, bind at 1. rewrite Hres.
  destruct He as [-> | (Hf & msg & ->)].
  - eexists _, _. split; [reflexivity|]. split; [|by left].
    apply (effect_trans _ _ _ [] [] [] [_] E). unfold effect. simpl.
    by rewrite app_nil_r.
  - eexists _, _. split; [reflexivity|]. split; [|right; split; [done | by eexists]].
    apply (effect_trans _ _ _ [] [] [] [_] E). unfold effect. simpl.
    by rewrite app_nil_r.
Qed.

End MainRuns.

(** ** The reference library obeys the named assumptions *)

Section ReferenceFacts.

Lemma length_bind_const {A B} (f : A → list B) (l : list A) (n : nat) :
  (∀ x, length (f x) = n) → length (l ≫= f) = (length l * n)%nat.
Proof.
  intros Hf. induction l as [|x l IH]; [done|].
  rewrite bind_cons, length_app, IH, Hf. simpl. lia.
Qed.

Lemma reference_resize_exact : resize_exact Reference.library.
Proof.
  intros im [w h]. split; [done|]. simpl.
  rewrite (length_bind_const _ _ (Z.to_nat w)).
  - rewrite length_seqZ. lia.
  - intros y. by rewrite length_fmap, length_seqZ.
Qed.

Lemma reference_blend_extremes : blend_extremes Reference.library.
Proof.
  intros d s. simpl. split.
  - replace (d * (255 - 255) + s * 255) with (s * 255) by lia. by apply Z.div_mul.
  - replace (d * (255 - 0) + s * 0) with (d * 255) by lia. by apply Z.div_mul.
Qed.

Lemma reference_png_lossless : png_lossless Reference.library.
Proof. by intros optimize im. Qed.

Lemma reference_ready (center : bool) :
  ready Reference.library Reference.world Reference.source "myapp" center.
Proof.
  unfold ready.
  change (locate Reference.world (PurePath.parse "myapp")) with ["home"; "dev"; "myapp"].
  split; [apply not_elem_of_nil|].
  split; [by exists Reference.picture|].
  split.
  { intros k Hk data. simpl in Hk.
    repeat (apply elem_of_cons in Hk as [->|Hk]; [by vm_compute|]).
    by apply elem_of_nil in Hk. }
  split.
  { intros k Hk. vm_compute in Hk.
    repeat (apply elem_of_cons in Hk as [->|Hk]; [by vm_compute|]).
    by apply elem_of_nil in Hk. }
  intros _. split.
  { simpl. intros Hin.
    repeat (apply elem_of_cons in Hin as [?|Hin]; [done|]).
    by apply elem_of_nil in Hin. }
  exists ["tmp"; "tmpq3x8k2vd.png"]. split; [by left|]. split; [by vm_compute|].
  simpl. intros Hin.
  repeat (apply elem_of_cons in Hin as [?|Hin]; [done|]).
  by apply elem_of_nil in Hin.
Qed.

End ReferenceFacts.

(** * The claims *)

Section FinalState.
Context {bytes : Type} (lib : Library bytes).

(** After the last three writes, the manifest, the logo and the favicon
    hold what was written to them. *)
Lemma tail_writes_final (evs : list (event bytes)) (f : gmap key (node bytes))
    (out : Path) (project_folder : string) (original : Image) (w : World bytes) :
  let f' := replay (evs ++ tail_writes lib out project_folder original w) f in
  f' !! locate w (out // "logo.png")
  = Some (File (encode_png lib true (resize lib original (192, 192))))
  ∧ f' !! locate w (out // "favicon.ico")
    = Some (File (save_ico lib (resize lib original (32, 32)) ico_sizes)).
Proof.
  intros f'. subst f'. rewrite replay_app. unfold tail_writes, replay. simpl.
  rewrite !(locate_join_simple w out _ simple_manifest_json),
          !(locate_join_simple w out _ simple_logo),
          !(locate_join_simple w out _ simple_favicon).
  split.
  - rewrite lookup_insert_ne by (intros Heq; by apply app_inv_head in Heq).
    by rewrite lookup_insert_eq.
  - by rewrite lookup_insert_eq.
Qed.

Lemma icon_filename_size_str (prefix : string) (size : Z) :
  icon_filename prefix size = prefix +:+ "-" +:+ size_str size +:+ ".png".
Proof. unfold icon_filename, size_str. by rewrite !append_assoc. Qed.

Lemma replay_writes_other (out : key) (l : list (key * bytes))
    (f : gmap key (node bytes)) (k : key) :
  k ∉ (λ kd, out ++ fst kd) <$> l →
  replay (writes_below out l) f !! k = f !! k.
Proof.
  revert f. induction l as [|[r d] l IH]; intros f Hk; [done|].
  rewrite fmap_cons in Hk. apply not_elem_of_cons in Hk as [Hne Hk].
  unfold writes_below, replay in *. rewrite fmap_cons. simpl.
  rewrite IH by done. by rewrite lookup_insert_ne.
Qed.

Lemma replay_writes_lookup (out : key) (l : list (key * bytes))
    (f : gmap key (node bytes)) (rel : key) (data : bytes) :
  NoDup (fst <$> l) → (rel, data) ∈ l →
  replay (writes_below out l) f !! (out ++ rel) = Some (File data).
Proof.
  revert f. induction l as [|[r d] l IH]; intros f Hnd Hin.
  - by apply elem_of_nil in Hin.
  - rewrite fmap_cons in Hnd. apply NoDup_cons in Hnd as [Hfresh Hnd].
    apply elem_of_cons in Hin as [Heq|Hin].
    + injection Heq as -> ->.
      change (writes_below out ((r, d) :: l))
        with (EvWrite (out ++ r) d :: writes_below out l).
      unfold replay. simpl. fold (replay (writes_below out l) (<[out ++ r := File d]> f)).
      rewrite replay_writes_other; [by rewrite lookup_insert_eq|].
      intros Hk. apply list_elem_of_fmap in Hk as ([r' d'] & Heq & Hin').
      simpl in Heq. apply app_inv_head in Heq as <-.
      apply Hfresh. apply list_elem_of_fmap. by exists (r, d').
    + change (writes_below out ((r, d) :: l))
        with (EvWrite (out ++ r) d :: writes_below out l).
      unfold replay. simpl. fold (replay (writes_below out l) (<[out ++ r := File d]> f)).
      by apply IH.
Qed.

Lemma icon_writes_flat (sizes : list Z) (prefixes : list string) (base : Image)
    (mdir : Path) (w : World bytes) :
  (∀ size prefix, size ∈ sizes → prefix ∈ prefixes →
                  simple_name (icon_filename prefix size)) →
  icon_writes lib sizes prefixes base mdir w
  = (λ v : Z * string,
       EvWrite (locate w mdir ++ [icon_filename (snd v) (fst v)])
               (encode_png lib true (resize lib base (fst v, fst v))))
      <$> (size ← sizes; prefix ← prefixes; [(size, prefix)]).
Proof.
  intros Hsimple. unfold icon_writes.
  induction sizes as [|size sizes IH]; [done|].
  rewrite !bind_cons, fmap_app.
  rewrite IH by (intros s p Hs Hp; apply Hsimple; [by right | done]).
  f_equal. unfold prefix_writes.
  assert (∀ prefix, prefix ∈ prefixes → simple_name (icon_filename prefix size)) as Hp.
  { intros prefix Hin. apply Hsimple; [by left | done]. }
  clear IH Hsimple. induction prefixes as [|prefix prefixes IH]; [done|].
  rewrite !bind_cons, fmap_app, IH by (intros p Hin; apply Hp; by right).
  f_equal. simpl. by rewrite (locate_join_simple _ _ _ (Hp prefix ltac:(by left))).
Qed.

Lemma simple_icon_name (size : Z) (prefix : string) :
  size ∈ MANIFEST_SIZES → prefix ∈ MANIFEST_PREFIXES →
  simple_name (icon_filename prefix size).
Proof.
  intros Hs Hp. pose proof simple_icon_names as Hall. rewrite Forall_forall in Hall.
  specialize (Hall size Hs). rewrite Forall_forall in Hall. by apply Hall.
Qed.

End FinalState.

(** C1: a successful run of the icon emitter writes exactly
    [|S| * |P|] = 9 * 2 = 18 files, [S] being the configured size set and
    [P] the configured prefixes: after the directories it had to create,
    its file-system events are one write per size and prefix, in the order
    of the loops, each to the file [<prefix>-<size>x<size>.png] directly in
    the manifest directory; the 18 files are pairwise distinct and each
    holds, at the end, the PNG of the base resized to its size.  The
    manifest's icon list has as many entries, and its i-th entry is the one
    of the i-th file: its [src] ends in the file's name and its [sizes] is
    the [<size>x<size>] of that name. *)
Theorem icon_set_and_manifest_counts {bytes : Type} (lib : Library bytes)
    (base : Image) (manifest_dir : Path) (w w' : World bytes) :
  generate_manifest_icons lib base manifest_dir w = (Ok tt, w') →
  let target := λ v : Z * string,
                  locate w manifest_dir ++ [icon_filename (snd v) (fst v)] in
  let content := λ v : Z * string,
                   encode_png lib true (resize lib base (fst v, fst v)) in
  (∃ made,
     trace w' = trace w ++ (EvMkdir <$> made)
                  ++ ((λ v, EvWrite (target v) (content v)) <$> icon_variants))
  ∧ length icon_variants = (length MANIFEST_SIZES * length MANIFEST_PREFIXES)%nat
  ∧ length icon_variants = 18%nat
  ∧ NoDup (target <$> icon_variants)
  ∧ (∀ v, v ∈ icon_variants → fs w' !! target v = Some (File (content v)))
  ∧ (∀ v, icon_filename (snd v) (fst v) = snd v +:+ "-" +:+ size_str (fst v) +:+ ".png")
  ∧ length (manifest_icons_over MANIFEST_SIZES) = length icon_variants
  ∧ manifest_icons_over MANIFEST_SIZES
    = (λ v, icon_entry (snd v) (purpose_of (snd v)) (fst v)) <$> icon_variants
  ∧ ∀ prefix purpose size,
      jget "sizes" (icon_entry prefix purpose size) = Some (JStr (size_str size))
      ∧ jget "src" (icon_entry prefix purpose size)
        = Some (JStr ("/assets/media/img/manifest/" +:+ icon_filename prefix size)).
Proof.
  intros Hrun target content.
  apply generate_manifest_icons_over_Ok in Hrun as (made & He & _).
  rewrite (icon_writes_flat lib) in He by (intros; by apply simple_icon_name).
  fold icon_variants in He.
  assert (NoDup ((λ v : Z * string, [icon_filename (snd v) (fst v)]) <$> icon_variants))
    as Hnames by (apply (bool_decide_unpack _); by vm_compute).
  split; [exists made; apply He|].
  split; [reflexivity|]. split; [reflexivity|].
  split.
  { replace (target <$> icon_variants)
      with ((λ name, locate w manifest_dir ++ name)
              <$> ((λ v : Z * string, [icon_filename (snd v) (fst v)]) <$> icon_variants))
      by (by rewrite <- list_fmap_compose).
    apply NoDup_fmap_2; [|done]. intros x y. apply app_inv_head. }
  split.
  { intros v Hv. destruct He as (_ & _ & -> & _). rewrite replay_app.
    replace ((λ v, EvWrite (target v) (content v)) <$> icon_variants)
      with (writes_below (locate w manifest_dir)
              ((λ v : Z * string, ([icon_filename (snd v) (fst v)], content v))
                 <$> icon_variants))
      by (unfold writes_below; by rewrite <- list_fmap_compose).
    apply (replay_writes_lookup _ _ _ [icon_filename (snd v) (fst v)]).
    - by rewrite <- list_fmap_compose.
    - apply list_elem_of_fmap. by exists v. }
  split; [intros v; apply icon_filename_size_str|].
  split; [by rewrite manifest_icons_over_length|].
  split; [by vm_compute|].
  intros prefix purpose size. by split.
Qed.

Lemma icon_set_and_manifest_counts_witness :
  ∃ w',
    generate_manifest_icons Reference.library Reference.picture
      (PurePath.parse "myapp" // "manifest") Reference.world
    = (Ok tt, w')
    ∧ fs w' !! ["home"; "dev"; "myapp"; "manifest"; "maskable-icon-72x72.png"]
      = Some (File (Reference.Png true (Reference.nearest Reference.picture (72, 72))))
    ∧ length (manifest_icons_over MANIFEST_SIZES) = 18%nat.
Proof.
  destruct (reference_ready false) as (Hc & _ & Hfree & Hout & _).
  destruct (generate_manifest_icons_calm Reference.library (PurePath.parse "myapp")
              Reference.picture Reference.world Hc Hfree Hout) as (w' & Hrun & _).
  exists w'. split; [exact Hrun|].
  destruct (icon_set_and_manifest_counts _ _ _ _ _ Hrun)
    as (_ & _ & H18 & _ & Hfiles & _ & Hlen & _).
  split.
  - apply (Hfiles (72, "maskable-icon")). apply (bool_decide_unpack _). by vm_compute.
  - by rewrite Hlen.
Defined.

(** C2: with a resampler that returns images of the requested size, the
    canvas compositor returns a 500x500 image; the source resized to
    320x320 is pasted at offset
    [((500 - 320) // 2, (500 - 320) // 2) = (90, 90)]: every pixel of the
    canvas outside that square is fully transparent, and every pixel inside
    it is the corresponding pixel of the resized source blended onto
    transparency under its own alpha (copied as it is where it is opaque). *)
Theorem canvas_is_centred {bytes : Type} (lib : Library bytes) (img : Image) :
  resize_exact lib → blend_extremes lib →
  let out := centre_on_canvas lib img CANVAS_SIZE INNER_SIZE in
  let ox := (fst CANVAS_SIZE - fst INNER_SIZE) `div` 2 in
  let oy := (snd CANVAS_SIZE - snd INNER_SIZE) `div` 2 in
  im_size out = (500, 500)
  ∧ (ox, oy) = (90, 90)
  ∧ ∀ x y, 0 ≤ x < 500 → 0 ≤ y < 500 →
      if bool_decide (ox ≤ x < ox + 320 ∧ oy ≤ y < oy + 320) then
        ∃ src,
          getpixel (resize lib img INNER_SIZE) (x - ox) (y - oy) = Some src
          ∧ getpixel out x y = Some (blend_px lib (alpha src) (0, 0, 0, 0) src)
          ∧ (alpha src = 255 → getpixel out x y = Some src)
          ∧ (alpha src = 0 → getpixel out x y = Some (0, 0, 0, 0))
      else getpixel out x y = Some (0, 0, 0, 0).
Proof.
  intros Hres Hblend out ox oy.
  destruct (centre_on_canvas_spec lib img 500 500 320 320 Hres) as [Hsz Hpx].
  split; [exact Hsz|]. split; [reflexivity|].
  intros x y Hx Hy. specialize (Hpx x y Hx Hy).
  subst out ox oy. unfold CANVAS_SIZE, INNER_SIZE. simpl fst. simpl snd.
  case_bool_decide; [|exact Hpx].
  destruct Hpx as (src & Hsrc & Hout). exists src.
  split; [exact Hsrc|]. split; [exact Hout|]. split.
  - intros Ha. rewrite Hout, Ha. f_equal. by apply blend_px_opaque.
  - intros Ha. rewrite Hout, Ha. f_equal. by apply blend_px_clear.
Qed.

Lemma canvas_is_centred_witness :
  im_size (centre_on_canvas Reference.library Reference.picture CANVAS_SIZE INNER_SIZE)
  = (500, 500).
Proof.
  exact (proj1 (canvas_is_centred Reference.library Reference.picture
                  reference_resize_exact reference_blend_extremes)).
Defined.

(** C3: a successful run with [center = false] creates the output
    directories and then writes the icons resized directly from the image
    decoded from the source file, whatever its size, followed by the
    manifest, the logo and the favicon; it creates no scratch file, and it
    does not depend on how [paste] blends, that is, the canvas compositor
    takes no part in it. *)
Theorem uncentred_icons_come_from_original {bytes : Type} (lib : Library bytes)
    (source_path : Path) (project_folder : string) (w w' : World bytes) :
  generate_assets lib source_path project_folder false w = (Ok tt, w') →
  let out := PurePath.parse project_folder in
  (∃ original made1 made2,
     image_at lib w source_path = Some original
     ∧ trace w' = trace w ++ (EvMkdir <$> made1) ++ (EvMkdir <$> made2)
                    ++ icon_writes lib MANIFEST_SIZES MANIFEST_PREFIXES original
                         (out // "manifest") w
                    ++ tail_writes lib out project_folder original w)
  ∧ tmp_names w' = tmp_names w
  ∧ ∀ lib', same_but_blend lib lib' →
            generate_assets lib' source_path project_folder false w
            = generate_assets lib source_path project_folder false w.
Proof.
  intros Hrun out. split; [|split].
  - apply generate_assets_Ok in Hrun
      as (original & base & made1 & scratch & made2 & Him & Hbase & Hscr & He).
    simpl in Hbase, Hscr. subst base scratch.
    exists original, made1, made2. split; [done|]. apply He.
  - unfold generate_assets in Hrun.
    apply bind_Ok in Hrun as ([] & w1 & Hm & Hrun).
    apply bind_Ok in Hrun as (original & w2 & Ho & Hrun).
    apply bind_Ok in Hrun as (base & w3 & Hb & Hrun).
    unfold ret in Hb. simplify_eq.
    apply mkdir_p_Ok in Hm as (_ & _ & T1 & _).
    apply open_and_convert_Ok in Ho as (_ & T2 & _).
    apply emit_assets_Ok in Hrun as (_ & _ & T3). congruence.
  - intros lib' (H1 & H2 & H3 & H4 & H5 & H6 & H7).
    destruct lib, lib'. simpl in *. subst. reflexivity.
Qed.

Lemma uncentred_icons_come_from_original_witness :
  ∃ w',
    generate_assets Reference.library Reference.source "myapp" false Reference.world
    = (Ok tt, w')
    ∧ tmp_names w' = tmp_names Reference.world
    ∧ generate_assets Reference.blanking Reference.source "myapp" false Reference.world
      = (Ok tt, w').
Proof.
  destruct (generate_assets_calm Reference.library Reference.source "myapp" false
              Reference.world reference_png_lossless (reference_ready false)) as [w' Hrun].
  exists w'. split; [exact Hrun|].
  destruct (uncentred_icons_come_from_original _ _ _ _ _ Hrun) as (_ & Ht & Hindep).
  split; [exact Ht|]. rewrite <- Hrun. apply Hindep. by repeat split.
Defined.


(** C5 (what the code does): the favicon is written from one resize of the
    source to 32x32, and of the five declared slots Pillow's ICO writer
    keeps only 32x32, the others being bigger than the image it is given:
    the container holds that single frame. *)
Theorem favicon_holds_one_frame {bytes : Type} (lib : Library bytes)
    (src : Image) (dest : Path) :
  resize_exact lib →
  ico_slots (resize lib src (32, 32)) ico_sizes = [(32, 32)]
  ∧ generate_favicon lib src dest
    = write_file dest (encode_ico lib [resize lib src (32, 32)]).
Proof.
  intros Hres. destruct (Hres src (32, 32)) as [Hsz _].
  split; [by apply ico_slots_32|].
  unfold generate_favicon. by rewrite save_ico_32.
Qed.

Lemma favicon_holds_one_frame_witness :
  ico_slots (resize Reference.library Reference.picture (32, 32)) ico_sizes = [(32, 32)].
Proof.
  exact (proj1 (favicon_holds_one_frame Reference.library Reference.picture
                  Reference.source reference_resize_exact)).
Defined.

(** C6: with a lossless PNG codec, whatever happens inside the centring
    step (the scratch file cannot be created, the save fails, the re-read
    fails, or all succeed), the file system after the step is the one before
    it, so the scratch file is gone on every exit; when the step succeeds,
    the image it returns is the in-memory output of the canvas compositor,
    the scratch file having been created, written and removed; and in a
    successful run with [center = true] the icons are resized from exactly
    that output. *)
Theorem scratch_file_is_unobservable {bytes : Type} (lib : Library bytes) :
  png_lossless lib →
  (∀ (original : Image) (w w' : World bytes) (r : result Image),
     centred_base lib original w = (r, w') →
     fs w' = fs w
     ∧ ∀ base, r = Ok base →
         base = centre_on_canvas lib original CANVAS_SIZE INNER_SIZE
         ∧ ∃ n, fs w !! n = None
                ∧ trace w' = trace w ++ scratch_events lib original n)
  ∧ ∀ (source_path : Path) (project_folder : string) (w w' : World bytes),
      generate_assets lib source_path project_folder true w = (Ok tt, w') →
      ∃ original made1 n made2,
        image_at lib w source_path = Some original
        ∧ trace w'
          = trace w ++ (EvMkdir <$> made1) ++ scratch_events lib original n
              ++ (EvMkdir <$> made2)
              ++ icon_writes lib MANIFEST_SIZES MANIFEST_PREFIXES
                   (centre_on_canvas lib original CANVAS_SIZE INNER_SIZE)
                   (PurePath.parse project_folder // "manifest") w
              ++ tail_writes lib (PurePath.parse project_folder) project_folder
                   original w.
Proof.
  intros Hpng. split.
  - intros original w w' r Hrun.
    split; [by apply centred_base_restores in Hrun as (? & _)|].
    intros base ->. apply centred_base_Ok in Hrun as (Hbase & n & _ & Hfree & He).
    unfold chosen_base in Hbase. rewrite Hpng in Hbase. split; [by simplify_eq|].
    exists n. split; [done | apply He].
  - intros source_path project_folder w w' Hrun.
    apply generate_assets_Ok in Hrun
      as (original & base & made1 & scratch & made2 & Him & Hbase & Hscr & He).
    unfold chosen_base in Hbase. rewrite Hpng in Hbase. simplify_eq.
    destruct Hscr as (n & _ & ->).
    exists original, made1, n, made2. split; [done | apply He].
Qed.

Lemma scratch_file_is_unobservable_witness :
  ∃ w',
    centred_base Reference.library Reference.picture Reference.world
    = (Ok (centre_on_canvas Reference.library Reference.picture CANVAS_SIZE INNER_SIZE), w')
    ∧ fs w' = fs Reference.world.
Proof.
  destruct (centred_base_calm Reference.library Reference.picture Reference.world
              ["tmp"; "tmpq3x8k2vd.png"]) as [w' Hrun].
  - apply not_elem_of_nil.
  - exact reference_png_lossless.
  - by left.
  - by vm_compute.
  - simpl. intros Hin.
    repeat (apply elem_of_cons in Hin as [?|Hin]; [done|]).
    by apply elem_of_nil in Hin.
  - exists w'. split; [exact Hrun|].
    exact (proj1 (proj1 (scratch_file_is_unobservable Reference.library
                           reference_png_lossless) _ _ _ _ Hrun)).
Defined.






(** C9: in two successful runs from the same world, one with centring and
    one without, [logo.png] holds the PNG of the decoded source resized to
    192x192 and [favicon.ico] the ICO saved from the decoded source resized
    to 32x32: both files come from the image before centring and are the
    same in the two runs. *)
Theorem logo_and_favicon_ignore_centring {bytes : Type} (lib : Library bytes)
    (source_path : Path) (project_folder : string) (w wc wu : World bytes) :
  generate_assets lib source_path project_folder true w = (Ok tt, wc) →
  generate_assets lib source_path project_folder false w = (Ok tt, wu) →
  let out := PurePath.parse project_folder in
  ∃ original,
    image_at lib w source_path = Some original
    ∧ fs wc !! locate w (out // "logo.png")
      = Some (File (encode_png lib true (resize lib original (192, 192))))
    ∧ fs wu !! locate w (out // "logo.png")
      = Some (File (encode_png lib true (resize lib original (192, 192))))
    ∧ fs wc !! locate w (out // "favicon.ico")
      = Some (File (save_ico lib (resize lib original (32, 32)) ico_sizes))
    ∧ fs wu !! locate w (out // "favicon.ico")
      = Some (File (save_ico lib (resize lib original (32, 32)) ico_sizes)).
Proof.
  intros Hc Hu out.
  apply generate_assets_Ok in Hc
    as (original & base & made1 & scratch & made2 & Him & _ & _ & Ec).
  apply generate_assets_Ok in Hu
    as (original' & base' & made1' & scratch' & made2' & Him' & _ & _ & Eu).
  assert (original' = original) as -> by congruence.
  exists original. split; [done|].
  destruct Ec as (_ & _ & -> & _). destruct Eu as (_ & _ & -> & _).
  fold out. rewrite !app_assoc.
  destruct (tail_writes_final lib
              ((((EvMkdir <$> made1) ++ scratch) ++ (EvMkdir <$> made2))
                 ++ icon_writes lib MANIFEST_SIZES MANIFEST_PREFIXES base
                      (out // "manifest") w)
              (fs w) out project_folder original w) as [Hl Hf].
  destruct (tail_writes_final lib
              ((((EvMkdir <$> made1') ++ scratch') ++ (EvMkdir <$> made2'))
                 ++ icon_writes lib MANIFEST_SIZES MANIFEST_PREFIXES base'
                      (out // "manifest") w)
              (fs w) out project_folder original w) as [Hl' Hf'].
  by repeat split.
Qed.

Lemma logo_and_favicon_ignore_centring_witness :
  ∃ wc wu,
    generate_assets Reference.library Reference.source "myapp" true Reference.world
    = (Ok tt, wc)
    ∧ generate_assets Reference.library Reference.source "myapp" false Reference.world
      = (Ok tt, wu)
    ∧ fs wc !! ["home"; "dev"; "myapp"; "logo.png"]
      = fs wu !! ["home"; "dev"; "myapp"; "logo.png"].
Proof.
  destruct (generate_assets_calm Reference.library Reference.source "myapp" true
              Reference.world reference_png_lossless (reference_ready true)) as [wc Hc].
  destruct (generate_assets_calm Reference.library Reference.source "myapp" false
              Reference.world reference_png_lossless (reference_ready false)) as [wu Hu].
  exists wc, wu. split; [exact Hc|]. split; [exact Hu|].
  destruct (logo_and_favicon_ignore_centring _ _ _ _ _ _ Hc Hu)
    as (original & _ & Hlc & Hlu & _).
  change (locate Reference.world (PurePath.parse "myapp" // "logo.png"))
    with ["home"; "dev"; "myapp"; "logo.png"] in Hlc, Hlu.
  by rewrite Hlc, Hlu.
Defined.

(** C10: the manifest's icon list follows the configured size set, which
    is in strictly ascending order, and holds for the i-th size the entry of
    purpose [any] (prefix [icon]) at position 2i, immediately followed at
    position 2i+1 by the entry of purpose [maskable] (prefix
    [maskable-icon]). *)
Theorem manifest_icons_are_ordered (project_folder : string) :
  jget "icons" (manifest_over MANIFEST_SIZES project_folder)
  = Some (JList (manifest_icons_over MANIFEST_SIZES))
  ∧ manifest_icons_over MANIFEST_SIZES
    = (size ← MANIFEST_SIZES;
       [icon_entry "icon" "any" size; icon_entry "maskable-icon" "maskable" size])
  ∧ StronglySorted Z.lt MANIFEST_SIZES
  ∧ ∀ i size, MANIFEST_SIZES !! i = Some size →
      manifest_icons_over MANIFEST_SIZES !! (2 * i)%nat
      = Some (icon_entry "icon" "any" size)
      ∧ manifest_icons_over MANIFEST_SIZES !! (2 * i + 1)%nat
        = Some (icon_entry "maskable-icon" "maskable" size)
      ∧ jget "purpose" (icon_entry "icon" "any" size) = Some (JStr "any")
      ∧ jget "purpose" (icon_entry "maskable-icon" "maskable" size)
        = Some (JStr "maskable").
Proof.
  split; [apply jget_icons|]. split; [apply manifest_icons_over_flat|]. split.
  - unfold MANIFEST_SIZES. repeat (constructor; [|repeat constructor; lia]). constructor.
  - intros i size Hi. destruct (manifest_icons_over_lookup _ _ _ Hi) as [H1 H2].
    by repeat split.
Qed.

(** * Further properties *)

(** ** Every outcome of the system calls *)

Section Outcomes.
Context {bytes : Type} (lib : Library bytes).

Local Abbreviation W := (World bytes).

Lemma syscall_confined (c0 : key) (K : key → Prop) : confined c0 K (@syscall bytes).
Proof.
  intros w r w' Hc Hrun. apply syscall_any in Hrun as Hw. destruct Hw as (fl & -> & _).
  simpl. split; [done|]. split; [done|]. split; [|by split].
  intros e ->. unfold syscall in Hrun. by destruct (faults w) as [|[] ?]; simplify_eq.
Qed.

Lemma ret_confined (c0 : key) (K : key → Prop) {A} (a : A) :
  confined c0 K (@ret bytes A a).
Proof. intros w r w' Hc Hrun. unfold ret in Hrun. by simplify_eq. Qed.

Lemma raise_confined (c0 : key) (K : key → Prop) {A} (e : exn) :
  os_error e → confined c0 K (@raise bytes A e).
Proof.
  intros He w r w' Hc Hrun. unfold raise in Hrun. simplify_eq.
  repeat split; try done. by intros e' [= <-].
Qed.

Lemma bind_confined (c0 : key) (K : key → Prop) {A B}
    (m : M bytes A) (k : A → M bytes B) :
  confined c0 K m → (∀ a, confined c0 K (k a)) → confined c0 K (bind m k).
Proof.
  intros Hm Hk w r w' Hc Hrun. unfold bind in Hrun.
  destruct (m w) as [[a|e] w1] eqn:Em.
  - destruct (Hm _ _ _ Hc Em) as (Hc1 & Ho1 & _ & Hf1 & Hs1).
    destruct (Hk a _ _ _ Hc1 Hrun) as (Hc2 & Ho2 & He2 & Hf2 & Hs2).
    split; [done|]. split; [congruence|]. split; [done|]. split.
    + intros k' Hk'. rewrite Hf2, Hf1; done.
    + intros k' Hk'. by apply Hs2, Hs1.
  - injection Hrun as <- <-.
    destruct (Hm _ _ _ Hc Em) as (Hc1 & Ho1 & He1 & Hf1 & Hs1).
    split; [done|]. split; [done|]. split; [|by split].
    intros e' [= <-]. by apply He1.
Qed.

Lemma for_each_confined (c0 : key) (K : key → Prop) {A}
    (l : list A) (body : A → M bytes unit) :
  (∀ x, x ∈ l → confined c0 K (body x)) → confined c0 K (for_each l body).
Proof.
  induction l as [|x l IH]; intros Hbody; simpl.
  - apply ret_confined.
  - apply bind_confined.
    + apply Hbody. by left.
    + intros _. apply IH. intros y Hy. apply Hbody. by right.
Qed.

Lemma mkdir_walk_keeps (d t : key) (f f' : gmap key (node bytes)) (made made' : list key) :
  mkdir_walk d t f made = Some (f', made') →
  ∀ k, k ∈ walk_keys d t → f !! k = None ∨ f !! k = Some Dir.
Proof.
  revert d f made. induction t as [|c t IH]; intros d f made H k Hk; simpl in *.
  - by apply elem_of_nil in Hk.
  - destruct (f !! (d ++ [c])) as [[data|]|] eqn:Ef; [done | |].
    + apply elem_of_cons in Hk as [->|Hk]; [by right | by eapply IH].
    + apply elem_of_cons in Hk as [->|Hk]; [by left|].
      destruct (IH _ _ _ H k Hk) as [Hn|Hd].
      * left. rewrite lookup_insert_ne in Hn; [done|].
        intros <-. by apply walk_keys_not_start in Hk.
      * right. rewrite lookup_insert_ne in Hd; [done|].
        intros <-. by apply walk_keys_not_start in Hk.
Qed.

(** [mkdir_p] either fails and changes nothing, or turns every missing
    directory of the path into a directory and changes nothing else. *)
Lemma mkdir_p_cases (p : Path) (w w' : W) r :
  mkdir_p p w = (r, w') →
  cwd w' = cwd w ∧ stdout w' = stdout w ∧ tmp_names w' = tmp_names w
  ∧ ((∃ e, r = Raise e ∧ os_error e ∧ fs w' = fs w ∧ trace w' = trace w)
     ∨ (r = Ok tt
        ∧ (∀ k, fs w' !! k
                = if decide (k ∈ walk_keys [] (locate w p)) then Some Dir
                  else fs w !! k)
        ∧ ∀ k, k ∈ walk_keys [] (locate w p) →
               fs w !! k = None ∨ fs w !! k = Some Dir)).
Proof.
  unfold mkdir_p, bind. intros H.
  destruct (syscall w) as [[[]|e] w1] eqn:Hs.
  - apply syscall_Ok in Hs as ->. revert H. rewrite locate_set_faults. simpl.
    destruct (mkdir_walk [] (locate w p) (fs w) []) as [[f made]|] eqn:E.
    + intros H. simplify_eq. simpl. repeat split; try done. right.
      split; [done|]. split.
      * by apply mkdir_walk_Some in E as [_ Hl].
      * by eapply mkdir_walk_keeps.
    + intros H. simplify_eq. simpl. repeat split; try done. left.
      by exists (OSError "File exists").
  - pose proof (syscall_confined (cwd w) (λ _, False) w _ _ eq_refl Hs)
      as (Hc & Ho & He & Hf & _).
    apply syscall_any in Hs as (fl & -> & _). simplify_eq. simpl.
    repeat split; try done. left. exists e. repeat split; try done. by apply He.
Qed.

Lemma mkdir_p_confined (c0 : key) (K : key → Prop) (p : Path) :
  (∀ w : W, cwd w = c0 → ∀ k, k ∈ walk_keys [] (locate w p) → K k) →
  confined c0 K (@mkdir_p bytes p).
Proof.
  intros HK w r w' Hc Hrun.
  apply mkdir_p_cases in Hrun as (Hc' & Ho & _ & [(e & -> & He & Hf & _)|(-> & Hl & Hkeep)]).
  - split; [congruence|]. split; [done|]. split; [by intros e' [= <-]|].
    rewrite Hf. by split.
  - split; [congruence|]. split; [done|]. split; [done|]. split.
    + intros k Hk. rewrite Hl, decide_False; [done|]. intros Hin. apply Hk. by eapply HK.
    + intros k Hk. rewrite Hl. by case_decide.
Qed.

(** [write_file] either fails and changes nothing, or stores the data. *)
Lemma write_file_cases (p : Path) (data : bytes) (w w' : W) r :
  write_file p data w = (r, w') →
  tmp_names w' = tmp_names w
  ∧ ((r = Ok tt ∧ effect w w' [EvWrite (locate w p) data] [])
     ∨ (∃ e, r = Raise e ∧ os_error e ∧ effect w w' [] [])).
Proof.
  intros H. destruct r as [[]|e].
  - apply write_file_Ok in H as (He & _ & Ht). split; [done|]. by left.
  - revert H. unfold write_file, bind. destruct (syscall w) as [[[]|e'] w1] eqn:Hs.
    + apply syscall_Ok in Hs as ->. cbv zeta. rewrite !locate_set_faults. simpl.
      assert (effect w (set_faults (tail (faults w)) w) [] []) as Hsame.
      { apply effect_set_faults. destruct (faults w) as [|? ?]; [done | by exists [b]]. }
      destruct (locate w p) as [|c k].
      { intros H. simplify_eq. split; [done|]. right. by eexists. }
      destruct (fs w !! (c :: k)) as [[d|]|]; [done | |].
      { intros H. simplify_eq. split; [done|]. right. by eexists. }
      destruct (dir_at (fs w) (removelast (c :: k))); [done|].
      destruct (fs w !! removelast (c :: k)) as [[|]|]; intros H; simplify_eq;
        (split; [done|]); right; by eexists.
    + pose proof (syscall_confined (cwd w) (λ _, False) w _ _ eq_refl Hs)
        as (_ & _ & He & _ & _).
      apply syscall_any in Hs as (fl & -> & Hfl). intros H. simplify_eq.
      split; [done|]. right. exists e. split; [done|]. split; [by apply He|].
      by apply effect_set_faults.
Qed.

Lemma write_file_confined (c0 : key) (K : key → Prop) (p : Path) (data : bytes) :
  (∀ w : W, cwd w = c0 → K (locate w p)) →
  confined c0 K (write_file p data).
Proof.
  intros HK w r w' Hc Hrun.
  apply write_file_cases in Hrun
    as (_ & [(-> & Hcw & _ & Hf & Ho & _)|(e & -> & He & Hcw & _ & Hf & Ho & _)]).
  - split; [congruence|]. split; [by rewrite Ho, app_nil_r|]. split; [done|].
    rewrite Hf. simpl. split.
    + intros k Hk. rewrite lookup_insert_ne; [done|]. intros <-. by apply Hk, HK.
    + intros k Hk. destruct (decide (locate w p = k)) as [<-|Hne].
      * by rewrite lookup_insert_eq.
      * by rewrite lookup_insert_ne.
  - split; [congruence|]. split; [by rewrite Ho, app_nil_r|].
    split; [by intros e' [= <-]|]. rewrite Hf. by split.
Qed.

Lemma open_and_convert_confined (c0 : key) (K : key → Prop) (p : Path) :
  confined c0 K (open_and_convert_img_to_rgb lib p).
Proof.
  intros w r w' Hc Hrun.
  pose proof (open_and_convert_any lib _ _ _ _ Hrun) as (Hf & Hcw & Ho).
  split; [congruence|]. split; [done|]. split; [|rewrite Hf; by split].
  intros e ->. revert Hrun.
  unfold open_and_convert_img_to_rgb, read_file, bind.
  destruct (syscall w) as [[[]|e'] w1] eqn:Hs.
  - apply syscall_Ok in Hs as ->. rewrite locate_set_faults. simpl.
    destruct (fs w !! locate w p) as [[d|]|]; [| intros H; by simplify_eq..].
    unfold ret, raise. destruct (decode_rgba lib d); intros H; by simplify_eq.
  - pose proof (syscall_confined (cwd w) (λ _, False) w _ _ eq_refl Hs)
      as (_ & _ & He & _ & _).
    intros H. simplify_eq. by apply He.
Qed.

End Outcomes.

(** ** Every outcome of the program's functions *)

Section ProgramOutcomes.
Context {bytes : Type} (lib : Library bytes).

Local Abbreviation W := (World bytes).

Lemma confined_tame (c0 : key) (K : key → Prop) {A} (c : M bytes A) :
  (∀ c0, confined c0 K c) → tame c.
Proof.
  intros Hc w e w' Hrun.
  destruct (Hc (cwd w) w _ _ eq_refl Hrun) as (_ & _ & He & _). by apply He.
Qed.

Lemma bind_tame {A B} (m : M bytes A) (k : A → M bytes B) :
  tame m → (∀ a, tame (k a)) → tame (bind m k).
Proof.
  intros Hm Hk w e w' Hrun. unfold bind in Hrun.
  destruct (m w) as [[a|e'] w1] eqn:Em.
  - by eapply Hk.
  - injection Hrun as <- <-. by eapply Hm.
Qed.

Lemma try_finally_tame {A} (body : M bytes A) (fin : M bytes unit) :
  tame body → tame fin → tame (try_finally body fin).
Proof.
  intros Hb Hf w e w' Hrun. unfold try_finally in Hrun.
  destruct (body w) as [r0 w1] eqn:Eb. destruct (fin w1) as [[[]|e'] w2] eqn:Ef.
  - injection Hrun as -> <-. by eapply Hb.
  - injection Hrun as <- <-. by eapply Hf.
Qed.

Lemma unlink_tame (p : Path) : tame (@unlink_missing_ok bytes p).
Proof.
  intros w e w'. unfold unlink_missing_ok. cbv zeta.
  destruct (fs w !! locate w p) as [[d|]|]; intros H; by simplify_eq.
Qed.

Lemma NamedTemporaryFile_tame : tame (NamedTemporaryFile lib).
Proof.
  apply bind_tame.
  - apply (confined_tame [] (λ _, False)). intros c0. apply syscall_confined.
  - intros _ w e w'. destruct (first_free (fs w) (tmp_names w)) as [[n rest]|];
      intros H; by simplify_eq.
Qed.

Lemma centred_base_tame (original : Image) : tame (centred_base lib original).
Proof.
  apply bind_tame; [apply NamedTemporaryFile_tame|]. intros p.
  apply try_finally_tame; [|apply unlink_tame].
  apply bind_tame.
  - apply (confined_tame [] (λ _, True)). intros c0. by apply write_file_confined.
  - intros _. apply (confined_tame [] (λ _, True)). intros c0.
    apply open_and_convert_confined.
Qed.

Lemma centred_base_confined (c0 : key) (K : key → Prop) (original : Image) :
  confined c0 K (centred_base lib original).
Proof.
  intros w r w' Hc Hrun.
  pose proof (centred_base_restores lib _ _ _ _ Hrun) as (Hf & Hcw & Ho).
  split; [congruence|]. split; [done|]. split; [|rewrite Hf; by split].
  intros e ->. by eapply centred_base_tame.
Qed.

(** The keys of the icon files, the manifest, the logo and the favicon
    below the output directory. *)
Lemma locate_outputs (project_folder : string) (w : W) :
  let out := PurePath.parse project_folder in
  (∀ size prefix, size ∈ MANIFEST_SIZES → prefix ∈ MANIFEST_PREFIXES →
     locate w (out // "manifest" // icon_filename prefix size)
     = locate w out ++ ["manifest"; icon_filename prefix size])
  ∧ locate w (out // "manifest") = locate w out ++ ["manifest"]
  ∧ locate w (out // "manifest.json") = locate w out ++ ["manifest.json"]
  ∧ locate w (out // "logo.png") = locate w out ++ ["logo.png"]
  ∧ locate w (out // "favicon.ico") = locate w out ++ ["favicon.ico"].
Proof.
  intros out. split.
  - intros size prefix Hs Hp.
    destruct (icon_target (locate w out) size prefix Hs Hp) as [Hsimple _].
    rewrite (locate_join_simple _ _ _ Hsimple), (locate_join_simple _ _ _ simple_manifest).
    by rewrite <- app_assoc.
  - split; [apply locate_join_simple, simple_manifest|].
    split; [apply locate_join_simple, simple_manifest_json|].
    split; [apply locate_join_simple, simple_logo|].
    apply locate_join_simple, simple_favicon.
Qed.

Lemma emit_assets_reporting (project_folder : string) (original base : Image) (w0 : W) :
  let out := PurePath.parse project_folder in
  reporting (cwd w0) (reach (locate w0 out)) (confirmation project_folder)
    (emit_assets lib out project_folder original base).
Proof.
  intros out. subst out.
  assert (confined (cwd w0) (reach (locate w0 (PurePath.parse project_folder)))
            (do_ generate_manifest_icons lib base (PurePath.parse project_folder // "manifest");
             do_ generate_manifest_json lib (PurePath.parse project_folder) project_folder;
             do_ generate_logo lib original (PurePath.parse project_folder // "logo.png") 192;
             generate_favicon lib original (PurePath.parse project_folder // "favicon.ico"))) as Hblock.
  { apply bind_confined.
    - unfold generate_manifest_icons, generate_manifest_icons_over.
      apply bind_confined.
      + apply mkdir_p_confined. intros w Hc k Hk. left.
        rewrite (locate_cwd w0 w) in Hk by done.
        by rewrite (proj1 (proj2 (locate_outputs project_folder w0))) in Hk.
      + intros _. apply for_each_confined. intros size Hs.
        apply for_each_confined. intros prefix Hp.
        apply write_file_confined. intros w Hc. right.
        rewrite (locate_cwd w0 w) by done.
        rewrite (proj1 (locate_outputs project_folder w0)) by done.
        by apply icon_target.
    - intros _. apply bind_confined.
      + apply write_file_confined. intros w Hc. right.
        rewrite (locate_cwd w0 w) by done.
        rewrite (proj1 (proj2 (proj2 (locate_outputs project_folder w0)))).
        apply tail_target. by left.
      + intros _. apply bind_confined.
        * apply write_file_confined. intros w Hc. right.
          rewrite (locate_cwd w0 w) by done.
          rewrite (proj1 (proj2 (proj2 (proj2 (locate_outputs project_folder w0))))).
          apply tail_target. by right; left.
        * intros _. apply write_file_confined. intros w Hc. right.
          rewrite (locate_cwd w0 w) by done.
          rewrite (proj2 (proj2 (proj2 (proj2 (locate_outputs project_folder w0))))).
          apply tail_target. by right; right; left. }
  intros w r w' Hc Hrun.
  assert (emit_assets lib (PurePath.parse project_folder) project_folder original base w
          = bind (do_ generate_manifest_icons lib base (PurePath.parse project_folder // "manifest");
                  do_ generate_manifest_json lib (PurePath.parse project_folder) project_folder;
                  do_ generate_logo lib original (PurePath.parse project_folder // "logo.png") 192;
                  generate_favicon lib original (PurePath.parse project_folder // "favicon.ico"))
                 (λ _, print (confirmation project_folder)) w) as Heq.
  { unfold emit_assets, bind.
    destruct (generate_manifest_icons lib base (PurePath.parse project_folder // "manifest") w) as [[[]|?] ?]; [|done].
    destruct (generate_manifest_json lib (PurePath.parse project_folder) project_folder _) as [[[]|?] ?]; [|done].
    destruct (generate_logo lib original (PurePath.parse project_folder // "logo.png") 192 _) as [[[]|?] ?]; [|done].
    by destruct (generate_favicon lib original (PurePath.parse project_folder // "favicon.ico") _) as [[[]|?] ?]. }
  rewrite Heq in Hrun. unfold bind at 1 in Hrun.
  match type of Hrun with
  | context [match ?c w with _ => _ end] => destruct (c w) as [[[]|e] w1] eqn:Eb
  end.
  - destruct (Hblock _ _ _ Hc Eb) as (Hc1 & Ho1 & _ & Hf1 & Hs1).
    unfold print in Hrun. injection Hrun as <- <-. simpl.
    split; [done|]. split; [left; by rewrite Ho1|]. by split.
  - destruct (Hblock _ _ _ Hc Eb) as (Hc1 & Ho1 & He1 & Hf1 & Hs1).
    injection Hrun as <- <-.
    split; [done|]. split; [right; exists e; by auto|]. by split.
Qed.

End ProgramOutcomes.

Section WholeRuns.
Context {bytes : Type} (lib : Library bytes).

Local Abbreviation W := (World bytes).

Lemma bind_reporting (c0 : key) (K : key → Prop) (line : string) {A}
    (m : M bytes A) (k : A → M bytes unit) :
  confined c0 K m → (∀ a, reporting c0 K line (k a)) → reporting c0 K line (bind m k).
Proof.
  intros Hm Hk w r w' Hc Hrun. unfold bind in Hrun.
  destruct (m w) as [[a|e] w1] eqn:Em.
  - destruct (Hm _ _ _ Hc Em) as (Hc1 & Ho1 & _ & Hf1 & Hs1).
    destruct (Hk a _ _ _ Hc1 Hrun) as (Hc2 & Ho2 & Hf2 & Hs2).
    split; [done|]. split; [by rewrite <- Ho1|]. split.
    + intros k' Hk'. rewrite Hf2, Hf1; done.
    + intros k' Hk'. by apply Hs2, Hs1.
  - injection Hrun as <- <-.
    destruct (Hm _ _ _ Hc Em) as (Hc1 & Ho1 & He1 & Hf1 & Hs1).
    split; [done|]. split; [|by split].
    right. exists e. split; [done|]. split; [by apply He1 | done].
Qed.

Lemma generate_assets_reporting (source_path : Path) (project_folder : string)
    (center : bool) (w0 : W) :
  reporting (cwd w0) (reach (locate w0 (PurePath.parse project_folder)))
    (confirmation project_folder)
    (generate_assets lib source_path project_folder center).
Proof.
  unfold generate_assets. apply bind_reporting.
  - apply mkdir_p_confined. intros w Hc k Hk. left.
    rewrite (locate_cwd w0 w) in Hk by done.
    rewrite walk_keys_app. apply elem_of_app. by left.
  - intros _. apply bind_reporting; [apply open_and_convert_confined|].
    intros original. apply bind_reporting.
    + destruct center; [apply centred_base_confined | apply ret_confined].
    + intros base. apply emit_assets_reporting.
Qed.

End WholeRuns.

(** ** The file system after a successful run *)

Section AfterSuccess.
Context {bytes : Type} (lib : Library bytes).

Local Abbreviation W := (World bytes).

Lemma produced_keys (project_folder : string) (original base : Image) :
  fst <$> produced lib project_folder original base = relative_outputs.
Proof. reflexivity. Qed.

Lemma relative_outputs_NoDup : NoDup relative_outputs.
Proof. apply (bool_decide_unpack _). by vm_compute. Qed.

Lemma prefix_writes_below (prefixes : list string) (resized : Image) (out : Path)
    (size : Z) (w : W) :
  (∀ prefix, prefix ∈ prefixes → simple_name (icon_filename prefix size)) →
  prefix_writes lib prefixes resized (out // "manifest") size w
  = writes_below (locate w out)
      (prefix ← prefixes;
       [(["manifest"; icon_filename prefix size], encode_png lib true resized)]).
Proof.
  intros Hsimple. unfold prefix_writes, writes_below.
  induction prefixes as [|prefix prefixes IH]; [done|].
  rewrite !bind_cons, fmap_app, IH by (intros p Hp; apply Hsimple; by right).
  f_equal. simpl. f_equal. f_equal.
  rewrite (locate_join_simple _ _ _ (Hsimple prefix ltac:(by left))),
          (locate_join_simple _ _ _ simple_manifest).
  by rewrite <- app_assoc.
Qed.

Lemma icon_writes_below (sizes : list Z) (prefixes : list string) (base : Image)
    (out : Path) (w : W) :
  (∀ size prefix, size ∈ sizes → prefix ∈ prefixes →
                  simple_name (icon_filename prefix size)) →
  icon_writes lib sizes prefixes base (out // "manifest") w
  = writes_below (locate w out)
      (size ← sizes;
       prefix ← prefixes;
       [(["manifest"; icon_filename prefix size],
         encode_png lib true (resize lib base (size, size)))]).
Proof.
  intros Hsimple. unfold icon_writes.
  induction sizes as [|size sizes IH]; [done|].
  rewrite !bind_cons. unfold writes_below in *. rewrite fmap_app.
  rewrite IH by (intros s p Hs Hp; apply Hsimple; [by right | done]).
  f_equal. apply prefix_writes_below. intros p Hp. apply Hsimple; [by left | done].
Qed.

Lemma all_writes_below (project_folder : string) (original base : Image) (w : W) :
  let out := PurePath.parse project_folder in
  icon_writes lib MANIFEST_SIZES MANIFEST_PREFIXES base (out // "manifest") w
    ++ tail_writes lib out project_folder original w
  = writes_below (locate w out) (produced lib project_folder original base).
Proof.
  intros out. unfold produced, writes_below. rewrite fmap_app.
  f_equal.
  - apply icon_writes_below. intros size prefix Hs Hp.
    by destruct (icon_target [] size prefix Hs Hp).
  - unfold tail_writes. simpl.
    by rewrite (locate_join_simple _ _ _ simple_manifest_json),
               (locate_join_simple _ _ _ simple_logo),
               (locate_join_simple _ _ _ simple_favicon).
Qed.

(** The file system a successful run leaves, as a replay of its writes on
    the file system with the output directories in place. *)
Lemma generate_assets_fs (source_path : Path) (project_folder : string)
    (center : bool) (w w' : W) :
  generate_assets lib source_path project_folder center w = (Ok tt, w') →
  let out := locate w (PurePath.parse project_folder) in
  ∃ original base f,
    image_at lib w source_path = Some original
    ∧ chosen_base lib center original base
    ∧ (∀ k, f !! k = if decide (k ∈ walk_keys [] (out ++ ["manifest"])) then Some Dir
                     else fs w !! k)
    ∧ (∀ k, k ∈ walk_keys [] (out ++ ["manifest"]) →
            fs w !! k = None ∨ fs w !! k = Some Dir)
    ∧ fs w' = replay (writes_below out (produced lib project_folder original base)) f
    ∧ cwd w' = cwd w.
Proof.
  intros Hrun out. unfold generate_assets in Hrun.
  apply bind_Ok in Hrun as ([] & w1 & Hm & Hrun).
  apply bind_Ok in Hrun as (original & w2 & Ho & Hrun).
  apply bind_Ok in Hrun as (base & w3 & Hb & Hrun).
  apply mkdir_p_cases in Hm as (Hc1 & _ & _ & [(e & ? & _)|(_ & L1 & K1)]); [done|].
  fold out in L1, K1.
  apply open_and_convert_Ok in Ho as (E2 & _ & Him).
  apply (image_at_before_mkdir lib w w1 (PurePath.parse project_folder)) in Him;
    [|done|done].
  assert (fs w2 = fs w1) as Hf2 by apply E2.
  assert (cwd w2 = cwd w) as Hc2 by (destruct E2 as [-> _]; done).
  assert (chosen_base lib center original base ∧ fs w3 = fs w1 ∧ cwd w3 = cwd w)
    as (Hbase & Hf3 & Hc3).
  { destruct center.
    - pose proof (centred_base_restores lib _ _ _ _ Hb) as (? & ? & _).
      apply centred_base_Ok in Hb as (Hbase & _). split; [done|]. split; congruence.
    - unfold ret in Hb. by simplify_eq. }
  unfold emit_assets in Hrun.
  apply bind_Ok in Hrun as ([] & w5 & Hi & Hrun).
  unfold generate_manifest_icons, generate_manifest_icons_over in Hi.
  apply bind_Ok in Hi as ([] & w4 & Hm4 & Hi).
  apply mkdir_p_cases in Hm4 as (Hc4 & _ & _ & [(e & ? & _)|(_ & L4 & K4)]); [done|].
  rewrite (locate_cwd w w3) in L4, K4 by done.
  rewrite (locate_join_simple _ _ _ simple_manifest) in L4, K4. fold out in L4, K4.
  apply save_sizes_Ok in Hi as [E5 _].
  apply tail_writes_Ok in Hrun as [E6 _].
  assert (cwd w4 = cwd w) as Hcw4 by congruence.
  assert (cwd w5 = cwd w) as Hcw5 by (destruct E5 as [-> _]; done).
  rewrite (icon_writes_cwd lib _ _ _ _ w w4 Hcw4) in E5.
  rewrite (tail_writes_cwd lib _ _ _ w w5 Hcw5) in E6.
  pose proof (effect_trans _ _ _ _ _ _ _ E5 E6) as E.
  rewrite (all_writes_below project_folder original base w) in E. fold out in E.
  exists original, base, (fs w4).
  split; [done|]. split; [done|]. split.
  { intros k. rewrite L4, Hf3, L1.
    destruct (decide (k ∈ walk_keys [] (out ++ ["manifest"]))) as [Hin|Hout]; [done|].
    rewrite decide_False; [done|]. intros Hin. apply Hout.
    rewrite walk_keys_app. apply elem_of_app. by left. }
  split.
  { intros k Hk. specialize (K4 k Hk). rewrite Hf3, L1 in K4.
    destruct (decide (k ∈ walk_keys [] out)) as [Hin|Hout]; [by apply K1 | done]. }
  split; [apply E|]. destruct E as [-> _]. done.
Qed.

End AfterSuccess.

(** ** Properties of whole runs *)

(** ** Whole runs of the pipeline *)

Section PipelineFacts.
Context {bytes : Type} (lib : Library bytes).

Local Abbreviation W := (World bytes).

Lemma writes_below_targets (out : key) (project_folder : string)
    (original base : Image) :
  (λ kd : key * bytes, out ++ fst kd) <$> produced lib project_folder original base
  = output_files out.
Proof.
  unfold output_files. rewrite <- (produced_keys lib project_folder original base).
  by rewrite <- list_fmap_compose.
Qed.

(** The file system a successful run leaves, entry by entry. *)
Lemma generate_assets_final (source_path : Path) (project_folder : string)
    (center : bool) (w w' : W) :
  generate_assets lib source_path project_folder center w = (Ok tt, w') →
  let out := locate w (PurePath.parse project_folder) in
  ∃ original base,
    image_at lib w source_path = Some original
    ∧ chosen_base lib center original base
    ∧ (∀ rel data, (rel, data) ∈ produced lib project_folder original base →
         fs w' !! (out ++ rel) = Some (File data))
    ∧ (∀ k, k ∈ walk_keys [] (out ++ ["manifest"]) → fs w' !! k = Some Dir)
    ∧ (∀ k, ¬ reach out k → fs w' !! k = fs w !! k)
    ∧ cwd w' = cwd w.
Proof.
  intros Hrun out.
  destruct (generate_assets_fs lib _ _ _ _ _ Hrun)
    as (original & base & f & Him & Hbase & Hf & _ & Hfs & Hc).
  fold out in Hf, Hfs.
  exists original, base. split; [done|]. split; [done|]. split.
  { intros rel data Hin. rewrite Hfs. apply replay_writes_lookup; [|done].
    rewrite produced_keys. apply relative_outputs_NoDup. }
  split.
  { intros k Hk. rewrite Hfs, replay_writes_other.
    - rewrite Hf. by rewrite decide_True.
    - rewrite writes_below_targets. intros Hin.
      by apply output_files_shape in Hin as (_ & _ & _ & _ & Hin). }
  split; [|done].
  intros k Hk. rewrite Hfs, replay_writes_other.
  - rewrite Hf. rewrite decide_False; [done|]. intros Hin. apply Hk. by left.
  - rewrite writes_below_targets. intros Hin. apply Hk. by right.
Qed.

End PipelineFacts.

(** ** Loops that stop half-way *)

Section PartialLoops.
Context {bytes : Type} (lib : Library bytes).

Local Abbreviation W := (World bytes).

Lemma for_each_partial {A} (c0 : key) (l : list A) (body : A → M bytes unit)
    (evs : A → list (event bytes)) :
  (∀ x w r w', x ∈ l → cwd w = c0 → body x w = (r, w') →
     partial_run w r w' (evs x)) →
  ∀ w r w', cwd w = c0 → for_each l body w = (r, w') →
    partial_run w r w' (l ≫= evs).
Proof.
  induction l as [|x l IH]; intros Hbody w r w' Hc Hrun.
  - injection Hrun as <- <-. exists []. split; [done|]. split; [apply effect_refl|done].
  - simpl in Hrun. unfold bind in Hrun.
    destruct (body x w) as [[[]|e] w1] eqn:Hx.
    + destruct (Hbody x w _ _ ltac:(by left) Hc Hx) as (d1 & _ & E1 & ->).
      assert (cwd w1 = c0) as Hc1 by (destruct E1 as [-> _]; done).
      destruct (IH (λ y w r w' Hy, Hbody y w r w' ltac:(by right; exact Hy)) w1 r w' Hc1 Hrun)
        as (d2 & P2 & E2 & Hr).
      exists (evs x ++ d2). rewrite bind_cons. split; [by apply prefix_app|].
      split; [by apply (effect_trans _ _ _ _ _ [] [] E1 E2)|].
      destruct r as [[]|e].
      * by rewrite Hr.
      * destruct Hr as [He Hlen]. split; [done|]. rewrite !length_app. lia.
    + injection Hrun as <- <-.
      destruct (Hbody x w _ _ ltac:(by left) Hc Hx) as (d1 & P1 & E1 & He & Hlen).
      exists d1. rewrite bind_cons. split; [by apply prefix_app_r|].
      split; [done|]. split; [done|]. rewrite length_app. lia.
Qed.

Lemma save_png_partial (img : Image) (p : Path) (w0 w : W) r (w' : W) :
  cwd w = cwd w0 → save_png lib img p w = (r, w') →
  partial_run w r w' [EvWrite (locate w0 p) (encode_png lib true img)].
Proof.
  intros Hc Hrun. unfold save_png in Hrun.
  apply write_file_cases in Hrun as (_ & [(-> & E)|(e & -> & He & E)]).
  - rewrite (locate_cwd w0 w) in E by done. by eexists.
  - exists []. split; [apply prefix_nil|]. split; [done|]. split; [done|]. simpl. lia.
Qed.

Lemma save_sizes_partial (sizes : list Z) (prefixes : list string) (base : Image)
    (mdir : Path) (w0 w : W) r (w' : W) :
  cwd w = cwd w0 →
  for_each sizes (λ size,
    let resized := resize lib base (size, size) in
    for_each prefixes (λ prefix,
      save_png lib resized (mdir // icon_filename prefix size))) w
  = (r, w') →
  partial_run w r w' (icon_writes lib sizes prefixes base mdir w0).
Proof.
  intros Hc Hrun. unfold icon_writes.
  refine (for_each_partial (cwd w0) sizes _ _ _ w r w' Hc Hrun).
  intros size w1 r1 w1' _ Hc1 Hsize. cbv zeta in Hsize. unfold prefix_writes.
  refine (for_each_partial (cwd w0) prefixes _ _ _ w1 r1 w1' Hc1 Hsize).
  intros prefix w2 r2 w2' _ Hc2 Hp. by apply save_png_partial.
Qed.

Lemma mkdir_p_raises (p : Path) (w w' : W) (e : exn) :
  mkdir_p p w = (Raise e, w') →
  (∃ msg, e = OSError msg) ∧ effect w w' [] [].
Proof.
  unfold mkdir_p, bind. destruct (syscall w) as [[[]|e1] w1] eqn:Hs.
  - apply syscall_Ok in Hs as ->. rewrite locate_set_faults. simpl.
    destruct (mkdir_walk [] (locate w p) (fs w) []) as [[f made]|]; [done|].
    intros [= <- <-]. split; [by eexists|]. apply effect_set_faults, tail_suffix.
  - intros [= <- <-]. unfold syscall in Hs.
    destruct (faults w) as [|[] fl] eqn:Ef; [done| |done].
    injection Hs as <- <-. split; [by eexists|].
    apply effect_set_faults. rewrite Ef. by exists [true].
Qed.


End PartialLoops.

Section Reruns.
Context {bytes : Type} (lib : Library bytes).

Local Abbreviation W := (World bytes).

Lemma chosen_base_functional (center : bool) (original base base' : Image) :
  chosen_base lib center original base → chosen_base lib center original base' →
  base' = base.
Proof. unfold chosen_base. destruct center; congruence. Qed.

Lemma produced_covers (out : key) (project_folder : string) (original base : Image)
    (k : key) :
  k ∈ output_files out →
  ∃ rel data, k = out ++ rel ∧ (rel, data) ∈ produced lib project_folder original base.
Proof.
  intros Hk. apply list_elem_of_fmap in Hk as (rel & -> & Hrel).
  rewrite <- (produced_keys lib project_folder original base) in Hrel.
  apply list_elem_of_fmap in Hrel as ([rel' data] & -> & Hin).
  by exists rel', data.
Qed.

(** The world a successful run leaves is ready for the next one. *)
Lemma ready_after_run (source_path : Path) (project_folder : string)
    (center : bool) (w w1 : W) :
  calm w →
  generate_assets lib source_path project_folder center w = (Ok tt, w1) →
  ¬ reach (locate w (PurePath.parse project_folder)) (locate w source_path) →
  (center = true →
   ([] ∉ tmp_names w1)
   ∧ ∃ n, n ∈ tmp_names w1 ∧ fs w1 !! n = None
          ∧ n ∉ walk_keys [] (locate w (PurePath.parse project_folder))) →
  ready lib w1 source_path project_folder center.
Proof.
  intros Hcalm Hrun Hsrc Htmp.
  destruct (generate_assets_final lib _ _ _ _ _ Hrun)
    as (original & base & Him & _ & Hfiles & Hdirs & Hrest & Hc).
  unfold ready. rewrite (locate_cwd w w1) by done.
  split.
  { apply generate_assets_Ok in Hrun as (? & ? & ? & ? & ? & _ & _ & _ & E).
    by apply (effect_calm _ _ _ _ E). }
  split.
  { exists original. unfold image_at in *. rewrite (locate_cwd w w1) by done.
    by rewrite Hrest. }
  split.
  { intros k Hk data. by rewrite Hdirs. }
  split; [|done].
  intros k Hk.
  destruct (produced_covers _ project_folder original base k Hk)
    as (rel & data & -> & Hin).
  by rewrite (Hfiles _ _ Hin).
Qed.

End Reruns.

(** ** Letter case of the flag *)

Section FlagCase.

(** The bytes [str.lower] sends to a given byte: the byte itself and,
    for a lower-case letter, its capital. *)
Lemma lower_char_inv (c l : ascii) :
  Str.lower_char c = l →
  c = l ∨ c = ascii_of_nat (nat_of_ascii l - 32).
Proof.
  intros <-. destruct c as [[] [] [] [] [] [] [] []]; (by left) || (by right).
Qed.

Lemma strip_of_flag_word (value : string) :
  Str.lower value ∈ ["true"; "false"] → Str.strip value = value.
Proof.
  intros Hin.
  apply elem_of_cons in Hin as [Hw|Hin];
    [|apply elem_of_cons in Hin as [Hw|Hin]; [|by apply elem_of_nil in Hin]].
  - destruct value as [|a [|b [|c [|d [|e rest]]]]]; try discriminate.
    simpl in Hw. injection Hw as Ha Hb Hc Hd.
    apply lower_char_inv in Ha as [-> | ->];
    (apply lower_char_inv in Hb as [-> | ->]);
    (apply lower_char_inv in Hc as [-> | ->]);
    (apply lower_char_inv in Hd as [-> | ->]);
    reflexivity.
  - destruct value as [|a [|b [|c [|d [|e [|g rest]]]]]]; try discriminate.
    simpl in Hw. injection Hw as Ha Hb Hc Hd He.
    apply lower_char_inv in Ha as [-> | ->];
    (apply lower_char_inv in Hb as [-> | ->]);
    (apply lower_char_inv in Hc as [-> | ->]);
    (apply lower_char_inv in Hd as [-> | ->]);
    (apply lower_char_inv in He as [-> | ->]);
    reflexivity.
Qed.

End FlagCase.

(** ** Directories stay *)

Section Directories.
Context {bytes : Type} (lib : Library bytes).

Local Abbreviation W := (World bytes).

Lemma keeps_dirs_same {A} (c : M bytes A) :
  (∀ w r w', c w = (r, w') → fs w' = fs w) → keeps_dirs c.
Proof. intros Hsame w r w' Hrun k Hk. by rewrite (Hsame _ _ _ Hrun). Qed.

Lemma keeps_dirs_bind {A B} (m : M bytes A) (k : A → M bytes B) :
  keeps_dirs m → (∀ a, keeps_dirs (k a)) → keeps_dirs (bind m k).
Proof.
  intros Hm Hk w r w' Hrun key Hkey. unfold bind in Hrun.
  destruct (m w) as [[a|e] w1] eqn:Em.
  - apply (Hk a _ _ _ Hrun). by apply (Hm _ _ _ Em).
  - injection Hrun as <- <-. by apply (Hm _ _ _ Em).
Qed.

Lemma keeps_dirs_for_each {A} (l : list A) (body : A → M bytes unit) :
  (∀ x, keeps_dirs (body x)) → keeps_dirs (for_each l body).
Proof.
  intros Hbody. induction l as [|x l IH]; simpl.
  - apply keeps_dirs_same. by intros w r w' [= <- <-].
  - apply keeps_dirs_bind; [apply Hbody | by intros _].
Qed.

Lemma mkdir_p_keeps_dirs (p : Path) : keeps_dirs (@mkdir_p bytes p).
Proof.
  intros w r w' Hrun k Hk.
  apply mkdir_p_cases in Hrun as (_ & _ & _ & [(e & _ & _ & -> & _)|(_ & Hl & _)]);
    [done|].
  rewrite Hl. by case_decide.
Qed.

Lemma write_file_keeps_dirs (p : Path) (data : bytes) : keeps_dirs (write_file p data).
Proof.
  intros w r w' Hrun k Hk. destruct r as [[]|e].
  - apply write_file_Ok in Hrun as ((_ & _ & -> & _) & Hw & _).
    unfold replay. simpl. rewrite lookup_insert_ne; [done|].
    intros Heq. subst k. unfold writable in Hw.
    destruct (locate w p) as [|c k']; [done|]. by rewrite Hk in Hw.
  - apply write_file_cases in Hrun as (_ & [(? & _)|(e' & _ & _ & (_ & _ & -> & _))]);
      done.
Qed.

Lemma open_and_convert_keeps_dirs (p : Path) :
  keeps_dirs (open_and_convert_img_to_rgb lib p).
Proof.
  apply keeps_dirs_same. intros w r w' Hrun.
  by apply open_and_convert_any in Hrun as (? & _).
Qed.

Lemma emit_assets_keeps_dirs (out : Path) (project_folder : string)
    (original base : Image) :
  keeps_dirs (emit_assets lib out project_folder original base).
Proof.
  unfold emit_assets. apply keeps_dirs_bind.
  { unfold generate_manifest_icons, generate_manifest_icons_over.
    apply keeps_dirs_bind; [apply mkdir_p_keeps_dirs|]. intros _.
    apply keeps_dirs_for_each. intros size.
    apply keeps_dirs_for_each. intros prefix. apply write_file_keeps_dirs. }
  intros _. apply keeps_dirs_bind; [apply write_file_keeps_dirs|].
  intros _. apply keeps_dirs_bind; [apply write_file_keeps_dirs|].
  intros _. apply keeps_dirs_bind; [apply write_file_keeps_dirs|].
  intros _. apply keeps_dirs_same. by intros w r w' [= <- <-].
Qed.

Lemma after_mkdir_keeps_dirs (source_path : Path) (project_folder : string)
    (center : bool) :
  keeps_dirs
    (do original <- open_and_convert_img_to_rgb lib source_path;
     do base <- (if center then centred_base lib original else ret original);
     emit_assets lib (PurePath.parse project_folder) project_folder original base).
Proof.
  apply keeps_dirs_bind; [apply open_and_convert_keeps_dirs|]. intros original.
  apply keeps_dirs_bind; [|intros base; apply emit_assets_keeps_dirs].
  destruct center.
  - apply keeps_dirs_same. intros w r w' Hrun.
    by apply centred_base_restores in Hrun as (? & _).
  - apply keeps_dirs_same. by intros w r w' [= <- <-].
Qed.

Lemma generate_assets_keeps_dirs (source_path : Path) (project_folder : string)
    (center : bool) :
  keeps_dirs (generate_assets lib source_path project_folder center).
Proof.
  unfold generate_assets. apply keeps_dirs_bind; [apply mkdir_p_keeps_dirs|].
  intros _. apply after_mkdir_keeps_dirs.
Qed.

End Directories.

(** X1: [main] always ends by its own doing.  For arguments and a working
    directory that are text, and a source path without [".."] that names
    either no regular file or an image Pillow decodes, whatever the number
    of arguments, the flag, the state of the output directory and the
    failure plan: [main] either returns normally or exits with code 1 (every
    error of the operating system is caught), has called [print] exactly
    once, stays in its working directory and removes no file or directory
    that was there before. *)
Theorem main_always_reports {bytes : Type} (lib : Library bytes)
    (argv : option (list string)) (w : World bytes) :
  all_text (arguments argv w ++ cwd w) = true →
  match arguments argv w with
  | filename :: _ =>
      no_parent (mkPath "/" (cwd w) // filename) = true
      ∧ (missing w filename
         ∨ is_Some (image_at lib w (mkPath "/" (cwd w) // filename)))
  | [] => True
  end →
  let run := main lib argv w in
  (fst run = Ok tt ∨ fst run = Raise (SystemExit 1))
  ∧ cwd (snd run) = cwd w
  ∧ (∃ line, stdout (snd run) = stdout w ++ [line])
  ∧ ∀ k, is_Some (fs w !! k) → is_Some (fs (snd run) !! k).
Proof.
  intros _ _ run. subst run. destruct (main lib argv w) as [r w'] eqn:Hmain. simpl.
  destruct (main_cases argv w)
    as [Hlen|[(filename & project_folder & value & Hargs & Hbad)
             |(filename & project_folder & rest & Hargs & Hrest)]].
  - rewrite main_usage in Hmain by done. injection Hmain as <- <-. simpl.
    split; [by right|]. split; [done|]. split; eauto.
  - rewrite (main_invalid_flag lib argv w _ _ _ Hargs Hbad) in Hmain.
    injection Hmain as <- <-. simpl.
    split; [by right|]. split; [done|]. split; eauto.
  - destruct (fs w !! locate w (mkPath "/" (cwd w) // filename)) as [[data|]|] eqn:Ef.
    + rewrite (main_well_formed lib argv w _ _ _ Hargs Hrest) in Hmain.
      unfold try_except in Hmain.
      rewrite (bind_run _ _ _ _ _ (resolve_source_path_found _ _ _ Ef)) in Hmain.
      match type of Hmain with
      | context [generate_assets lib ?p ?f ?c w] =>
          destruct (generate_assets lib p f c w) as [r1 w1] eqn:Hrun;
          destruct (generate_assets_reporting lib p f c w w r1 w1 eq_refl Hrun)
            as (Hc & [(-> & Ho)|(e & -> & He & Ho)] & _ & Hkeep)
      end.
      * injection Hmain as <- <-. split; [by left|]. split; [done|]. split; eauto.
      * destruct e as [msg|msg|code]; [| |done];
          unfold bind, print, sys_exit, raise in Hmain; injection Hmain as <- <-; simpl;
          (split; [by right|]); (split; [done|]); rewrite Ho; split; eauto.
    + assert (missing w filename) as Hmiss by (intros d; congruence).
      destruct (main_missing_source lib argv w _ _ _ Hargs Hrest Hmiss)
        as (line & w1 & Hrun & (Hc & _ & Hf & Ho & _) & _).
      rewrite Hrun in Hmain. injection Hmain as <- <-.
      split; [by right|]. split; [done|]. split; [eauto|]. by rewrite Hf.
    + assert (missing w filename) as Hmiss by (intros d; congruence).
      destruct (main_missing_source lib argv w _ _ _ Hargs Hrest Hmiss)
        as (line & w1 & Hrun & (Hc & _ & Hf & Ho & _) & _).
      rewrite Hrun in Hmain. injection Hmain as <- <-.
      split; [by right|]. split; [done|]. split; [eauto|]. by rewrite Hf.
Qed.

Lemma main_always_reports_witness :
  let run := main Reference.library (Some ["main.py"; "nologo.png"; "myapp"])
               Reference.world in
  (fst run = Ok tt ∨ fst run = Raise (SystemExit 1))
  ∧ cwd (snd run) = ["home"; "dev"]
  ∧ (∃ line, stdout (snd run) = [line])
  ∧ ∀ k, is_Some (fs Reference.world !! k) → is_Some (fs (snd run) !! k).
Proof.
  apply (main_always_reports Reference.library
           (Some ["main.py"; "nologo.png"; "myapp"]) Reference.world eq_refl).
  split; [reflexivity|]. left. intros data. by vm_compute.
Defined.



(** X3: after a successful run of [generate_assets] into a project
    folder without [".."], every file of the
    output set holds exactly what the run computed for it (the eighteen
    icons resized from the chosen base, the manifest document, the logo and
    the favicon), the directories down to [<out>/manifest] exist, and every
    other entry of the file system is as it was before the run. *)
Theorem successful_run_final_state {bytes : Type} (lib : Library bytes)
    (source_path : Path) (project_folder : string) (center : bool)
    (w w' : World bytes) :
  no_parent (PurePath.parse project_folder) = true →
  generate_assets lib source_path project_folder center w = (Ok tt, w') →
  let out := locate w (PurePath.parse project_folder) in
  ∃ original base,
    image_at lib w source_path = Some original
    ∧ chosen_base lib center original base
    ∧ (∀ size prefix, size ∈ MANIFEST_SIZES → prefix ∈ MANIFEST_PREFIXES →
         fs w' !! (out ++ ["manifest"; icon_filename prefix size])
         = Some (File (encode_png lib true (resize lib base (size, size)))))
    ∧ fs w' !! (out ++ ["manifest.json"])
      = Some (File (json_dump lib (manifest_over MANIFEST_SIZES project_folder)))
    ∧ fs w' !! (out ++ ["logo.png"])
      = Some (File (encode_png lib true (resize lib original (192, 192))))
    ∧ fs w' !! (out ++ ["favicon.ico"])
      = Some (File (save_ico lib (resize lib original (32, 32)) ico_sizes))
    ∧ (∀ k, k ∈ walk_keys [] (out ++ ["manifest"]) → fs w' !! k = Some Dir)
    ∧ (∀ k, k ∉ walk_keys [] (out ++ ["manifest"]) → k ∉ output_files out →
         fs w' !! k = fs w !! k).
Proof.
  intros _ Hrun out.
  destruct (generate_assets_final lib _ _ _ _ _ Hrun)
    as (original & base & Him & Hbase & Hfiles & Hdirs & Hrest & _).
  fold out in Hfiles, Hdirs, Hrest.
  exists original, base. split; [done|]. split; [done|]. split.
  { intros size prefix Hs Hp. apply Hfiles. unfold produced.
    apply elem_of_app. left.
    apply list_elem_of_bind. exists size. split; [|done].
    apply list_elem_of_bind. exists prefix. split; [|done].
    by apply list_elem_of_singleton. }
  split.
  { apply Hfiles. unfold produced. apply elem_of_app. right. by left. }
  split.
  { apply Hfiles. unfold produced. apply elem_of_app. right. by right; left. }
  split.
  { apply Hfiles. unfold produced. apply elem_of_app. right. by right; right; left. }
  split; [done|].
  intros k Hw Ho. apply Hrest. by intros [?|?].
Qed.

Lemma successful_run_final_state_witness :
  ∃ w', generate_assets Reference.library Reference.source "myapp" false Reference.world
        = (Ok tt, w')
        ∧ fs w' !! ["home"; "dev"; "myapp"; "manifest"; "icon-48x48.png"]
          = Some (File (Reference.Png true (Reference.nearest Reference.picture (48, 48))))
        ∧ fs w' !! ["home"; "dev"; "myapp"; "manifest"] = Some Dir
        ∧ fs w' !! ["home"; "dev"; "logo.png"]
          = Some (File (Reference.Png false Reference.picture)).
Proof.
  destruct (generate_assets_calm Reference.library Reference.source "myapp" false
              Reference.world reference_png_lossless (reference_ready false)) as [w' Hrun].
  exists w'. split; [exact Hrun|].
  destruct (successful_run_final_state Reference.library Reference.source "myapp"
              false Reference.world w' eq_refl Hrun)
    as (original & base & Him & Hbase & Hicons & _ & _ & _ & Hdirs & Hrest).
  change (locate Reference.world (PurePath.parse "myapp"))
    with ["home"; "dev"; "myapp"] in Hicons, Hdirs, Hrest.
  injection Him as <-. simpl in Hbase. subst base.
  split.
  { apply (Hicons 48 "icon"); [by right; left | by left]. }
  split.
  { apply Hdirs. simpl. by right; right; right; left. }
  rewrite Hrest; [by vm_compute| |].
  - apply (bool_decide_unpack _). by vm_compute.
  - apply (bool_decide_unpack _). by vm_compute.
Defined.

(** X4: whatever its outcome, a run of [generate_assets] into a project
    folder without [".."] stays in its working directory, changes nothing
    outside the directories down to [<out>/manifest] and the files of the
    output set, removes no entry, never raises [SystemExit], and prints its
    confirmation exactly when it ends normally. *)
Theorem generate_assets_stays_in_output {bytes : Type} (lib : Library bytes)
    (source_path : Path) (project_folder : string) (center : bool)
    (w : World bytes) :
  no_parent (PurePath.parse project_folder) = true →
  let run := generate_assets lib source_path project_folder center w in
  let out := locate w (PurePath.parse project_folder) in
  cwd (snd run) = cwd w
  ∧ (∀ k, k ∉ walk_keys [] (out ++ ["manifest"]) → k ∉ output_files out →
       fs (snd run) !! k = fs w !! k)
  ∧ (∀ k, is_Some (fs w !! k) → is_Some (fs (snd run) !! k))
  ∧ match fst run with
    | Ok _ => stdout (snd run) = stdout w ++ [confirmation project_folder]
    | Raise e => os_error e ∧ stdout (snd run) = stdout w
    end.
Proof.
  intros _ run out. subst run.
  destruct (generate_assets lib source_path project_folder center w) as [r w'] eqn:Hrun.
  destruct (generate_assets_reporting lib _ _ _ w w _ _ eq_refl Hrun)
    as (Hc & Hout & Hrest & Hkeep).
  simpl. split; [done|]. split.
  { intros k Hw Ho. apply Hrest. by intros [?|?]. }
  split; [done|].
  by destruct Hout as [[-> Ho]|(e & -> & He & Ho)].
Qed.

Lemma generate_assets_stays_in_output_witness :
  let run := generate_assets Reference.library Reference.source "myapp" true
               Reference.world in
  cwd (snd run) = ["home"; "dev"]
  ∧ fs (snd run) !! ["home"; "dev"; "logo.png"]
    = Some (File (Reference.Png false Reference.picture)).
Proof.
  intros run.
  destruct (generate_assets_stays_in_output Reference.library Reference.source
              "myapp" true Reference.world eq_refl) as (Hc & Hrest & _).
  split; [exact Hc|].
  fold run in Hrest. rewrite Hrest; [by vm_compute| |].
  - apply (bool_decide_unpack _). by vm_compute.
  - apply (bool_decide_unpack _). by vm_compute.
Defined.

(** X5: the icon emitter does not roll back.  When [generate_manifest_icons]
    raises, the error is an operating-system error and what it has done is
    an initial part, strictly shorter than the eighteen writes, of the icon
    sequence in its order (sizes outermost, then prefixes), after the
    directories it created: the files written before the failure stay. *)
Theorem failed_icon_emitter_keeps_its_writes {bytes : Type} (lib : Library bytes)
    (base : Image) (manifest_dir : Path) (w w' : World bytes) (e : exn) :
  generate_manifest_icons lib base manifest_dir w = (Raise e, w') →
  ∃ made written,
    written `prefix_of`
      icon_writes lib MANIFEST_SIZES MANIFEST_PREFIXES base manifest_dir w
    ∧ (length written < 18)%nat
    ∧ effect w w' ((EvMkdir <$> made) ++ written) []
    ∧ os_error e.
Proof.
  unfold generate_manifest_icons, generate_manifest_icons_over, bind. intros Hrun.
  destruct (mkdir_p manifest_dir w) as [[[]|e1] w1] eqn:Hm.
  - apply mkdir_p_Ok in Hm as (made & E1 & _).
    assert (cwd w1 = cwd w) as Hc by (destruct E1 as [-> _]; done).
    destruct (save_sizes_partial lib _ _ _ _ w w1 _ _ Hc Hrun)
      as (written & Hp & E2 & He & Hlen).
    exists made, written. split; [done|]. split.
    { by rewrite icon_writes_length in Hlen. }
    split; [|done]. by apply (effect_trans _ _ _ _ _ [] [] E1 E2).
  - injection Hrun as <- <-. apply mkdir_p_raises in Hm as [[msg ->] E].
    exists [], []. split; [apply prefix_nil|]. split; [simpl; lia|]. by split.
Qed.

Lemma failed_icon_emitter_keeps_its_writes_witness :
  ∃ made written,
    written `prefix_of`
      icon_writes Reference.library MANIFEST_SIZES MANIFEST_PREFIXES Reference.picture
        (PurePath.parse "myapp" // "manifest") Scenario.third_call_fails
    ∧ (length written < 18)%nat
    ∧ effect Scenario.third_call_fails
        (snd (generate_manifest_icons Reference.library Reference.picture
                (PurePath.parse "myapp" // "manifest") Scenario.third_call_fails))
        ((EvMkdir <$> made) ++ written) []
    ∧ os_error (OSError "system call failed").
Proof.
  apply (failed_icon_emitter_keeps_its_writes Reference.library Reference.picture
           (PurePath.parse "myapp" // "manifest") Scenario.third_call_fails).
  vm_compute. reflexivity.
Defined.

(** X6: directories outlive the run.  Whatever its outcome,
    [generate_assets] never removes a directory nor puts a file in its
    place; in particular, once its first step has created the output
    directory, the directories down to it are there at the end of the run,
    also when a later step fails (a source that cannot be decoded, a write
    that fails): nothing is cleaned up. *)
Theorem directories_outlive_the_run {bytes : Type} (lib : Library bytes)
    (source_path : Path) (project_folder : string) (center : bool)
    (w w1 w' : World bytes) (r : result unit) :
  mkdir_p (PurePath.parse project_folder) w = (Ok tt, w1) →
  generate_assets lib source_path project_folder center w = (r, w') →
  (∀ k, fs w !! k = Some Dir → fs w' !! k = Some Dir)
  ∧ ∀ k, k ∈ walk_keys [] (locate w (PurePath.parse project_folder)) →
         fs w' !! k = Some Dir.
Proof.
  intros Hm Hrun. split.
  - by apply (generate_assets_keeps_dirs lib _ _ _ _ _ _ Hrun).
  - intros k Hk. unfold generate_assets in Hrun.
    rewrite (bind_run _ _ _ _ _ Hm) in Hrun.
    apply (after_mkdir_keeps_dirs lib _ _ _ _ _ _ Hrun).
    apply mkdir_p_cases in Hm as (_ & _ & _ & [(e & ? & _)|(_ & Hl & _)]); [done|].
    rewrite Hl. by rewrite decide_True.
Qed.

Lemma directories_outlive_the_run_witness :
  let run := generate_assets Reference.library
               (mkPath "/" ["home"; "dev"] // "notes.txt") "myapp" true
               Scenario.with_notes in
  fst run = Raise (OSError "cannot identify image file")
  ∧ fs Scenario.with_notes !! ["home"; "dev"; "myapp"] = None
  ∧ fs (snd run) !! ["home"; "dev"; "myapp"] = Some Dir.
Proof.
  intros run. split; [by vm_compute|]. split; [by vm_compute|].
  refine (proj2 (directories_outlive_the_run Reference.library
                   (mkPath "/" ["home"; "dev"] // "notes.txt") "myapp" true
                   Scenario.with_notes
                   (snd (mkdir_p (PurePath.parse "myapp") Scenario.with_notes))
                   (snd run) (fst run) _ _) ["home"; "dev"; "myapp"] _).
  - by vm_compute.
  - apply surjective_pairing.
  - change (locate Scenario.with_notes (PurePath.parse "myapp"))
      with ["home"; "dev"; "myapp"].
    simpl. by right; right; left.
Defined.



(** X8: running [generate_assets] again changes nothing.  For a project
    folder and a source path without [".."]: if a run
    succeeds, the source file is not among the entries the run touches, and
    a second run with the same arguments succeeds from the world the first
    one left, then the file system after the second run is the file system
    after the first. *)
Theorem rerun_leaves_file_system {bytes : Type} (lib : Library bytes)
    (source_path : Path) (project_folder : string) (center : bool)
    (w w1 w2 : World bytes) :
  no_parent (PurePath.parse project_folder) = true →
  no_parent source_path = true →
  generate_assets lib source_path project_folder center w = (Ok tt, w1) →
  generate_assets lib source_path project_folder center w1 = (Ok tt, w2) →
  ¬ reach (locate w (PurePath.parse project_folder)) (locate w source_path) →
  fs w2 = fs w1.
Proof.
  intros _ _ Hrun1 Hrun2 Hsrc.
  destruct (generate_assets_final lib _ _ _ _ _ Hrun1)
    as (original & base & Him1 & Hb1 & Hfiles1 & Hdirs1 & Hrest1 & Hc1).
  destruct (generate_assets_final lib _ _ _ _ _ Hrun2)
    as (original' & base' & Him2 & Hb2 & Hfiles2 & Hdirs2 & Hrest2 & _).
  rewrite (locate_cwd w w1) in Hfiles2, Hdirs2, Hrest2 by done.
  assert (original' = original) as ->.
  { unfold image_at in Him1, Him2. rewrite (locate_cwd w w1) in Him2 by done.
    rewrite Hrest1 in Him2 by done. congruence. }
  assert (base' = base) as -> by (by eapply chosen_base_functional).
  apply map_eq. intros k.
  destruct (decide (k ∈ output_files (locate w (PurePath.parse project_folder))))
    as [Hout|Hout].
  - destruct (produced_covers lib _ project_folder original base k Hout)
      as (rel & data & -> & Hin).
    by rewrite (Hfiles1 _ _ Hin), (Hfiles2 _ _ Hin).
  - destruct (decide (k ∈ walk_keys []
                            (locate w (PurePath.parse project_folder) ++ ["manifest"])))
      as [Hw|Hw].
    + by rewrite Hdirs1, Hdirs2.
    + apply Hrest2. by intros [?|?].
Qed.

Lemma rerun_leaves_file_system_witness :
  ∃ w1 w2,
    generate_assets Reference.library Reference.source "myapp" false Reference.world
    = (Ok tt, w1)
    ∧ generate_assets Reference.library Reference.source "myapp" false w1 = (Ok tt, w2)
    ∧ fs w2 = fs w1.
Proof.
  assert (¬ reach (locate Reference.world (PurePath.parse "myapp"))
              (locate Reference.world Reference.source)) as Hsrc.
  { intros [Hin|Hin]; revert Hin; apply (bool_decide_unpack _); by vm_compute. }
  destruct (generate_assets_calm Reference.library Reference.source "myapp" false
              Reference.world reference_png_lossless (reference_ready false)) as [w1 Hrun1].
  assert (ready Reference.library w1 Reference.source "myapp" false) as Hready.
  { apply (ready_after_run Reference.library _ _ _ Reference.world);
      [apply not_elem_of_nil | exact Hrun1 | exact Hsrc | done]. }
  destruct (generate_assets_calm Reference.library Reference.source "myapp" false
              w1 reference_png_lossless Hready) as [w2 Hrun2].
  exists w1, w2. split; [exact Hrun1|]. split; [exact Hrun2|].
  exact (rerun_leaves_file_system Reference.library Reference.source "myapp" false
           Reference.world w1 w2 eq_refl eq_refl Hrun1 Hrun2 Hsrc).
Defined.

(** X9: nothing protects the source.  When the source file is the
    [logo.png] of the output directory (as with [python main.py logo.png .]),
    a successful run replaces it: with a lossless PNG codec, what can be
    read from the source path afterwards is the 192x192 logo, not the
    original picture. *)
Theorem source_in_output_directory_is_replaced {bytes : Type} (lib : Library bytes)
    (source_path : Path) (project_folder : string) (center : bool)
    (w w' : World bytes) :
  png_lossless lib →
  generate_assets lib source_path project_folder center w = (Ok tt, w') →
  locate w source_path = locate w (PurePath.parse project_folder) ++ ["logo.png"] →
  ∃ original,
    image_at lib w source_path = Some original
    ∧ image_at lib w' source_path = Some (resize lib original (192, 192)).
Proof.
  intros Hpng Hrun Hsame.
  destruct (generate_assets_final lib _ _ _ _ _ Hrun)
    as (original & base & Him & _ & Hfiles & _ & _ & Hc).
  exists original. split; [done|].
  unfold image_at. rewrite (locate_cwd w w') by done. rewrite Hsame.
  rewrite (Hfiles ["logo.png"] (encode_png lib true (resize lib original (192, 192)))).
  - apply Hpng.
  - unfold produced. apply elem_of_app. right. by right; left.
Qed.

Lemma source_in_output_directory_is_replaced_witness :
  ∃ w',
    generate_assets Reference.library Reference.source "." false Reference.world
    = (Ok tt, w')
    ∧ image_at Reference.library Reference.world Reference.source
      = Some Reference.picture
    ∧ image_at Reference.library w' Reference.source
      = Some (Reference.nearest Reference.picture (192, 192)).
Proof.
  assert (ready Reference.library Reference.world Reference.source "." false) as Hready.
  { unfold ready.
    change (locate Reference.world (PurePath.parse ".")) with ["home"; "dev"].
    split; [apply not_elem_of_nil|].
    split; [by exists Reference.picture|].
    split.
    { intros k Hk data. simpl in Hk.
      repeat (apply elem_of_cons in Hk as [->|Hk]; [by vm_compute|]).
      by apply elem_of_nil in Hk. }
    split; [|done].
    intros k Hk. vm_compute in Hk.
    repeat (apply elem_of_cons in Hk as [->|Hk]; [by vm_compute|]).
    by apply elem_of_nil in Hk. }
  destruct (generate_assets_calm Reference.library Reference.source "." false
              Reference.world reference_png_lossless Hready) as [w' Hrun].
  exists w'. split; [exact Hrun|].
  destruct (source_in_output_directory_is_replaced Reference.library Reference.source
              "." false Reference.world w' reference_png_lossless Hrun eq_refl)
    as (original & Him & Him').
  assert (original = Reference.picture) as -> by (by injection Him).
  by split.
Defined.

(** X10: the program can be run again over its own output.  With a
    lossless PNG codec and no planned failure, for a project folder and a
    source path without [".."], after a successful run whose
    source file is not among the entries it touches, a second run with the
    same arguments succeeds as well (when centring, provided the temporary
    directory still offers a free name). *)
Theorem rerun_succeeds {bytes : Type} (lib : Library bytes)
    (source_path : Path) (project_folder : string) (center : bool)
    (w w1 : World bytes) :
  png_lossless lib → calm w →
  no_parent (PurePath.parse project_folder) = true →
  no_parent source_path = true →
  generate_assets lib source_path project_folder center w = (Ok tt, w1) →
  ¬ reach (locate w (PurePath.parse project_folder)) (locate w source_path) →
  (center = true →
   ([] ∉ tmp_names w1)
   ∧ ∃ n, n ∈ tmp_names w1 ∧ fs w1 !! n = None
          ∧ n ∉ walk_keys [] (locate w (PurePath.parse project_folder))) →
  ∃ w2, generate_assets lib source_path project_folder center w1 = (Ok tt, w2).
Proof.
  intros Hpng Hcalm _ _ Hrun Hsrc Htmp.
  apply (generate_assets_calm lib _ _ _ _ Hpng).
  by apply (ready_after_run lib _ _ _ w).
Qed.

Lemma rerun_succeeds_witness :
  ∃ w1 w2,
    generate_assets Reference.library Reference.source "myapp" false Reference.world
    = (Ok tt, w1)
    ∧ generate_assets Reference.library Reference.source "myapp" false w1 = (Ok tt, w2).
Proof.
  destruct (generate_assets_calm Reference.library Reference.source "myapp" false
              Reference.world reference_png_lossless (reference_ready false)) as [w1 Hrun1].
  exists w1.
  destruct (rerun_succeeds Reference.library Reference.source "myapp" false
              Reference.world w1 reference_png_lossless) as [w2 Hrun2].
  - apply not_elem_of_nil.
  - reflexivity.
  - reflexivity.
  - exact Hrun1.
  - intros [Hin|Hin]; revert Hin; apply (bool_decide_unpack _); by vm_compute.
  - done.
  - exists w2. by split.
Defined.



(** X12: [centre_on_canvas] for any canvas and inner size.  With a resize
    that returns the requested size and Pillow's mask convention, the result
    has the canvas size; an opaque pixel of the resized source shows
    unchanged at its place shifted by the offset, a fully transparent one
    leaves the canvas transparent; and the offset puts the picture in the
    middle with the odd pixel, if any, on the right and at the bottom. *)
Theorem centred_canvas_copies_opaque_pixels {bytes : Type} (lib : Library bytes)
    (img : Image) (cw ch iw ih : Z) :
  resize_exact lib → blend_extremes lib →
  let out := centre_on_canvas lib img (cw, ch) (iw, ih) in
  let ox := (cw - iw) `div` 2 in
  let oy := (ch - ih) `div` 2 in
  im_size out = (cw, ch)
  ∧ (0 ≤ (cw - iw - ox) - ox ≤ 1)%Z ∧ (0 ≤ (ch - ih - oy) - oy ≤ 1)%Z
  ∧ ∀ x y src, (0 ≤ x < cw)%Z → (0 ≤ y < ch)%Z →
      getpixel (resize lib img (iw, ih)) (x - ox) (y - oy) = Some src →
      (alpha src = 255 → getpixel out x y = Some src)
      ∧ (alpha src = 0 → getpixel out x y = Some (0, 0, 0, 0)).
Proof.
  intros Hres Hblend out ox oy.
  destruct (centre_on_canvas_spec lib img cw ch iw ih Hres) as [Hsize Hpx].
  split; [done|].
  split; [subst ox; Z.div_mod_to_equations; lia|].
  split; [subst oy; Z.div_mod_to_equations; lia|].
  intros x y src Hx Hy Hsrc.
  specialize (Hpx x y Hx Hy). fold ox oy out in Hpx.
  assert ((ox ≤ x < ox + iw)%Z ∧ (oy ≤ y < oy + ih)%Z) as Hin.
  { unfold getpixel in Hsrc. rewrite (proj1 (Hres img (iw, ih))) in Hsrc.
    destruct ((0 <=? x - ox)%Z && (x - ox <? iw)%Z && (0 <=? y - oy)%Z && (y - oy <? ih)%Z)
      eqn:E; [|done].
    repeat (apply andb_prop in E as [E ?]). lia. }
  rewrite bool_decide_eq_true_2 in Hpx by done.
  destruct Hpx as (src' & Hsrc' & Hout).
  assert (src' = src) as -> by congruence.
  split; intros Ha; rewrite Hout, Ha.
  - by rewrite blend_px_opaque.
  - by rewrite blend_px_clear.
Qed.

Lemma centred_canvas_copies_opaque_pixels_witness :
  getpixel (centre_on_canvas Reference.library Reference.picture (5, 4) (2, 2)) 1 1
  = Some (255, 0, 0, 255)
  ∧ getpixel (centre_on_canvas Reference.library Reference.picture (5, 4) (2, 2)) 2 2
    = Some (0, 0, 0, 0).
Proof.
  destruct (centred_canvas_copies_opaque_pixels Reference.library Reference.picture
              5 4 2 2 reference_resize_exact reference_blend_extremes)
    as (_ & _ & _ & Hpx).
  split.
  - apply (Hpx 1 1 (255, 0, 0, 255)); [lia | lia | by vm_compute | done].
  - apply (Hpx 2 2 (9, 9, 9, 0)); [lia | lia | by vm_compute | done].
Defined.

(** X13: the project folder reaches the manifest document verbatim and
    only as its [short_name]: every other member of the document is the
    same whatever the project folder. *)
Theorem manifest_varies_only_in_short_name (project_folder other : string)
    (member : string) :
  member ≠ "short_name" →
  jget member (manifest_over MANIFEST_SIZES project_folder)
  = jget member (manifest_over MANIFEST_SIZES other)
  ∧ jget "short_name" (manifest_over MANIFEST_SIZES project_folder)
    = Some (JStr project_folder).
Proof.
  intros Hne. split; [|reflexivity].
  unfold jget, manifest_over. f_equal.
  cbn [List.find fst snd].
  destruct (String.eqb "name" member); [done|].
  destruct (String.eqb_spec "short_name" member) as [Heq|_]; [by destruct Hne|].
  done.
Qed.

Lemma manifest_varies_only_in_short_name_witness :
  jget "display" (manifest_over MANIFEST_SIZES "myapp")
  = jget "display" (manifest_over MANIFEST_SIZES "../other/app")
  ∧ jget "short_name" (manifest_over MANIFEST_SIZES "myapp") = Some (JStr "myapp").
Proof.
  apply (manifest_varies_only_in_short_name "myapp" "../other/app" "display"). done.
Defined.

(** X14: a normal return of [main] means complete output.  If [main]
    returns without raising, the command line had a file name and a project
    folder, and every file of the output set (the eighteen icons,
    [manifest.json], [logo.png], [favicon.ico]) is a regular file below
    the project folder afterwards. *)
Theorem normal_return_means_complete_output {bytes : Type} (lib : Library bytes)
    (argv : option (list string)) (w w' : World bytes) :
  main lib argv w = (Ok tt, w') →
  ∃ filename project_folder rest,
    arguments argv w = filename :: project_folder :: rest
    ∧ ∀ k, k ∈ output_files (locate w (PurePath.parse project_folder)) →
           ∃ data, fs w' !! k = Some (File data).
Proof.
  intros Hmain.
  destruct (main_cases argv w)
    as [Hlen|[(filename & project_folder & value & Hargs & Hbad)
             |(filename & project_folder & rest & Hargs & Hrest)]].
  - by rewrite main_usage in Hmain.
  - by rewrite (main_invalid_flag lib argv w _ _ _ Hargs Hbad) in Hmain.
  - exists filename, project_folder, rest. split; [done|].
    rewrite (main_well_formed lib argv w _ _ _ Hargs Hrest) in Hmain.
    unfold try_except in Hmain.
    destruct (fs w !! locate w (mkPath "/" (cwd w) // filename)) as [[data|]|] eqn:Ef.
    + rewrite (bind_run _ _ _ _ _ (resolve_source_path_found _ _ _ Ef)) in Hmain.
      match type of Hmain with
      | context [generate_assets lib ?p ?f ?c w] =>
          destruct (generate_assets lib p f c w) as [[[]|e] w1] eqn:Hrun
      end.
      * injection Hmain as <-.
        destruct (generate_assets_final lib _ _ _ _ _ Hrun)
          as (original & base & _ & _ & Hfiles & _).
        intros k Hk.
        destruct (produced_covers lib _ project_folder original base k Hk)
          as (rel & data' & -> & Hin).
        exists data'. by apply Hfiles.
      * by destruct e.
    + assert (missing w filename) as Hmiss by (intros d; congruence).
      destruct (resolve_source_path_missing _ _ Hmiss) as (e & w1 & Hres & _ & He).
      unfold bind at 1 in Hmain. rewrite Hres in Hmain.
      by destruct He as [-> | (_ & msg & ->)].
    + assert (missing w filename) as Hmiss by (intros d; congruence).
      destruct (resolve_source_path_missing _ _ Hmiss) as (e & w1 & Hres & _ & He).
      unfold bind at 1 in Hmain. rewrite Hres in Hmain.
      by destruct He as [-> | (_ & msg & ->)].
Qed.

Lemma normal_return_means_complete_output_witness :
  ∃ w' data,
    main Reference.library (Some ["main.py"; "logo.png"; "myapp"; "false"]) Reference.world
    = (Ok tt, w')
    ∧ fs w' !! ["home"; "dev"; "myapp"; "favicon.ico"] = Some (File data).
Proof.
  destruct (generate_assets_calm Reference.library Reference.source "myapp" false
              Reference.world reference_png_lossless (reference_ready false)) as [w' Hrun].
  assert (main Reference.library (Some ["main.py"; "logo.png"; "myapp"; "false"])
            Reference.world = (Ok tt, w')) as Hmain.
  { rewrite (main_well_formed Reference.library
               (Some ["main.py"; "logo.png"; "myapp"; "false"]) Reference.world
               "logo.png" "myapp" ["false"] eq_refl);
      [|apply (bool_decide_unpack _); by vm_compute].
    unfold try_except.
    rewrite (bind_run _ _ _ _ _
               (resolve_source_path_found "logo.png" Reference.world
                  (Reference.Png false Reference.picture) eq_refl)).
    change (bool_decide (Str.lower (Str.strip "false") = "true")) with false.
    change (mkPath "/" (cwd Reference.world) // "logo.png") with Reference.source.
    by rewrite Hrun. }
  destruct (normal_return_means_complete_output Reference.library _ _ _ Hmain)
    as (filename & project_folder & rest & Hargs & Hfiles).
  injection Hargs as <- <- <-.
  destruct (Hfiles ["home"; "dev"; "myapp"; "favicon.ico"]) as [data Hdata].
  { apply (bool_decide_unpack _). by vm_compute. }
  exists w', data. split; [exact Hmain | exact Hdata].
Defined.

(** X15: the flag is read without regard to letter case.  For every
    spelling of [true] or [false] in upper and lower case letters,
    [_parse_bool] returns the corresponding boolean, prints nothing and
    leaves the world as it is. *)
Theorem parse_bool_ignores_case {bytes : Type} (value : string) (w : World bytes) :
  Str.lower value ∈ ["true"; "false"] →
  _parse_bool value "center" w = (Ok (bool_decide (Str.lower value = "true")), w).
Proof.
  intros Hin. pose proof (strip_of_flag_word value Hin) as Hs.
  rewrite parse_bool_valid by (by rewrite Hs). by rewrite Hs.
Qed.

Lemma parse_bool_ignores_case_witness :
  _parse_bool "FaLsE" "center" Reference.world = (Ok false, Reference.world).
Proof.
  apply (parse_bool_ignores_case "FaLsE" Reference.world).
  by right; left.
Defined.
